(** * Cirrus extractor: a shallow embedding of [cirrusextractor.py] and
      [cirrus-extract.py], and the properties of its four components
      (filename sanitizer, text normalizer, record pair decoder, dump
      processor). *)

From Stdlib Require Import String Ascii.
From Stdlib Require Import List NArith ZArith Bool Arith Lia.
Import ListNotations.

(** ** Python strings and byte strings

    A Python [str] is a sequence of Unicode code points; a [bytes] object
    (a line of the gzip stream, the contents of an output file) is a
    sequence of octets, for which Rocq's [string] is used. *)

Definition char := N.
Definition pystr := list char.
Definition bytes := string.

Definition pystr_eqb (a b : pystr) : bool :=
  if list_eq_dec N.eq_dec a b then true else false.

Fixpoint octets (b : bytes) : list N :=
  match b with
  | EmptyString => []
  | String a b' => N_of_ascii a :: octets b'
  end.

Fixpoint of_octets (l : list N) : bytes :=
  match l with
  | [] => EmptyString
  | x :: l' => String (ascii_of_N x) (of_octets l')
  end.

Module Utf8.

Definition cont (b : N) : bool := (128 <=? b)%N && (b <? 192)%N.

Definition low6 (b : N) : N := N.land b 63.

Definition surrogate (c : N) : bool := (55296 <=? c)%N && (c <=? 57343)%N.

(** [bytes.decode("utf-8", errors)]: [None] stands for [UnicodeDecodeError]
    (stray continuation octets, overlong forms, code points above U+10FFFF
    and, unless [errors] is [surrogatepass], surrogates). *)
Fixpoint decode_octets (surrogatepass : bool) (bs : list N) : option pystr :=
  match bs with
  | [] => Some []
  | b0 :: r0 =>
    if (b0 <? 128)%N then option_map (cons b0) (decode_octets surrogatepass r0)
    else if (b0 <? 194)%N then None
    else if (b0 <? 224)%N then
      match r0 with
      | b1 :: r1 =>
        if cont b1
        then option_map (cons (N.shiftl (b0 - 192) 6 + low6 b1)%N)
                        (decode_octets surrogatepass r1)
        else None
      | _ => None
      end
    else if (b0 <? 240)%N then
      match r0 with
      | b1 :: b2 :: r2 =>
        let c := (N.shiftl (b0 - 224) 12 + N.shiftl (low6 b1) 6 + low6 b2)%N in
        if cont b1 && cont b2 && (2048 <=? c)%N
           && (surrogatepass || negb (surrogate c))
        then option_map (cons c) (decode_octets surrogatepass r2)
        else None
      | _ => None
      end
    else if (b0 <? 245)%N then
      match r0 with
      | b1 :: b2 :: b3 :: r3 =>
        let c := (N.shiftl (b0 - 240) 18 + N.shiftl (low6 b1) 12
                  + N.shiftl (low6 b2) 6 + low6 b3)%N in
        if cont b1 && cont b2 && cont b3 && (65536 <=? c)%N && (c <=? 1114111)%N
        then option_map (cons c) (decode_octets surrogatepass r3)
        else None
      | _ => None
      end
    else None
  end.

(** [b.decode("utf-8")], strict. *)
Definition decode (b : bytes) : option pystr := decode_octets false (octets b).

(** [b.decode("utf-8", "surrogatepass")]. *)
Definition decode_surrogatepass (b : bytes) : option pystr :=
  decode_octets true (octets b).

(** [c.encode("utf-8")] for one code point; [None] stands for
    [UnicodeEncodeError], raised on a lone surrogate. *)
Definition encode_char (c : char) : option (list N) :=
  if (c <? 128)%N then Some [c]
  else if (c <? 2048)%N then Some [192 + N.shiftr c 6; 128 + low6 c]%N
  else if (c <? 65536)%N then
    if surrogate c then None
    else Some [224 + N.shiftr c 12; 128 + low6 (N.shiftr c 6); 128 + low6 c]%N
  else if (c <=? 1114111)%N then
    Some [240 + N.shiftr c 18; 128 + low6 (N.shiftr c 12);
          128 + low6 (N.shiftr c 6); 128 + low6 c]%N
  else None.

Fixpoint encode_octets (s : pystr) : option (list N) :=
  match s with
  | [] => Some []
  | c :: s' =>
    match encode_char c, encode_octets s' with
    | Some bs, Some r => Some (bs ++ r)
    | _, _ => None
    end
  end.

(** [s.encode("utf-8")]. *)
Definition encode (s : pystr) : option bytes :=
  option_map of_octets (encode_octets s).

End Utf8.

(** A [str] literal of the source, written as its UTF-8 text. *)
Definition u (b : bytes) : pystr :=
  match Utf8.decode b with
  | Some s => s
  | None => []
  end.

Arguments u b%_string.

(** ** Character tables of the Python runtime *)

Definition in_range (lo hi c : N) : bool := (lo <=? c)%N && (c <=? hi)%N.

(** [str.isspace] on one character, which is also the class [\s] of [re] on
    [str] patterns. *)
Definition is_space (c : char) : bool :=
  in_range 9 13 c || in_range 28 32 c || (c =? 133)%N || (c =? 160)%N
  || (c =? 5760)%N || in_range 8192 8202 c || (c =? 8232)%N || (c =? 8233)%N
  || (c =? 8239)%N || (c =? 8287)%N || (c =? 12288)%N.

(** The class [\w] of [re] on [str] patterns ([str.isalnum] or an underscore),
    tabulated for the Basic Latin and Latin-1 Supplement blocks. [re] also
    counts letters and digits from U+0100 on, which this table leaves out:
    on a name with such a character the pattern of [dir_name_from_input]
    fails here where that of the code goes on. *)
Definition is_word (c : char) : bool :=
  in_range 48 57 c || in_range 65 90 c || (c =? 95)%N || in_range 97 122 c
  || (c =? 170)%N || (c =? 178)%N || (c =? 179)%N || (c =? 181)%N
  || (c =? 185)%N || (c =? 186)%N || in_range 188 190 c
  || in_range 192 214 c || in_range 216 246 c || in_range 248 255 c.

(** [str.lower], tabulated for the Basic Latin and Latin-1 Supplement
    blocks. [str.lower] also lowers letters from U+0100 on, which this
    table leaves as they are: [py_lower] is [str.lower] on text of these two
    blocks only, and the properties of the sanitizer are stated for any
    lowering function. *)
Definition lower_char (c : char) : char :=
  if in_range 65 90 c then (c + 32)%N
  else if in_range 192 222 c && negb (c =? 215)%N then (c + 32)%N
  else c.

Definition py_lower (s : pystr) : pystr := map lower_char s.

(** ** The [re] module: a backtracking matcher

    A match state is a position in the subject, the text that remains from
    that position on, and the spans of the groups closed so far. [run r m]
    lists the states in which a match of [r] started at [m] can end, in the
    order in which the backtracking engine of [re] tries them; the first one
    is the match [re] reports. *)

Module Re.

Record mstate : Type := MState {
  pos : nat;
  rest : pystr;
  caps : list (nat * (nat * nat))
}.

Inductive regex : Type :=
| Eps                              (* the empty pattern *)
| One (p : char -> bool)            (* one character: a literal, [...], ., \s, \w *)
| Bol                              (* ^ *)
| Eol                              (* $ *)
| Cat (r1 r2 : regex)              (* r1 r2 *)
| Alt (r1 r2 : regex)              (* r1|r2 *)
| Star (greedy : bool) (r : regex) (* r* and r*? *)
| Group (n : nat) (r : regex).     (* the n-th capturing group (r) *)

Definition advance (m : mstate) (s' : pystr) : mstate :=
  {| pos := S (pos m); rest := s'; caps := caps m |}.

Definition close_group (n : nat) (m m' : mstate) : mstate :=
  {| pos := pos m'; rest := rest m'; caps := (n, (pos m, pos m')) :: caps m' |}.

(** Repetition: a greedy one tries one more round before it tries to
    stop, a lazy one the other way round. A round that consumes nothing
    ends the repetition. [fuel] bounds the number of rounds by the length
    of the remaining text. *)
Fixpoint star_run (step : mstate -> list mstate) (greedy : bool)
         (fuel : nat) (m : mstate) : list mstate :=
  match fuel with
  | 0 => [m]
  | S f =>
    let more :=
      flat_map (fun m' =>
                  if length (rest m') <? length (rest m)
                  then star_run step greedy f m' else [])
               (step m) in
    if greedy then more ++ [m] else m :: more
  end.

Fixpoint run (r : regex) (m : mstate) : list mstate :=
  match r with
  | Eps => [m]
  | One p =>
    match rest m with
    | c :: s' => if p c then [advance m s'] else []
    | [] => []
    end
  | Bol => if pos m =? 0 then [m] else []
  | Eol =>
    (* the end of the text, or just before a newline that ends it *)
    match rest m with
    | [] => [m]
    | [c] => if (c =? 10)%N then [m] else []
    | _ => []
    end
  | Cat r1 r2 => flat_map (run r2) (run r1 m)
  | Alt r1 r2 => run r1 m ++ run r2 m
  | Star g r1 => star_run (run r1) g (length (rest m)) m
  | Group n r1 => map (close_group n m) (run r1 m)
  end.

(** The first way to match [r] from [m]; with [must_advance], the first
    one that is not empty. *)
Definition first_match (must_advance : bool) (r : regex) (m : mstate)
  : option mstate :=
  find (fun m' => negb must_advance || (pos m <? pos m')) (run r m).

(** [pattern.search]: the leftmost start from position [p] (where [s] is
    the text from [p] on) at which the pattern matches; [must_advance]
    applies to the first start only. *)
Fixpoint search (r : regex) (must_advance : bool) (p : nat) (s : pystr)
  : option (nat * mstate) :=
  match first_match must_advance r (MState p s []) with
  | Some m' => Some (p, m')
  | None =>
    match s with
    | [] => None
    | _ :: s' => search r false (S p) s'
    end
  end.

(** The loop of [re.sub]: search from the end of the last match, copy the
    text skipped, put the replacement, go on; an empty match forces the
    next one to advance. *)
Fixpoint sub_loop (fuel : nat) (r : regex) (repl : pystr)
         (must_advance : bool) (p : nat) (s : pystr) : pystr :=
  match fuel with
  | 0 => s
  | S f =>
    match search r must_advance p s with
    | None => s
    | Some (b, m') =>
      firstn (b - p) s ++ repl
      ++ sub_loop f r repl (pos m' =? b) (pos m') (rest m')
    end
  end.

(** [re.sub(r, repl, s)] for a replacement without group references. *)
Definition sub (r : regex) (repl : pystr) (s : pystr) : pystr :=
  sub_loop (2 * length s + 2) r repl false 0 s.

(** [re.match(r, s)]: a match at the start of [s] only. *)
Definition match_ (r : regex) (s : pystr) : option mstate :=
  first_match false r (MState 0 s []).

(** [m.group(n)] on the subject [s]. *)
Definition group (s : pystr) (m : mstate) (n : nat) : option pystr :=
  match find (fun c => fst c =? n) (caps m) with
  | Some (_, (b, e)) => Some (firstn (e - b) (skipn b s))
  | None => None
  end.

(** Pattern syntax. *)
Definition chr (c : char) : regex := One (N.eqb c).
Definition set (cs : pystr) : regex := One (fun c => existsb (N.eqb c) cs).
Definition dot : regex := One (fun c => negb (c =? 10)%N).
Definition space : regex := One is_space.
Definition word : regex := One is_word.
Definition plus (g : bool) (r : regex) : regex := Cat r (Star g r).
Fixpoint lit (s : pystr) : regex :=
  match s with
  | [] => Eps
  | c :: s' => Cat (chr c) (lit s')
  end.

End Re.

Import Re.

Declare Scope re_scope.
Delimit Scope re_scope with re.
Bind Scope re_scope with regex.
Infix "·" := Cat (at level 40, left associativity) : re_scope.
Arguments chr c%_N.

(** ** Filename sanitizer (both scripts carry the same text) *)

Definition hyphen : char := 45%N.
Definition tab : char := 9%N.
Definition newline : char := 10%N.

(* [  \/,?!();:'\[\]] *)
Definition title_class : pystr :=
  [32; 160; 47; 44; 63; 33; 40; 41; 59; 58; 39; 91; 93]%N.

Section Sanitizer.

(** [str.lower] of the runtime. *)
Variable lower : pystr -> pystr.

Definition title_to_filename (title : pystr) : pystr :=
  let title := Re.sub (plus true (set title_class)) (u "-") title in
  let title := Re.sub (plus true (chr hyphen)) (u "-") title in
  let title := Re.sub (Cat (chr hyphen) Eol) [] title in
  let title := lower title in
  let title := title ++ u ".txt" in
  title.

End Sanitizer.

(** ** Text normalizer ([cirrusextractor.py]) *)

Record regices : Type := Regices {
  navigation : regex;
  limitations : regex;
  precedent : regex;
  suivant : regex
}.

Definition REGICES_FR : regices := {|
  (* the phrase, with the blank that ends it *)
  navigation :=
    lit (u "Début de la boite de navigation du chapitre fin de la boite de navigation du chapitre ");
  (* En raison de ... souhaitable du .*?, n\'a pu ... ci-dessus. followed by a
     blank; the full stop is the pattern that matches any character *)
  limitations :=
    (lit (u "En raison de limitations techniques, la typographie souhaitable du ")
     · Star false dot
     · lit (u ", n'a pu être restituée correctement ci-dessus")
     · dot · lit (u " "))%re;
  (* \s*<\s+Précédent\s*(\||$) *)
  precedent :=
    (Star true space · chr 60 · plus true space · lit (u "Précédent")
     · Star true space · Group 1 (Alt (chr 124) Eol))%re;
  (* \s*\|*\s+Suivant\s+>\s*$ *)
  suivant :=
    (Star true space · Star true (chr 124) · plus true space
     · lit (u "Suivant") · plus true space · chr 62 · Star true space · Eol)%re
|}.

Definition clean_text (text : pystr) : pystr :=
  let text := Re.sub (suivant REGICES_FR) [] text in
  let text := Re.sub (precedent REGICES_FR) [] text in
  let text := Re.sub (navigation REGICES_FR) [] text in
  let text := Re.sub (limitations REGICES_FR) [] text in
  text.

(** ** [os.path] (POSIX) and [str.startswith] *)

Definition slash : char := 47%N.

(** [os.path.basename]: what follows the last slash. *)
Fixpoint basename (p : pystr) : pystr :=
  match p with
  | [] => []
  | c :: p' =>
    if existsb (N.eqb slash) p' then basename p'
    else if (c =? slash)%N then p' else p
  end.

Fixpoint startswith (s prefix : pystr) : bool :=
  match prefix, s with
  | [], _ => true
  | c :: prefix', d :: s' => (c =? d)%N && startswith s' prefix'
  | _ :: _, [] => false
  end.

(** [os.path.join(a, b)]: [b] alone when it is absolute, else [a] and [b]
    with a slash between them unless [a] is empty or ends with one. *)
Definition path_join (a b : pystr) : pystr :=
  if startswith b [slash] then b
  else match rev a with
       | [] => b
       | d :: _ => if (d =? slash)%N then a ++ b else a ++ slash :: b
       end.

(** ** Output directory from the name of the dump *)

(* ^(\w+?wik\w+)- *)
Definition dir_name_pattern : regex :=
  (Bol · Group 1 (plus false word · lit (u "wik") · plus true word) · chr hyphen)%re.

(** [None] stands for the [AttributeError] of [m.group] when [re.match]
    returned [None]. *)
Definition dir_name_from_input (inp : pystr) : option pystr :=
  let fname := basename inp in
  match Re.match_ dir_name_pattern fname with
  | Some m => Re.group fname m 1
  | None => None
  end.

(** ** Values decoded from JSON

    What [json.loads] returns. A [dict] keeps the members in the order of the
    text, and a lookup returns the last member with the key, as the [dict]
    built by [json] does. The program never looks into a [float] except to
    compare it with [0], so a [float] is kept as the answer to that
    comparison. *)

#[local] Set Warnings "-register-all".

Inductive pyval : Type :=
| VNone
| VBool (b : bool)
| VInt (z : Z)
| VFloat (is_zero : bool)
| VStr (s : pystr)
| VList (l : list pyval)
| VDict (d : list (pystr * pyval)).

Fixpoint dict_get (d : list (pystr * pyval)) (k : pystr) : option pyval :=
  match d with
  | [] => None
  | (k', v) :: d' =>
    match dict_get d' k with
    | Some v' => Some v'
    | None => if pystr_eqb k' k then Some v else None
    end
  end.

(** ** Exceptions, effects and the command monad *)

Inductive exn : Type :=
| JSONDecodeError
| KeyError (k : pystr)
| TypeError
| AttributeError
| UnicodeEncodeError
| UnicodeDecodeError
| IndexError
| ValueError
| OSError.

Inductive res (A : Type) : Type :=
| Ok (a : A)
| Raise (e : exn).

Arguments Ok {A} a.
Arguments Raise {A} e.

(** The operations performed on the outside world. The scripts have no
    statement that closes the source: [SrcClose] is what the interpreter does
    to the object of [gzip.open] when the last reference to it goes. *)
Inductive event : Type :=
| SrcOpen (name : pystr)             (* gzip.open(name) *)
| SrcClose                           (* the source is closed *)
| FileOpen (path : pystr)            (* open(path, "wb"): created or truncated *)
| FileWrite (path : pystr) (b : bytes)
| FileClose (path : pystr)
| Stdout (s : pystr).                (* sys.stdout.write(s) *)

Arguments FileWrite path b%_string.

(** A command yields the events it performed and then a value or the
    exception that ended it. A write to a file that is open and a write to
    standard output are taken to succeed. *)
Definition M (A : Type) : Type := (list event * res A)%type.

Definition ret {A} (a : A) : M A := ([], Ok a).
Definition raise {A} (e : exn) : M A := ([], Raise e).
Definition emit (ev : event) : M unit := ([ev], Ok tt).
Definition lift {A} (r : res A) : M A := ([], r).

Definition bind {A B} (m : M A) (k : A -> M B) : M B :=
  match m with
  | (t, Ok a) => let (t', r) := k a in (t ++ t', r)
  | (t, Raise e) => (t, Raise e)
  end.

Notation "x <- c ;; k" := (bind c (fun x => k))
  (at level 61, c at next level, right associativity).
Notation "c ;;; k" := (bind c (fun _ => k))
  (at level 61, right associativity).

(** [with open(path, "wb") as o: body]. [opened] is the outcome of
    [open(path, "wb")]: it raises [ValueError] for a path with a null
    character and [OSError] for a name that is too long, a missing
    directory, a refused permission; then the body is not run and nothing
    is created. Once the file is open it is closed when the block is left,
    also by an exception. *)
Definition with_open {A} (opened : res unit) (path : pystr) (body : M A) : M A :=
  match opened with
  | Ok _ => let (t, r) := body in (FileOpen path :: t ++ [FileClose path], r)
  | Raise e => ([], Raise e)
  end.

(** The octets a character takes in a file name: those of UTF-8, and one
    for each of the surrogates U+DC80 to U+DCFF, which stand for an octet
    ([surrogateescape]); the other surrogates have none. *)
Definition fs_octets (c : char) : option nat :=
  if in_range 56448 56575 c then Some 1
  else option_map (@length N) (Utf8.encode_char c).

Fixpoint fs_length (s : pystr) : option nat :=
  match s with
  | [] => Some 0
  | c :: s' =>
    match fs_octets c, fs_length s' with
    | Some a, Some b => Some (a + b)
    | _, _ => None
    end
  end.

(** [open(path, "wb")] on a Linux file system, the directory of the path
    being there and writable. The path is encoded first
    ([UnicodeEncodeError]), then checked for a null character
    ([ValueError]), and then handed to the system, which refuses a name of
    more than 255 octets and a path of more than 4095 ([OSError]). *)
Definition posix_open (path : pystr) : res unit :=
  match fs_length path, fs_length (basename path) with
  | Some n, Some k =>
    if existsb (N.eqb 0) path then Raise ValueError
    else if (255 <? k) || (4095 <? n) then Raise OSError
    else Ok tt
  | _, _ => Raise UnicodeEncodeError
  end.

(** [print(a)] and [print(a, end=e)]. *)
Definition print (a e : pystr) : M unit :=
  emit (Stdout a) ;;; emit (Stdout e).

(** [print(a, b)]. *)
Definition print2 (a b : pystr) : M unit :=
  emit (Stdout a) ;;; emit (Stdout (u " ")) ;;; emit (Stdout b) ;;;
  emit (Stdout [newline]).

(** ** Operations of the interpreter on decoded values *)

(** [v[k]] for a [str] key. *)
Definition getitem (v : pyval) (k : pystr) : res pyval :=
  match v with
  | VDict d =>
    match dict_get d k with
    | Some x => Ok x
    | None => Raise (KeyError k)
    end
  | _ => Raise TypeError
  end.

(** [v == s] for a [str] [s]. *)
Definition eq_str (v : pyval) (s : pystr) : bool :=
  match v with
  | VStr t => pystr_eqb t s
  | _ => false
  end.

(** [v == 0]. *)
Definition eq_zero (v : pyval) : bool :=
  match v with
  | VInt z => (z =? 0)%Z
  | VBool b => negb b
  | VFloat z => z
  | _ => false
  end.

(** A value where the program needs a [str]: [v + "\n"], [re.sub(_, _, v)]. *)
Definition as_str (v : pyval) : res pystr :=
  match v with
  | VStr s => Ok s
  | _ => Raise TypeError
  end.

(** [v.encode("utf-8")]. *)
Definition encode_value (v : pyval) : res bytes :=
  match v with
  | VStr s =>
    match Utf8.encode s with
    | Some b => Ok b
    | None => Raise UnicodeEncodeError
    end
  | _ => Raise AttributeError
  end.

Fixpoint uint_chars (d : Decimal.uint) : pystr :=
  match d with
  | Decimal.Nil => []
  | Decimal.D0 d' => 48%N :: uint_chars d'
  | Decimal.D1 d' => 49%N :: uint_chars d'
  | Decimal.D2 d' => 50%N :: uint_chars d'
  | Decimal.D3 d' => 51%N :: uint_chars d'
  | Decimal.D4 d' => 52%N :: uint_chars d'
  | Decimal.D5 d' => 53%N :: uint_chars d'
  | Decimal.D6 d' => 54%N :: uint_chars d'
  | Decimal.D7 d' => 55%N :: uint_chars d'
  | Decimal.D8 d' => 56%N :: uint_chars d'
  | Decimal.D9 d' => 57%N :: uint_chars d'
  end.

(** [str(z)] for an [int]. *)
Definition str_of_int (z : Z) : pystr :=
  match Z.to_int z with
  | Decimal.Pos d => uint_chars d
  | Decimal.Neg d => hyphen :: uint_chars d
  end.

(** [" " * n]. *)
Definition spaces (n : Z) : pystr := repeat 32%N (Z.to_nat n).

(** [s[:n]]: a negative [n] counts from the end. *)
Definition slice_to (s : pystr) (n : Z) : pystr :=
  if (n <? 0)%Z then firstn (Z.to_nat (Z.of_nat (length s) + n)) s
  else firstn (Z.to_nat n) s.

Definition is_empty (b : bytes) : bool :=
  match b with
  | EmptyString => true
  | _ => false
  end.

Record arguments : Type := Arguments_ {
  quiet : bool;
  count_flag : bool
}.

(** ** The dump processor *)

Definition cr : char := 13%N.

Section Decoding.

(** [json.loads] on a line: the value, or the exception it raises,
    [JSONDecodeError] for text that is not JSON and [UnicodeDecodeError]
    for octets that are not UTF-8. *)
Variable json_loads : bytes -> res pyval.

Definition loads (line : bytes) : M pyval := lift (json_loads line).

End Decoding.

(** What the interpreter does to [inp] when a call of [process_dump]
    returns: the frame of the call held the only reference to the object
    that [gzip.open] returned, so that reference counting finalizes the
    object, which closes it; [sys.stdin] is held by the [sys] module and
    stays open. When the call is left by an exception the traceback keeps
    the frame, and nothing is closed. *)
Definition release_source (input_file : pystr) : M unit :=
  if pystr_eqb input_file (u "-") then ret tt else emit SrcClose.

(** The test of the filter. [and] does not look at the namespace of what is
    not a page. *)
Definition qualifies (doc_type : pyval) (content : pyval) : M bool :=
  if eq_str doc_type (u "page")
  then ns <- lift (getitem content (u "namespace")) ;; ret (eq_zero ns)
  else ret false.

(** The combined stream on standard output. *)
Definition emit_stream (content : pyval) : M unit :=
  emit (Stdout [newline]) ;;;
  title <- lift (getitem content (u "title")) ;;
  title <- lift (as_str title) ;;
  emit (Stdout (title ++ [newline])) ;;;
  text <- lift (getitem content (u "text")) ;;
  text <- lift (as_str text) ;;
  emit (Stdout (text ++ [newline])).

(** *** [cirrusextractor.py] *)

Module Extractor.

Section Run.

Variable json_loads : bytes -> res pyval.

(** [str.lower]. *)
Variable lower : pystr -> pystr.

(** The outcome of [open(path, "wb")] for each path. *)
Variable open_wb : pystr -> res unit.

(** The value of [int(os.popen("stty size", "r").read().split()[0])], or
    the exception the expression raises when there is no terminal.
    [stty size] prints the number of rows and then the number of columns,
    so that this value, which the source names [columns], is the number of
    rows of the terminal. *)
Variable columns : res Z.

(** The progress line of [--count]. *)
Definition progress (count : Z) (out_fname : pystr) : M unit :=
  columns <- lift columns ;;
  print (spaces columns) [cr] ;;;
  let msg := str_of_int count ++ u " | " ++ out_fname in
  print (slice_to msg (columns - 5) ++ u "...") [cr].

(** The informational printing that follows the writing of a file. *)
Definition report (args : arguments) (count : Z) (out_fname : pystr) : M unit :=
  (if negb (quiet args) then print out_fname [newline] else ret tt) ;;;
  (if count_flag args then progress count out_fname else ret tt).

(** One file per document. *)
Definition emit_file (out_path : pystr) (args : arguments) (count : Z)
           (content : pyval) : M unit :=
  title <- lift (getitem content (u "title")) ;;
  title <- lift (as_str title) ;;
  let title := title_to_filename lower title in
  text <- (if startswith (basename out_path) (u "fr")
           then text <- lift (getitem content (u "text")) ;;
                text <- lift (as_str text) ;;
                ret (VStr (clean_text text))
           else lift (getitem content (u "text"))) ;;
  let out_fname := path_join out_path title in
  with_open (open_wb out_fname) out_fname
    (b <- lift (encode_value text) ;; emit (FileWrite out_fname b)) ;;;
  report args count out_fname.

(** The body of the loop once the two lines are decoded. *)
Definition process_pair (out_path : pystr) (args : arguments) (count : Z)
           (index content : pyval) : M unit :=
  idx <- lift (getitem index (u "index")) ;;
  doc_type <- lift (getitem idx (u "_type")) ;;
  idx <- lift (getitem index (u "index")) ;;
  doc_id <- lift (getitem idx (u "_id")) ;;
  language <- lift (getitem content (u "language")) ;;
  q <- qualifies doc_type content ;;
  if q then
    if pystr_eqb out_path (u "-") then emit_stream content
    else emit_file out_path args count content
  else ret tt.

(** [while True: ...], on the lines that [inp.readline()] will return;
    at the end of the source it returns the empty line. The result is
    the value of the local variable [count] when the loop is left. *)
Fixpoint read_loop (out_path : pystr) (args : arguments)
         (lines : list bytes) (count : Z) : M Z :=
  let count := (count + 1)%Z in
  match lines with
  | [] => ret count
  | line :: lines1 =>
    if is_empty line then ret count
    else
      index <- loads json_loads line ;;
      match lines1 with
      | [] =>
        content <- loads json_loads EmptyString ;;
        process_pair out_path args count index content ;;;
        read_loop out_path args lines1 count
      | line2 :: lines2 =>
        content <- loads json_loads line2 ;;
        process_pair out_path args count index content ;;;
        read_loop out_path args lines2 count
      end
  end.

(** [lines] is what the source named [input_file] holds. The function
    has no [return]: its value is [None]. It has no statement that closes
    [inp] either: when it returns, its frame goes, and with it the last
    reference to the object of [gzip.open], which the interpreter then
    closes ([release_source]). *)
Definition process_dump (input_file out_path : pystr) (args : arguments)
           (lines : list bytes) : M pyval :=
  (if pystr_eqb input_file (u "-") then ret tt
   else emit (SrcOpen input_file)) ;;;
  read_loop out_path args lines 0 ;;;
  release_source input_file ;;;
  ret VNone.

End Run.

End Extractor.

(** *** [cirrus-extract.py]: no counter, no cleanup *)

Module Extract.

Section Run.

Variable json_loads : bytes -> res pyval.
Variable lower : pystr -> pystr.
Variable open_wb : pystr -> res unit.

Definition emit_file (out_path : pystr) (quiet : bool) (content : pyval)
  : M unit :=
  title <- lift (getitem content (u "title")) ;;
  title <- lift (as_str title) ;;
  let title := title_to_filename lower title in
  text <- lift (getitem content (u "text")) ;;
  let out_fname := path_join out_path title in
  with_open (open_wb out_fname) out_fname
    (b <- lift (encode_value text) ;; emit (FileWrite out_fname b)) ;;;
  (if negb quiet then print out_fname [newline] else ret tt).

Definition process_pair (out_path : pystr) (quiet : bool)
           (index content : pyval) : M unit :=
  idx <- lift (getitem index (u "index")) ;;
  doc_type <- lift (getitem idx (u "_type")) ;;
  idx <- lift (getitem index (u "index")) ;;
  doc_id <- lift (getitem idx (u "_id")) ;;
  language <- lift (getitem content (u "language")) ;;
  q <- qualifies doc_type content ;;
  if q then
    if pystr_eqb out_path (u "-") then emit_stream content
    else emit_file out_path quiet content
  else ret tt.

Fixpoint read_loop (out_path : pystr) (quiet : bool) (lines : list bytes)
  : M unit :=
  match lines with
  | [] => ret tt
  | line :: lines1 =>
    if is_empty line then ret tt
    else
      index <- loads json_loads line ;;
      match lines1 with
      | [] =>
        content <- loads json_loads EmptyString ;;
        process_pair out_path quiet index content ;;;
        read_loop out_path quiet lines1
      | line2 :: lines2 =>
        content <- loads json_loads line2 ;;
        process_pair out_path quiet index content ;;;
        read_loop out_path quiet lines2
      end
  end.

Definition process_dump (input_file out_path : pystr) (quiet : bool)
           (lines : list bytes) : M pyval :=
  (if pystr_eqb input_file (u "-") then ret tt
   else emit (SrcOpen input_file)) ;;;
  read_loop out_path quiet lines ;;;
  release_source input_file ;;;
  ret VNone.

End Run.

End Extract.

(** *** [main], after [argparse]

    The file system enters through [isdir], the answer of
    [os.path.isdir(out_path)], [makedirs_ok], whether [os.makedirs]
    succeeds, and [open_wb], the outcome of opening a file for writing. *)

Record options : Type := Options {
  input : pystr;
  output_dir : pystr;
  opt_quiet : bool;
  opt_count : bool
}.

Section Main.

Variable json_loads : bytes -> res pyval.
Variable lower : pystr -> pystr.
Variable open_wb : pystr -> res unit.
Variable columns : res Z.
Variable isdir : bool.
Variable makedirs_ok : bool.

(** The directory the files go to; [AttributeError] when the name of the
    dump does not have the expected form. *)
Definition out_path_of (o : options) : res pystr :=
  if negb (pystr_eqb (input o) (u "-")) && negb (pystr_eqb (output_dir o) (u "-"))
  then match dir_name_from_input (input o) with
       | Some wikiname => Ok (path_join (output_dir o) wikiname)
       | None => Raise AttributeError
       end
  else Ok (output_dir o).

Definition main (o : options) (lines : list bytes) : M unit :=
  let args := {| quiet := opt_quiet o || opt_count o; count_flag := opt_count o |} in
  out_path <- lift (out_path_of o) ;;
  if negb (pystr_eqb out_path (u "-")) && negb isdir && negb makedirs_ok
  then print2 (u "could not create:") out_path
  else
    (if negb (pystr_eqb out_path (u "-")) && negb isdir
     then print2 (u "created dir:") out_path else ret tt) ;;;
    Extractor.process_dump json_loads lower open_wb columns (input o) out_path
                           args lines ;;;
    (if opt_count o then print [newline] [newline] else ret tt).

End Main.

(** ** A model of [json.loads] for UTF-8 JSON text

    The functions above take [json.loads] as a parameter; this decoder
    instantiates it on concrete dumps. It covers lines in UTF-8, which is
    what the dumps are: [json.loads] also recognises UTF-16 and UTF-32 by
    their first octets, and refuses an integer of more digits than the
    interpreter converts, neither of which is modelled. *)

Module Json.

Definition ws (c : char) : bool :=
  (c =? 32)%N || (c =? 9)%N || (c =? 10)%N || (c =? 13)%N.

Fixpoint skip_ws (s : pystr) : pystr :=
  match s with
  | c :: s' => if ws c then skip_ws s' else s
  | [] => []
  end.

Definition hex (c : char) : option N :=
  if in_range 48 57 c then Some (c - 48)%N
  else if in_range 65 70 c then Some (c - 55)%N
  else if in_range 97 102 c then Some (c - 87)%N
  else None.

Definition hex4 (a b c d : char) : option N :=
  match hex a, hex b, hex c, hex d with
  | Some x, Some y, Some z, Some w => Some (4096 * x + 256 * y + 16 * z + w)%N
  | _, _, _, _ => None
  end.

Definition escape (c : char) : option char :=
  if (c =? 34)%N then Some 34%N          (* quote *)
  else if (c =? 92)%N then Some 92%N     (* backslash *)
  else if (c =? 47)%N then Some 47%N     (* slash *)
  else if (c =? 98)%N then Some 8%N      (* b: backspace *)
  else if (c =? 102)%N then Some 12%N    (* f: form feed *)
  else if (c =? 110)%N then Some 10%N    (* n: line feed *)
  else if (c =? 114)%N then Some 13%N    (* r: carriage return *)
  else if (c =? 116)%N then Some 9%N     (* t: tab *)
  else None.

(** Two escaped UTF-16 units that form a surrogate pair. *)
Definition pair_up (hi lo : N) : option N :=
  if in_range 55296 56319 hi && in_range 56320 57343 lo
  then Some (65536 + 1024 * (hi - 55296) + (lo - 56320))%N
  else None.

(** The text of a string after its opening quote: the characters and what
    follows the closing quote. *)
Fixpoint string_body (s : pystr) : option (pystr * pystr) :=
  match s with
  | [] => None
  | c :: s1 =>
    if (c =? 34)%N then Some ([], s1)
    else if (c <? 32)%N then None
    else if (c =? 92)%N then
      match s1 with
      | e :: s2 =>
        if (e =? 117)%N then
          match s2 with
          | a :: b :: c' :: d :: s3 =>
            match hex4 a b c' d with
            | None => None
            | Some hi =>
              let single :=
                  match string_body s3 with
                  | Some (t, r) => Some (hi :: t, r)
                  | None => None
                  end in
              match s3 with
              | b1 :: u1 :: a2 :: b2 :: c2 :: d2 :: s4 =>
                if (b1 =? 92)%N && (u1 =? 117)%N then
                  match hex4 a2 b2 c2 d2 with
                  | Some lo =>
                    match pair_up hi lo with
                    | Some cp =>
                      match string_body s4 with
                      | Some (t, r) => Some (cp :: t, r)
                      | None => None
                      end
                    | None => single
                    end
                  | None => single
                  end
                else single
              | _ => single
              end
            end
          | _ => None
          end
        else
          match escape e, string_body s2 with
          | Some x, Some (t, r) => Some (x :: t, r)
          | _, _ => None
          end
      | [] => None
      end
    else
      match string_body s1 with
      | Some (t, r) => Some (c :: t, r)
      | None => None
      end
  end.

Definition digit (c : char) : bool := in_range 48 57 c.

Fixpoint digits (s : pystr) : pystr * pystr :=
  match s with
  | c :: s' => if digit c then let (d, r) := digits s' in (c :: d, r) else ([], s)
  | [] => ([], [])
  end.

Definition value_of (ds : pystr) : Z :=
  fold_left (fun acc c => (10 * acc + Z.of_N (c - 48))%Z) ds 0%Z.

(** Whether the decimal [m * 10^e] rounds to the double [0.0]. *)
Definition rounds_to_zero (m e : Z) : bool :=
  (m =? 0)%Z || ((e <? 0)%Z && (m * 2 ^ 1075 <=? 10 ^ (- e))%Z).

(** The digits after an optional sign: [int] without fraction and
    exponent, [float] otherwise. *)
Definition number (neg : bool) (s : pystr) : option (pyval * pystr) :=
  let (ip, r) := digits s in
  match ip with
  | [] => None
  | d0 :: ip' =>
    if (d0 =? 48)%N && negb (match ip' with [] => true | _ => false end) then
      (* a leading zero ends the integer part *)
      Some (VInt 0, ip' ++ r)
    else
      let (fp, r1) :=
          match r with
          | c :: r' =>
            if (c =? 46)%N
            then match digits r' with
                 | ([], _) => ([], r)
                 | (f, r'') => (f, r'')
                 end
            else ([], r)
          | [] => ([], r)
          end in
      let '(has_exp, ex, r2) :=
          match r1 with
          | c :: r' =>
            if (c =? 101)%N || (c =? 69)%N then
              match r' with
              | sg :: r'' =>
                if (sg =? 43)%N || (sg =? 45)%N then
                  match digits r'' with
                  | ([], _) => (false, 0%Z, r1)
                  | (x, r3) =>
                    (true, (if (sg =? 45)%N then - value_of x else value_of x)%Z, r3)
                  end
                else
                  match digits r' with
                  | ([], _) => (false, 0%Z, r1)
                  | (x, r3) => (true, value_of x, r3)
                  end
              | [] => (false, 0%Z, r1)
              end
            else (false, 0%Z, r1)
          | [] => (false, 0%Z, r1)
          end in
      match fp, has_exp with
      | [], false =>
        Some (VInt (if neg then - value_of ip else value_of ip)%Z, r2)
      | _, _ =>
        Some (VFloat (rounds_to_zero (value_of (ip ++ fp))
                                     (ex - Z.of_nat (length fp))), r2)
      end
  end.

Fixpoint value (fuel : nat) (s : pystr) : option (pyval * pystr) :=
  match fuel with
  | 0 => None
  | S f =>
    match s with
    | [] => None
    | c :: s1 =>
      if (c =? 34)%N then
        match string_body s1 with
        | Some (t, r) => Some (VStr t, r)
        | None => None
        end
      else if (c =? 123)%N then
        match skip_ws s1 with
        | d :: r => if (d =? 125)%N then Some (VDict [], r)
                    else members f (d :: r) []
        | [] => None
        end
      else if (c =? 91)%N then
        match skip_ws s1 with
        | d :: r => if (d =? 93)%N then Some (VList [], r)
                    else elements f (d :: r) []
        | [] => None
        end
      else if startswith s (u "null") then Some (VNone, skipn 4 s)
      else if startswith s (u "true") then Some (VBool true, skipn 4 s)
      else if startswith s (u "false") then Some (VBool false, skipn 5 s)
      else if (c =? 45)%N then
        match number true s1 with
        | Some x => Some x
        | None => if startswith s1 (u "Infinity")
                  then Some (VFloat false, skipn 8 s1) else None
        end
      else if digit c then number false s
      else if startswith s (u "NaN") then Some (VFloat false, skipn 3 s)
      else if startswith s (u "Infinity") then Some (VFloat false, skipn 8 s)
      else None
    end
  end
with elements (fuel : nat) (s : pystr) (acc : list pyval)
     : option (pyval * pystr) :=
  match fuel with
  | 0 => None
  | S f =>
    match value f s with
    | Some (v, r) =>
      match skip_ws r with
      | c :: r' =>
        if (c =? 44)%N then elements f (skip_ws r') (acc ++ [v])
        else if (c =? 93)%N then Some (VList (acc ++ [v]), r')
        else None
      | [] => None
      end
    | None => None
    end
  end
with members (fuel : nat) (s : pystr) (acc : list (pystr * pyval))
     : option (pyval * pystr) :=
  match fuel with
  | 0 => None
  | S f =>
    match s with
    | q :: s1 =>
      if (q =? 34)%N then
        match string_body s1 with
        | Some (k, r) =>
          match skip_ws r with
          | c :: r1 =>
            if (c =? 58)%N then
              match value f (skip_ws r1) with
              | Some (v, r2) =>
                match skip_ws r2 with
                | d :: r3 =>
                  if (d =? 44)%N then members f (skip_ws r3) (acc ++ [(k, v)])
                  else if (d =? 125)%N then Some (VDict (acc ++ [(k, v)]), r3)
                  else None
                | [] => None
                end
              | None => None
              end
            else None
          | [] => None
          end
        | None => None
        end
      else None
    | [] => None
    end
  end.

(** The octets without the byte order mark of UTF-8. *)
Definition strip_bom (b : bytes) : bytes :=
  match octets b with
  | 239%N :: 187%N :: 191%N :: r => of_octets r
  | _ => b
  end.

(** [json.loads] on the octets of a line: they are decoded with
    [surrogatepass], after the byte order mark if there is one, and the
    text is read as one JSON value between white space. *)
Definition loads (b : bytes) : res pyval :=
  match Utf8.decode_surrogatepass (strip_bom b) with
  | None => Raise UnicodeDecodeError
  | Some s =>
    match value (2 * length s + 2) (skip_ws s) with
    | Some (v, r) =>
      match skip_ws r with
      | [] => Ok v
      | _ => Raise JSONDecodeError
      end
    | None => Raise JSONDecodeError
    end
  end.

End Json.

(** JSON text is written below with an apostrophe for the double quote;
    [line] puts the quotes back and ends the line. *)
Fixpoint dq (b : bytes) : bytes :=
  match b with
  | EmptyString => EmptyString
  | String a b' =>
    String (if (N_of_ascii a =? 39)%N then ascii_of_N 34 else a) (dq b')
  end.

Definition line (b : bytes) : bytes :=
  append (dq b) (String (ascii_of_N 10) EmptyString).

Arguments dq b%_string.
Arguments line b%_string.

(** ** Reference algorithms, in the words of the specification *)

(** Every maximal run of characters of the class [p] becomes [rep];
    [in_run] tells that the character before belonged to a run. *)
Fixpoint replace_runs (p : char -> bool) (rep : pystr) (in_run : bool)
         (s : pystr) : pystr :=
  match s with
  | [] => []
  | c :: s' =>
    if p c then
      if in_run then replace_runs p rep true s'
      else rep ++ replace_runs p rep true s'
    else c :: replace_runs p rep false s'
  end.

(** The punctuation the sanitizer replaces: / , ? ! ( ) ; : ' [ ] *)
Definition punctuation : pystr :=
  [47; 44; 63; 33; 40; 41; 59; 58; 39; 91; 93]%N.

Definition is_punctuation (c : char) : bool := existsb (N.eqb c) punctuation.

Definition is_hyphen (c : char) : bool := (c =? hyphen)%N.

(** Strip a trailing hyphen. *)
Definition strip_trailing_hyphen (s : pystr) : pystr :=
  match rev s with
  | a :: r => if is_hyphen a then rev r else s
  | [] => s
  end.

(** The sanitizer as the specification words it: the class is whitespace or
    punctuation. *)
Definition sanitize_spec (lower : pystr -> pystr) (title : pystr) : pystr :=
  let t := replace_runs (fun c => is_space c || is_punctuation c) [hyphen] false title in
  let t := replace_runs is_hyphen [hyphen] false t in
  let t := strip_trailing_hyphen t in
  lower t ++ u ".txt".

(** The class of the code: the space, the no-break space and the
    punctuation. *)
Definition is_blank_or_punctuation (c : char) : bool :=
  (c =? 32)%N || (c =? 160)%N || is_punctuation c.

(** The hyphen that [-$] removes: the one that ends the text, or the one in
    front of a newline that ends the text. *)
Definition strip_final_hyphen (s : pystr) : pystr :=
  match rev s with
  | a :: r =>
    if is_hyphen a then rev r
    else match r with
         | b :: r' =>
           if (a =? newline)%N && is_hyphen b then rev r' ++ [newline] else s
         | [] => s
         end
  | [] => s
  end.

Definition sanitize_ref (lower : pystr -> pystr) (title : pystr) : pystr :=
  let t := replace_runs is_blank_or_punctuation [hyphen] false title in
  let t := replace_runs is_hyphen [hyphen] false t in
  let t := strip_final_hyphen t in
  lower t ++ u ".txt".

(** The four rules in the order of the specification. *)
Definition clean_text_spec_order (text : pystr) : pystr :=
  let text := Re.sub (navigation REGICES_FR) [] text in
  let text := Re.sub (limitations REGICES_FR) [] text in
  let text := Re.sub (precedent REGICES_FR) [] text in
  let text := Re.sub (suivant REGICES_FR) [] text in
  text.

(** Remove every occurrence of the phrase [w], found from the left;
    [skip] counts the characters of an occurrence still to drop. *)
Fixpoint remove_all (w : pystr) (skip : nat) (s : pystr) : pystr :=
  match s with
  | [] => []
  | c :: s' =>
    match skip with
    | S k => remove_all w k s'
    | 0 =>
      if startswith s w then remove_all w (length w - 1) s'
      else c :: remove_all w 0 s'
    end
  end.

(** The navigation phrase of the French Wikibooks. *)
Definition navigation_phrase : pystr :=
  u "Début de la boite de navigation du chapitre fin de la boite de navigation du chapitre ".

(** [re.search(r, s) is not None]. *)
Definition matches (r : regex) (s : pystr) : bool :=
  match Re.search r false 0 s with
  | Some _ => true
  | None => false
  end.

(** ** Auxiliary functions of the proofs *)

(** The length of the run of [p] that starts [s], and what follows it. *)
Fixpoint run_length (p : char -> bool) (s : pystr) : nat :=
  match s with
  | c :: s' => if p c then S (run_length p s') else 0
  | [] => 0
  end.

Fixpoint drop_run (p : char -> bool) (s : pystr) : pystr :=
  match s with
  | c :: s' => if p c then drop_run p s' else s
  | [] => []
  end.

(** The hyphen that [-$] removes, found from the left. *)
Fixpoint strip_scan (s : pystr) : pystr :=
  match s with
  | [] => []
  | c :: s' =>
    if is_hyphen c
       && match s' with
          | [] => true
          | [d] => (d =? newline)%N
          | _ => false
          end
    then s' else c :: strip_scan s'
  end.

Definition hyphen_eol : regex := Cat (chr hyphen) Eol.

(** What a match does to the state: [m'] comes from [m] by consuming a
    prefix of the remaining text and moving the position by its length. *)
Definition extends (m m' : mstate) : Prop :=
  exists pre, rest m = pre ++ rest m' /\ pos m' = pos m + length pre.

(** ** The data model of the specification, read off decoded values *)

(** A character that UTF-8 can encode: no surrogate. *)
Definition scalar (c : char) : bool :=
  negb (Utf8.surrogate c) && (c <=? 1114111)%N.

(** The index record [{"index": {"_type": type, "_id": id}}]. *)
Definition index_fields (v : pyval) : option (pystr * pystr) :=
  match getitem v (u "index") with
  | Ok idx =>
    match getitem idx (u "_type"), getitem idx (u "_id") with
    | Ok (VStr ty), Ok (VStr id) => Some (ty, id)
    | _, _ => None
    end
  | Raise _ => None
  end.

Record content_fields : Type := ContentFields {
  namespace : Z;
  title : pystr;
  text : pystr;
  language : pystr
}.

(** The content record: an integer namespace, a title, a text that UTF-8
    can encode, a language. *)
Definition content_fields_of (v : pyval) : option content_fields :=
  match getitem v (u "namespace"), getitem v (u "title"),
        getitem v (u "text"), getitem v (u "language") with
  | Ok (VInt ns), Ok (VStr t), Ok (VStr x), Ok (VStr l) =>
    if forallb scalar x then Some (ContentFields ns t x l) else None
  | _, _, _, _ => None
  end.

(** Lines that come in pairs, each line valid JSON: the decoded pairs. *)
Fixpoint json_pairs (json_loads : bytes -> res pyval)
         (lines : list bytes) : option (list (pyval * pyval)) :=
  match lines with
  | [] => Some []
  | l1 :: l2 :: rest =>
    if is_empty l1 then None
    else
      match json_loads l1, json_loads l2, json_pairs json_loads rest with
      | Ok index, Ok content, Some pairs => Some ((index, content) :: pairs)
      | _, _, _ => None
      end
  | [_] => None
  end.

(** A well-formed stream: lines that come in pairs, an index record then a
    content record, each valid JSON. The result is the decoded pairs. *)
Fixpoint decode_stream (json_loads : bytes -> res pyval)
         (lines : list bytes) : option (list (pyval * pyval)) :=
  match lines with
  | [] => Some []
  | l1 :: l2 :: rest =>
    if is_empty l1 then None
    else
      match json_loads l1, json_loads l2 with
      | Ok index, Ok content =>
        match index_fields index, content_fields_of content,
              decode_stream json_loads rest with
        | Some _, Some _, Some pairs => Some ((index, content) :: pairs)
        | _, _, _ => None
        end
      | _, _ => None
      end
  | [_] => None
  end.


(** The filter on the fields. *)
Definition qualifying (doc_type : pystr) (c : content_fields) : bool :=
  pystr_eqb doc_type (u "page") && (namespace c =? 0)%Z.

(** The text that goes to the file. *)
Definition written_text (out_path : pystr) (text : pystr) : pystr :=
  if startswith (basename out_path) (u "fr") then clean_text text else text.

(** [--count] needs a terminal. *)
Definition terminal_ok (args : arguments) (columns : res Z) : bool :=
  negb (count_flag args) || match columns with Ok _ => true | Raise _ => false end.

Definition is_file_event (e : event) : bool :=
  match e with
  | FileOpen _ | FileWrite _ _ | FileClose _ => true
  | _ => false
  end.

Definition file_events (t : list event) : list event := filter is_file_event t.

(** The files that a trace leaves open, given those open before it. *)
Fixpoint remove_one (p : pystr) (l : list pystr) : list pystr :=
  match l with
  | [] => []
  | q :: l' => if pystr_eqb p q then l' else q :: remove_one p l'
  end.

Fixpoint open_files (opened : list pystr) (t : list event) : list pystr :=
  match t with
  | [] => opened
  | FileOpen p :: t' => open_files (p :: opened) t'
  | FileClose p :: t' => open_files (remove_one p opened) t'
  | _ :: t' => open_files opened t'
  end.

(** Whether the source is open after a trace, [before] telling whether it
    was open before it: standard input is, the file of a dump is not. *)
Fixpoint source_open (before : bool) (t : list event) : bool :=
  match t with
  | [] => before
  | SrcOpen _ :: t' => source_open true t'
  | SrcClose :: t' => source_open false t'
  | _ :: t' => source_open before t'
  end.

Definition is_src_close (e : event) : bool :=
  match e with
  | SrcClose => true
  | _ => false
  end.

(** A command after the events [t]. *)
Definition prepend {A} (t : list event) (m : M A) : M A :=
  (t ++ fst m, snd m).

(** The events of the pairs of a stream, the first of them processed with
    the counter at [count + 1]. *)
Fixpoint pairs_trace (lower : pystr -> pystr) (open_wb : pystr -> res unit)
         (columns : res Z)
         (out_path : pystr) (args : arguments) (count : Z)
         (pairs : list (pyval * pyval)) : list event :=
  match pairs with
  | [] => []
  | (index, content) :: pairs' =>
    fst (Extractor.process_pair lower open_wb columns out_path args (count + 1) index content)
    ++ pairs_trace lower open_wb columns out_path args (count + 1) pairs'
  end.


(** What the body of the loop does on a pair of records of the data model,
    by the fields: nothing for a record the filter rejects, three writes on
    standard output in stream mode, one file in file mode if it can be
    opened. *)
Definition expected_pair (lower : pystr -> pystr) (open_wb : pystr -> res unit)
           (columns : res Z)
           (out_path : pystr) (args : arguments) (count : Z)
           (doc_type : pystr) (c : content_fields) : M unit :=
  if qualifying doc_type c then
    if pystr_eqb out_path (u "-") then
      ([Stdout [newline]; Stdout (title c ++ [newline]);
        Stdout (text c ++ [newline])], Ok tt)
    else
      let f := path_join out_path (title_to_filename lower (title c)) in
      match open_wb f with
      | Raise e => ([], Raise e)
      | Ok _ =>
        match Utf8.encode (written_text out_path (text c)) with
        | Some b =>
          prepend [FileOpen f; FileWrite f b; FileClose f]
                  (Extractor.report columns args count f)
        | None => ([FileOpen f; FileClose f], Raise UnicodeEncodeError)
        end
      end
  else ([], Ok tt).


(** A command whose events satisfy [P]. *)
Definition keeps {A} (P : list event -> Prop) (m : M A) : Prop := P (fst m).

(** Three properties of traces: no [SrcClose] in it, the source is as open
    after it as before, the files open after it are those open before. *)
Definition never_closes (t : list event) : Prop :=
  forallb (fun e => negb (is_src_close e)) t = true.

Definition leaves_source (t : list event) : Prop :=
  forall before, source_open before t = before.

Definition leaves_files (t : list event) : Prop :=
  forall opened, open_files opened t = opened.

(** What [gzip.open] leaves in the trace. *)
Definition opening (input_file : pystr) : list event :=
  if pystr_eqb input_file (u "-") then [] else [SrcOpen input_file].

(** What the release of the source leaves in the trace. *)
Definition closing (input_file : pystr) : list event :=
  if pystr_eqb input_file (u "-") then [] else [SrcClose].

Definition is_ok {A} (r : res A) : bool :=
  match r with
  | Ok _ => true
  | Raise _ => false
  end.

(** The pairs are processed without an exception, the first of them with
    the counter at [count + 1]. *)
Fixpoint bodies_ok (lower : pystr -> pystr) (open_wb : pystr -> res unit)
         (columns : res Z) (out_path : pystr) (args : arguments) (count : Z)
         (pairs : list (pyval * pyval)) : bool :=
  match pairs with
  | [] => true
  | (index, content) :: pairs' =>
    is_ok (snd (Extractor.process_pair lower open_wb columns out_path args
                                       (count + 1) index content))
    && bodies_ok lower open_wb columns out_path args (count + 1) pairs'
  end.



(** ** Further notions for the properties of the scripts *)

(** [a] is [b] with some characters deleted. *)
Inductive subseq : pystr -> pystr -> Prop :=
| subseq_nil : subseq [] []
| subseq_skip x a b : subseq a b -> subseq a (x :: b)
| subseq_keep x a b : subseq a b -> subseq (x :: a) (x :: b).

(** The least number of characters a match of a pattern consumes. *)
Fixpoint min_len (r : regex) : nat :=
  match r with
  | Eps | Bol | Eol | Star _ _ => 0
  | One _ => 1
  | Cat r1 r2 => min_len r1 + min_len r2
  | Alt r1 r2 => Nat.min (min_len r1) (min_len r2)
  | Group _ r1 => min_len r1
  end.

(** A pattern that consumes characters of the class [q] only. *)
Fixpoint only (q : char -> bool) (r : regex) : Prop :=
  match r with
  | Eps | Bol | Eol => True
  | One p => forall c, p c = true -> q c = true
  | Cat r1 r2 | Alt r1 r2 => only q r1 /\ only q r2
  | Star _ r1 | Group _ r1 => only q r1
  end.

Definition consumes (q : char -> bool) (m m' : mstate) : Prop :=
  exists pre, rest m = pre ++ rest m' /\ pos m' = pos m + length pre
              /\ forallb q pre = true.

(** The name without lowercasing and extension. *)
Definition stem (title : pystr) : pystr :=
  strip_final_hyphen
    (replace_runs is_hyphen [hyphen] false
       (replace_runs is_blank_or_punctuation [hyphen] false title)).

(** No two hyphens in a row. *)
Fixpoint no_double_hyphen (s : pystr) : bool :=
  match s with
  | a :: ((b :: _) as s') => negb (is_hyphen a && is_hyphen b) && no_double_hyphen s'
  | _ => true
  end.

Definition starts_without_hyphen (s : pystr) : Prop :=
  match s with
  | x :: _ => is_hyphen x = false
  | [] => True
  end.

(** Titles that differ only in which separator stands where. *)
Fixpoint same_but_separators (t1 t2 : pystr) : bool :=
  match t1, t2 with
  | [], [] => true
  | a :: t1', b :: t2' =>
    ((a =? b)%N || (is_blank_or_punctuation a && is_blank_or_punctuation b))
    && same_but_separators t1' t2'
  | _, _ => false
  end.

(** The contents of the file [p] after the events [t], [before] being its
    contents before them ([None]: no such file). [open(p, "wb")] creates
    or truncates, a write appends. *)
Fixpoint file_content (t : list event) (p : pystr) (before : option bytes)
  : option bytes :=
  match t with
  | [] => before
  | FileOpen q :: t' =>
    file_content t' p (if pystr_eqb q p then Some EmptyString else before)
  | FileWrite q b :: t' =>
    file_content t' p
      (if pystr_eqb q p then option_map (fun old => append old b) before
       else before)
  | _ :: t' => file_content t' p before
  end.

Definition is_stdout (e : event) : bool :=
  match e with
  | Stdout _ => true
  | _ => false
  end.

Definition only_stdout (t : list event) : Prop := forallb is_stdout t = true.

(** The fields of a decoded pair of records of the data model. *)
Definition record_fields (pc : pyval * pyval) : option (pystr * content_fields) :=
  match index_fields (fst pc), content_fields_of (snd pc) with
  | Some (ty, _), Some c => Some (ty, c)
  | _, _ => None
  end.


(** The files of the records that pass the filter can be opened. *)
Definition files_open (lower : pystr -> pystr) (open_wb : pystr -> res unit)
           (out_path : pystr) (pairs : list (pyval * pyval)) : bool :=
  forallb (fun pc =>
             match record_fields pc with
             | Some (ty, c) =>
               negb (qualifying ty c)
               || is_ok (open_wb (path_join out_path
                                            (title_to_filename lower (title c))))
             | None => true
             end)
          pairs.

(** What a pair contributes to the files. *)
Definition file_unit (lower : pystr -> pystr) (out_path : pystr)
           (pc : pyval * pyval) : list event :=
  match record_fields pc with
  | Some (ty, c) =>
    if qualifying ty c then
      let f := path_join out_path (title_to_filename lower (title c)) in
      match Utf8.encode (written_text out_path (text c)) with
      | Some b => [FileOpen f; FileWrite f b; FileClose f]
      | None => [FileOpen f; FileClose f]
      end
    else []
  | None => []
  end.

(** The result of the loop of the older script, read off that of the
    newer one: the counter is forgotten. *)
Definition forget (m : M Z) : M unit :=
  (fst m, match snd m with Ok _ => Ok tt | Raise e => Raise e end).

Definition is_str (v : pyval) : bool :=
  match v with
  | VStr _ => true
  | _ => false
  end.

(** A pair that passes the filter, whatever its text is: the title and the
    value under [text]. *)
Definition page_fields (index content : pyval) : option (pystr * pyval) :=
  match index_fields index, getitem content (u "language"),
        getitem content (u "namespace"), getitem content (u "title"),
        getitem content (u "text") with
  | Some (ty, _), Ok _, Ok ns, Ok (VStr t), Ok v =>
    if pystr_eqb ty (u "page") && eq_zero ns then Some (t, v) else None
  | _, _, _, _, _ => None
  end.

(** ** Sample dumps *)

Definition index_line : bytes := line "{'index':{'_type':'page','_id':'1'}}".

Definition foo_line : bytes :=
  line "{'namespace':0,'title':'Foo','text':'Bar','language':'en'}".

Definition talk_line : bytes :=
  line "{'namespace':1,'title':'Foo','text':'Bar','language':'en'}".


(** A page without a language. *)
Definition bare_line : bytes :=
  line "{'namespace':0,'title':'Foo','text':'Bar'}".

Definition sample_dump : list bytes :=
  [index_line; foo_line; index_line; talk_line].

Definition sample_pairs : list (pyval * pyval) :=
  Eval vm_compute in
    match decode_stream Json.loads sample_dump with
    | Some pairs => pairs
    | None => []
    end.

Definition quiet_args : arguments := {| quiet := true; count_flag := false |}.

Definition count_args : arguments := {| quiet := true; count_flag := true |}.

Definition frwiki_dump_name : pystr :=
  u "frwiki-20150101-cirrussearch-content.json.gz".

Definition chapitre : pystr :=
  u "Chapitre 1: Début de la boite de navigation du chapitre fin de la boite de navigation du chapitre Contenu".

Definition chapitre_line : bytes :=
  line "{'namespace':0,'title':'Chapitre 1: Début de la boite de navigation du chapitre fin de la boite de navigation du chapitre Contenu','text':'Début de la boite de navigation du chapitre fin de la boite de navigation du chapitre Il était une fois','language':'fr'}".

Definition chapitre_file : pystr :=
  u "cirrus/frwiki/chapitre-1-début-de-la-boite-de-navigation-du-chapitre-fin-de-la-boite-de-navigation-du-chapitre-contenu.txt".

Definition frwiki_options : options :=
  {| input := frwiki_dump_name; output_dir := u "cirrus";
     opt_quiet := true; opt_count := false |}.

(** ** Properties of the matcher *)

Module ReFacts.

Lemma drop_run_length p s : length (drop_run p s) <= length s.
Proof.
  induction s as [|c s IH]; simpl; [lia|].
  destruct (p c); simpl; lia.
Qed.

Lemma search_ge r : forall s adv p b m',
    Re.search r adv p s = Some (b, m') -> p <= b.
Proof.
  induction s as [|c s IH]; intros adv p b m'; simpl.
  - destruct (first_match adv r (MState p [] [])); intros H; inversion H; lia.
  - destruct (first_match adv r (MState p (c :: s) [])).
    + intros H; inversion H; lia.
    + intros H. apply IH in H. lia.
Qed.

Lemma sub_loop_hit f r rep adv n s m' :
  first_match adv r (MState n s []) = Some m' ->
  sub_loop (S f) r rep adv n s
  = rep ++ sub_loop f r rep (pos m' =? n) (pos m') (rest m').
Proof.
  intros H. simpl. destruct s; simpl; rewrite H, Nat.sub_diag; reflexivity.
Qed.

Lemma sub_loop_skip f r rep adv n c s :
  first_match adv r (MState n (c :: s) []) = None ->
  sub_loop (S f) r rep adv n (c :: s)
  = c :: sub_loop (S f) r rep false (S n) s.
Proof.
  intros H. simpl. rewrite H.
  destruct (Re.search r false (S n) s) as [[b m']|] eqn:E; [|reflexivity].
  apply search_ge in E.
  replace (b - n) with (S (b - S n)) by lia. reflexivity.
Qed.

Lemma sub_loop_end f r rep adv n :
  first_match adv r (MState n [] []) = None ->
  sub_loop f r rep adv n [] = [].
Proof.
  intros H. destruct f; simpl; [reflexivity|]. rewrite H. reflexivity.
Qed.

(** Where nothing matches, [re.sub] returns its argument. *)
Lemma sub_no_match r rep s : matches r s = false -> Re.sub r rep s = s.
Proof.
  unfold matches, Re.sub. intros H.
  replace (2 * length s + 2) with (S (2 * length s + 1)) by lia.
  simpl sub_loop.
  destruct (Re.search r false 0 s); [discriminate|reflexivity].
Qed.

(** A greedy repetition of a class stops first after the whole run. *)
Lemma star_run_class p step :
  (forall m, step m = run (One p) m) ->
  forall f s n cs,
    length s <= f ->
    exists tl,
      star_run step true f (MState n s cs)
      = MState (n + run_length p s) (drop_run p s) cs :: tl.
Proof.
  intros Hstep.
  induction f as [|f IH]; intros s n cs Hlen.
  - destruct s; [|simpl in Hlen; lia]. simpl. rewrite Nat.add_0_r. eauto.
  - cbn [star_run]. rewrite Hstep.
    destruct s as [|c s]; simpl.
    + rewrite Nat.add_0_r. eauto.
    + destruct (p c) eqn:Hp; simpl.
      * replace (length s <? S (length s)) with true
          by (symmetry; apply Nat.ltb_lt; lia).
        destruct (IH s (S n) cs) as [tl Htl]; [simpl in Hlen; lia|].
        unfold advance; simpl. rewrite Htl. simpl.
        replace (n + S (run_length p s)) with (S (n + run_length p s)) by lia.
        eauto.
      * rewrite Nat.add_0_r. eauto.
Qed.

Lemma first_match_plus p n s :
  first_match false (plus true (One p)) (MState n s [])
  = match s with
    | c :: s' =>
      if p c then Some (MState (S n + run_length p s') (drop_run p s') [])
      else None
    | [] => None
    end.
Proof.
  unfold first_match, plus. destruct s as [|c s]; [reflexivity|].
  simpl. destruct (p c); [|reflexivity].
  simpl. rewrite app_nil_r.
  unfold advance; simpl.
  match goal with
  | |- context [star_run ?st true _ _] =>
    destruct (star_run_class p st (fun _ => eq_refl) (length s) s (S n) []
                             (le_n (length s))) as [tl Htl]
  end.
  rewrite Htl. reflexivity.
Qed.

Lemma replace_runs_in_run p rep s :
  replace_runs p rep true s = replace_runs p rep false (drop_run p s).
Proof.
  induction s as [|c s IH]; [reflexivity|].
  simpl. destruct (p c) eqn:Hp; [exact IH|]. simpl. rewrite Hp. reflexivity.
Qed.

Lemma sub_loop_plus p rep : forall k s f n,
    length s <= k -> length s < f ->
    sub_loop f (plus true (One p)) rep false n s = replace_runs p rep false s.
Proof.
  induction k as [|k IH]; intros s f n Hk Hf.
  - destruct s; [|simpl in Hk; lia].
    apply sub_loop_end. rewrite first_match_plus. reflexivity.
  - destruct s as [|c s].
    + apply sub_loop_end. rewrite first_match_plus. reflexivity.
    + destruct f as [|f]; [lia|]. simpl in Hk, Hf.
      pose proof (first_match_plus p n (c :: s)) as Hm. cbv beta iota in Hm.
      destruct (p c) eqn:Hp.
      * rewrite (sub_loop_hit f _ rep _ _ _ _ Hm). cbn [pos rest].
        replace (S n + run_length p s =? n) with false
          by (symmetry; apply Nat.eqb_neq; lia).
        pose proof (drop_run_length p s).
        rewrite IH by lia.
        simpl. rewrite Hp, replace_runs_in_run. reflexivity.
      * rewrite (sub_loop_skip f _ rep _ _ _ _ Hm).
        rewrite IH by lia. simpl. rewrite Hp. reflexivity.
Qed.

(** [re.sub(r"[...]+", rep, s)] replaces every maximal run of the class. *)
Lemma sub_plus p rep s :
  Re.sub (plus true (One p)) rep s = replace_runs p rep false s.
Proof.
  unfold Re.sub. apply (sub_loop_plus p rep (length s)); lia.
Qed.

Lemma replace_runs_ext p q rep :
  (forall c, p c = q c) ->
  forall s b, replace_runs p rep b s = replace_runs q rep b s.
Proof.
  intros H. induction s as [|c s IH]; intros b; [reflexivity|].
  simpl. rewrite H. destruct (q c), b; rewrite ?IH; reflexivity.
Qed.

Lemma first_match_hyphen_eol n s :
  first_match false hyphen_eol (MState n s [])
  = match s with
    | c :: s' =>
      if is_hyphen c
         && match s' with
            | [] => true
            | [d] => (d =? newline)%N
            | _ => false
            end
      then Some (MState (S n) s' []) else None
    | [] => None
    end.
Proof.
  unfold first_match, hyphen_eol, chr, is_hyphen.
  destruct s as [|c s]; [reflexivity|].
  cbn [run rest flat_map]. rewrite (N.eqb_sym hyphen c).
  destruct (c =? hyphen)%N; [|reflexivity].
  cbn -[N.eqb].
  destruct s as [|d [|e s]]; cbn -[N.eqb]; try reflexivity.
  unfold newline. destruct (d =? 10)%N; reflexivity.
Qed.

Lemma sub_loop_hyphen_eol : forall s f n,
    length s < f ->
    sub_loop f hyphen_eol [] false n s = strip_scan s.
Proof.
  induction s as [|c s IH]; intros f n Hf.
  - apply sub_loop_end. reflexivity.
  - destruct f as [|f]; [lia|]. simpl in Hf.
    pose proof (first_match_hyphen_eol n (c :: s)) as Hm. cbv beta iota in Hm.
    cbn [strip_scan].
    destruct (is_hyphen c && _) eqn:Hc.
    + rewrite (sub_loop_hit f _ [] _ _ _ _ Hm). cbn [pos rest app].
      apply andb_prop in Hc. destruct Hc as [_ Hc].
      destruct s as [|d [|e s]]; try discriminate.
      * apply sub_loop_end. reflexivity.
      * destruct f as [|f]; [simpl in Hf; lia|].
        assert (Hd : first_match (S n =? n) hyphen_eol (MState (S n) [d] []) = None).
        { unfold first_match, hyphen_eol, chr. simpl.
          apply N.eqb_eq in Hc. subst d. reflexivity. }
        rewrite (sub_loop_skip f _ [] _ _ _ _ Hd). reflexivity.
    + rewrite (sub_loop_skip f _ [] _ _ _ _ Hm). f_equal. apply IH. lia.
Qed.

Lemma strip_scan_hyphen s : strip_scan (s ++ [hyphen]) = s.
Proof.
  induction s as [|c s IH]; [reflexivity|].
  change ((c :: s) ++ [hyphen]) with (c :: (s ++ [hyphen])).
  cbn [strip_scan]. rewrite IH.
  destruct s as [|x s]; cbn.
  - rewrite andb_false_r. reflexivity.
  - destruct (s ++ [hyphen]) eqn:E; [destruct s; discriminate|].
    rewrite andb_false_r. reflexivity.
Qed.

Lemma strip_scan_hyphen_newline s :
  strip_scan (s ++ [hyphen; newline]) = s ++ [newline].
Proof.
  induction s as [|c s IH]; [reflexivity|].
  change ((c :: s) ++ [hyphen; newline]) with (c :: (s ++ [hyphen; newline])).
  cbn [strip_scan]. rewrite IH.
  destruct s as [|x s]; cbn.
  - rewrite andb_false_r. reflexivity.
  - destruct (s ++ [hyphen; newline]) eqn:E; [destruct s; discriminate|].
    rewrite andb_false_r. reflexivity.
Qed.

Lemma strip_scan_other : forall s,
    match rev s with
    | a :: r =>
      is_hyphen a = false
      /\ match r with
         | b :: _ => (a =? newline)%N && is_hyphen b = false
         | [] => True
         end
    | [] => True
    end ->
    strip_scan s = s.
Proof.
  induction s as [|c s IH]; [reflexivity|].
  intros H. cbn [strip_scan].
  destruct s as [|d [|e s]].
  - simpl in H. destruct H as [H _]. rewrite H. reflexivity.
  - simpl in H. destruct H as [Hd H].
    destruct (is_hyphen c) eqn:Hc; simpl.
    + rewrite andb_true_r in H. rewrite H, Hd. reflexivity.
    + rewrite Hd. reflexivity.
  - rewrite andb_false_r. f_equal. apply IH.
    remember (d :: e :: s) as t. simpl in H.
    destruct (rev t) as [|a r] eqn:Er.
    + exact I.
    + simpl in H. destruct H as [Ha H]. split; [exact Ha|].
      destruct r as [|b r]; [exact I|]. exact H.
Qed.

Lemma strip_scan_final s : strip_scan s = strip_final_hyphen s.
Proof.
  unfold strip_final_hyphen.
  destruct (rev s) as [|a r] eqn:Er.
  - apply strip_scan_other. rewrite Er. exact I.
  - assert (Hs : s = rev r ++ [a]).
    { rewrite <- (rev_involutive s), Er. reflexivity. }
    destruct (is_hyphen a) eqn:Ha.
    + apply N.eqb_eq in Ha. subst a s. apply strip_scan_hyphen.
    + destruct r as [|b r'].
      * apply strip_scan_other. rewrite Er. split; [exact Ha|exact I].
      * destruct ((a =? newline)%N && is_hyphen b) eqn:Hab.
        -- apply andb_prop in Hab. destruct Hab as [Hn Hb].
           apply N.eqb_eq in Hn, Hb. subst a b s. simpl.
           rewrite <- app_assoc. apply strip_scan_hyphen_newline.
        -- apply strip_scan_other. rewrite Er. split; [exact Ha|exact Hab].
Qed.

(** [re.sub(r"-$", "", s)]. *)
Lemma sub_hyphen_eol s : Re.sub hyphen_eol [] s = strip_final_hyphen s.
Proof.
  unfold Re.sub. rewrite sub_loop_hyphen_eol by lia. apply strip_scan_final.
Qed.

Lemma title_class_spec c :
  existsb (N.eqb c) title_class = is_blank_or_punctuation c.
Proof.
  unfold is_blank_or_punctuation, is_punctuation, title_class, punctuation.
  simpl. rewrite orb_assoc. reflexivity.
Qed.

Lemma chr_hyphen_spec c : N.eqb hyphen c = is_hyphen c.
Proof. apply N.eqb_sym. Qed.

(** *** Every match consumes a prefix of the remaining text *)

Lemma extends_refl m : extends m m.
Proof. exists []. simpl. split; [reflexivity|lia]. Qed.

Lemma extends_trans m1 m2 m3 : extends m1 m2 -> extends m2 m3 -> extends m1 m3.
Proof.
  intros [p1 [H1 P1]] [p2 [H2 P2]]. exists (p1 ++ p2).
  rewrite H1, H2, <- app_assoc, length_app. split; [reflexivity|lia].
Qed.

Lemma star_run_extends step g :
  (forall m m', In m' (step m) -> extends m m') ->
  forall f m m', In m' (star_run step g f m) -> extends m m'.
Proof.
  intros Hstep. induction f as [|f IH]; intros m m' Hin.
  - simpl in Hin. destruct Hin as [<-|[]]. apply extends_refl.
  - cbn [star_run] in Hin.
    assert (Hmore : forall x,
               In x (flat_map
                       (fun m1 => if length (rest m1) <? length (rest m)
                                  then star_run step g f m1 else [])
                       (step m)) -> extends m x).
    { intros x Hx. apply in_flat_map in Hx. destruct Hx as [m1 [H1 Hx]].
      destruct (length (rest m1) <? length (rest m)); [|destruct Hx].
      eapply extends_trans; [apply Hstep; exact H1|apply IH; exact Hx]. }
    destruct g.
    + apply in_app_or in Hin. destruct Hin as [Hin|[<-|[]]].
      * apply Hmore, Hin.
      * apply extends_refl.
    + destruct Hin as [<-|Hin]; [apply extends_refl|apply Hmore, Hin].
Qed.

Lemma run_extends r : forall m m', In m' (run r m) -> extends m m'.
Proof.
  induction r as [|p| | |r1 IH1 r2 IH2|r1 IH1 r2 IH2|g r1 IH1|n r1 IH1];
    intros m m' Hin; cbn [run] in Hin.
  - destruct Hin as [<-|[]]. apply extends_refl.
  - destruct (rest m) as [|c s'] eqn:E; [destruct Hin|].
    destruct (p c); [|destruct Hin]. destruct Hin as [<-|[]].
    exists [c]. simpl. rewrite E. split; [reflexivity|lia].
  - destruct (pos m =? 0); [|destruct Hin].
    destruct Hin as [<-|[]]. apply extends_refl.
  - destruct (rest m) as [|c [|d s']].
    + destruct Hin as [<-|[]]. apply extends_refl.
    + destruct (c =? 10)%N; [|destruct Hin].
      destruct Hin as [<-|[]]. apply extends_refl.
    + destruct Hin.
  - apply in_flat_map in Hin. destruct Hin as [m1 [H1 H2]].
    eapply extends_trans; [apply IH1; exact H1|apply IH2; exact H2].
  - apply in_app_or in Hin. destruct Hin as [Hin|Hin]; [apply IH1|apply IH2]; exact Hin.
  - eapply star_run_extends; [exact IH1|exact Hin].
  - apply in_map_iff in Hin. destruct Hin as [m1 [<- H1]].
    destruct (IH1 _ _ H1) as [pre [Hr Hp]]. exists pre. simpl. split; assumption.
Qed.

Lemma first_match_extends adv r m m' :
  first_match adv r m = Some m' ->
  extends m m' /\ (adv = true -> pos m < pos m').
Proof.
  unfold first_match. intros H. apply find_some in H. destruct H as [Hin Hb].
  split; [apply run_extends with r; exact Hin|].
  intros ->. simpl in Hb. apply Nat.ltb_lt in Hb. exact Hb.
Qed.

(** A match found by [search] from [p] on [s] starts at [b], after the
    prefix [pre], and covers [mid]. *)
Lemma search_spec r : forall s adv p b m',
    Re.search r adv p s = Some (b, m') ->
    exists pre mid,
      s = pre ++ mid ++ rest m' /\ b = p + length pre
      /\ pos m' = b + length mid
      /\ (adv = true -> pre = [] -> mid <> []).
Proof.
  induction s as [|c s IH]; intros adv p b m' H; cbn [Re.search] in H.
  - destruct (first_match adv r (MState p [] [])) as [m1|] eqn:E; [|discriminate].
    inversion H; subst. apply first_match_extends in E.
    destruct E as [[mid [Hr Hp]] Hadv]. simpl in Hr, Hp.
    exists [], mid. simpl. repeat split; try assumption; try lia.
    intros Ha _ ->. specialize (Hadv Ha). simpl in Hadv, Hp. lia.
  - destruct (first_match adv r (MState p (c :: s) [])) as [m1|] eqn:E.
    + inversion H; subst. apply first_match_extends in E.
      destruct E as [[mid [Hr Hp]] Hadv]. simpl in Hr, Hp.
      exists [], mid. simpl. repeat split; try assumption; try lia.
      intros Ha _ ->. specialize (Hadv Ha). simpl in Hadv, Hp. lia.
    + apply IH in H. destruct H as [pre [mid [Hs [Hb [Hp _]]]]].
      exists (c :: pre), mid. simpl. rewrite Hs.
      repeat split; try lia. discriminate.
Qed.

Lemma in_firstn {A} (x : A) n l : In x (firstn n l) -> In x l.
Proof.
  intros H. rewrite <- (firstn_skipn n l). apply in_or_app. left. exact H.
Qed.

(** [re.sub] makes its result of characters of the text and of the
    replacement. *)
Lemma sub_loop_in r rep x : forall f adv p s,
    In x (sub_loop f r rep adv p s) -> In x s \/ In x rep.
Proof.
  induction f as [|f IH]; intros adv p s H; cbn [sub_loop] in H.
  - left. exact H.
  - destruct (Re.search r adv p s) as [[b m']|] eqn:E; [|left; exact H].
    apply search_spec in E. destruct E as [pre [mid [Hs _]]].
    apply in_app_or in H. destruct H as [H|H].
    + left. apply in_firstn in H. exact H.
    + apply in_app_or in H. destruct H as [H|H]; [right; exact H|].
      apply IH in H. destruct H as [H|H]; [left|right; exact H].
      rewrite Hs. apply in_or_app. right. apply in_or_app. right. exact H.
Qed.

(** The bound on the rounds of [re.sub] is never what stops it: from
    [2 * length s + 2] on, more fuel changes nothing. *)
Lemma sub_loop_fuel r rep : forall f1 f2 (adv : bool) p s,
    2 * length s + (if adv then 1 else 2) <= f1 ->
    2 * length s + (if adv then 1 else 2) <= f2 ->
    sub_loop f1 r rep adv p s = sub_loop f2 r rep adv p s.
Proof.
  induction f1 as [|f1 IH]; intros f2 adv p s H1 H2.
  - destruct adv; lia.
  - destruct f2 as [|f2]; [destruct adv; lia|].
    cbn [sub_loop].
    destruct (Re.search r adv p s) as [[b m']|] eqn:E; [|reflexivity].
    apply search_spec in E.
    destruct E as [pre [mid [Hs [Hb [Hp Hadv]]]]].
    do 2 f_equal.
    assert (Hlen : length s = length pre + length mid + length (rest m')).
    { rewrite Hs, !length_app. lia. }
    destruct (pos m' =? b) eqn:Eb.
    + apply Nat.eqb_eq in Eb. destruct mid as [|x mid]; [|simpl in Hp; lia].
      destruct adv.
      * destruct pre as [|y pre]; [exfalso; apply (Hadv eq_refl eq_refl eq_refl)|].
        simpl in Hlen. apply IH; lia.
      * apply IH; lia.
    + apply Nat.eqb_neq in Eb. destruct mid as [|x mid]; [simpl in Hp; lia|].
      simpl in Hlen. apply IH; destruct adv; lia.
Qed.

Lemma sub_fuel r rep s f :
  2 * length s + 2 <= f -> sub_loop f r rep false 0 s = Re.sub r rep s.
Proof. intros H. unfold Re.sub. apply sub_loop_fuel; lia. Qed.

Lemma sub_forallb P r s :
  forallb P s = true -> forallb P (Re.sub r [] s) = true.
Proof.
  intros H. apply forallb_forall. intros x Hx.
  apply sub_loop_in in Hx. destruct Hx as [Hx|[]].
  rewrite forallb_forall in H. apply H, Hx.
Qed.

Lemma clean_text_forallb P s :
  forallb P s = true -> forallb P (clean_text s) = true.
Proof.
  intros H. unfold clean_text. cbv zeta. do 4 apply sub_forallb. exact H.
Qed.

(** *** A literal pattern *)

Lemma run_lit : forall w n s cs,
    run (lit w) (MState n s cs)
    = if startswith s w then [MState (n + length w) (skipn (length w) s) cs]
      else [].
Proof.
  induction w as [|c w IH]; intros n s cs.
  - destruct s; simpl; rewrite Nat.add_0_r; reflexivity.
  - cbn [lit run chr rest flat_map].
    destruct s as [|d s]; [reflexivity|].
    cbn [startswith]. destruct (c =? d)%N; [|reflexivity].
    unfold advance. cbn [flat_map pos caps andb]. rewrite app_nil_r, IH.
    destruct (startswith s w); [|reflexivity].
    cbn [length skipn]. replace (S n + length w) with (n + S (length w)) by lia.
    reflexivity.
Qed.

Lemma first_match_lit w n s :
  first_match false (lit w) (MState n s [])
  = if startswith s w then Some (MState (n + length w) (skipn (length w) s) [])
    else None.
Proof.
  unfold first_match. rewrite run_lit. destruct (startswith s w); reflexivity.
Qed.

Lemma remove_all_skip w : forall k s,
    remove_all w k s = remove_all w 0 (skipn k s).
Proof.
  induction k as [|k IH]; intros s; [reflexivity|].
  destruct s as [|c s]; [reflexivity|]. cbn [remove_all skipn]. apply IH.
Qed.

Lemma sub_loop_lit c w : forall k s f n,
    length s <= k -> length s < f ->
    sub_loop f (lit (c :: w)) [] false n s = remove_all (c :: w) 0 s.
Proof.
  induction k as [|k IH]; intros s f n Hk Hf.
  - destruct s; [|simpl in Hk; lia].
    apply sub_loop_end. rewrite first_match_lit. reflexivity.
  - destruct s as [|d s].
    + apply sub_loop_end. rewrite first_match_lit. reflexivity.
    + destruct f as [|f]; [lia|]. simpl in Hk, Hf.
      pose proof (first_match_lit (c :: w) n (d :: s)) as Hm.
      cbn [remove_all].
      destruct (startswith (d :: s) (c :: w)) eqn:Hsw.
      * rewrite (sub_loop_hit f _ [] _ _ _ _ Hm). cbn [pos rest app length skipn].
        replace (n + S (length w) =? n) with false
          by (symmetry; apply Nat.eqb_neq; lia).
        pose proof (length_skipn (length w) s) as Hl.
        rewrite IH by lia.
        rewrite Nat.sub_succ, Nat.sub_0_r. symmetry. apply remove_all_skip.
      * rewrite (sub_loop_skip f _ [] _ _ _ _ Hm). rewrite IH by lia. reflexivity.
Qed.

(** [re.sub] of a phrase by nothing removes every occurrence of it. *)
Lemma sub_lit c w s : Re.sub (lit (c :: w)) [] s = remove_all (c :: w) 0 s.
Proof.
  unfold Re.sub. apply (sub_loop_lit c w (length s)); lia.
Qed.

End ReFacts.

Import ReFacts.

(** ** The filename sanitizer *)

(** C3, the claim as worded: a tab is whitespace, and the reference
    algorithm of the specification turns it into a hyphen; the code keeps
    it, so the two differ on the title made of [a], a tab and [b]. *)
Lemma title_to_filename_keeps_tab :
  title_to_filename py_lower (u "a" ++ [tab] ++ u "b")
  <> sanitize_spec py_lower (u "a" ++ [tab] ++ u "b").
Proof. vm_compute. discriminate. Qed.

(** C3, amended: for every title and whatever [str.lower] does,
    [title_to_filename] replaces every maximal run of spaces, no-break
    spaces and the punctuation / , ? ! ( ) ; : ' [ ] by one hyphen,
    collapses runs of hyphens, removes the hyphen that ends the text (or
    stands before a newline that ends it), lowercases and appends [.txt];
    the empty title gives [.txt]. *)
Theorem title_to_filename_sanitize_ref :
  forall (lower : pystr -> pystr) (title : pystr),
    title_to_filename lower title = sanitize_ref lower title
    /\ title_to_filename py_lower [] = u ".txt".
Proof.
  intros lower title. split; [|reflexivity].
  unfold title_to_filename, sanitize_ref, set, chr.
  change (u "-") with [hyphen].
  rewrite !sub_plus.
  change (Cat (One (N.eqb hyphen)) Eol) with hyphen_eol.
  rewrite sub_hyphen_eol.
  rewrite (replace_runs_ext _ _ [hyphen] title_class_spec).
  rewrite (replace_runs_ext _ _ [hyphen] chr_hyphen_spec).
  reflexivity.
Qed.

(** C4, the claim as worded: the second vector does not give
    [lead-trail.txt]; the leading blanks leave a hyphen in front. *)
Lemma title_to_filename_lead_trail_differs :
  title_to_filename py_lower (u "  lead--trail-  ") <> u "lead-trail.txt".
Proof. vm_compute. discriminate. Qed.

(** C4, amended: the function gives one name per title, [A/B, C!] gives
    [a-b-c.txt], and [  lead--trail-  ] gives [-lead-trail.txt]. *)
Theorem title_to_filename_vectors :
  (forall lower t, title_to_filename lower t = title_to_filename lower t)
  /\ title_to_filename py_lower (u "A/B, C!") = u "a-b-c.txt"
  /\ title_to_filename py_lower (u "  lead--trail-  ") = u "-lead-trail.txt".
Proof. repeat split; vm_compute; reflexivity. Qed.

(** ** The text normalizer *)

(** C5, the claim as worded: with the rules in the order of the
    specification the trailing [Suivant >] that the navigation phrase hid is
    removed as well; [clean_text] keeps it. *)
Lemma clean_text_differs_from_spec_order :
  clean_text
    (u "X Suivant >Début de la boite de navigation du chapitre fin de la boite de navigation du chapitre ")
  <> clean_text_spec_order
    (u "X Suivant >Début de la boite de navigation du chapitre fin de la boite de navigation du chapitre ").
Proof. vm_compute. discriminate. Qed.

(** C5, amended: [clean_text] applies the four rules one after the other,
    each to the result of the one before and each replacing its matches by
    the empty string, in the order suivant, précédent, navigation,
    limitations; the navigation rule removes every occurrence of the
    phrase. *)
Theorem clean_text_rule_order :
  forall text,
    clean_text text
    = fold_left (fun t r => Re.sub r [] t)
                [suivant REGICES_FR; precedent REGICES_FR;
                 navigation REGICES_FR; limitations REGICES_FR]
                text
    /\ Re.sub (navigation REGICES_FR) [] text
       = remove_all navigation_phrase 0 text.
Proof.
  intros text. split; [reflexivity|].
  change (navigation REGICES_FR) with (lit navigation_phrase).
  assert (H : exists c w, navigation_phrase = c :: w) by (vm_compute; eauto).
  destruct H as [c [w E]]. rewrite E. apply sub_lit.
Qed.

Lemma firstn_length_app {A} (a b : list A) : firstn (length a) (a ++ b) = a.
Proof.
  induction a as [|x a IH]; [destruct b; reflexivity|]. simpl. rewrite IH. reflexivity.
Qed.

Lemma subseq_refl s : subseq s s.
Proof. induction s; [apply subseq_nil|apply subseq_keep; assumption]. Qed.

Lemma subseq_trans : forall c a b, subseq a b -> subseq b c -> subseq a c.
Proof.
  induction c as [|x c IH]; intros a b Hab Hbc.
  - inversion Hbc; subst. exact Hab.
  - inversion Hbc; subst.
    + apply subseq_skip. eapply IH; eassumption.
    + inversion Hab; subst.
      * apply subseq_skip. eapply IH; eassumption.
      * apply subseq_keep. eapply IH; eassumption.
Qed.

Lemma subseq_app_keep pre a b : subseq a b -> subseq (pre ++ a) (pre ++ b).
Proof.
  intros H. induction pre; [exact H|]. simpl. apply subseq_keep. assumption.
Qed.

Lemma subseq_app_skip mid a b : subseq a b -> subseq a (mid ++ b).
Proof.
  intros H. induction mid; [exact H|]. simpl. apply subseq_skip. assumption.
Qed.

Lemma subseq_length a b : subseq a b -> length a <= length b.
Proof. induction 1; simpl; lia. Qed.

(** [re.sub] by the empty string deletes characters and does nothing
    else. *)
Lemma sub_loop_subseq r : forall f adv p s, subseq (sub_loop f r [] adv p s) s.
Proof.
  induction f as [|f IH]; intros adv p s; cbn [sub_loop]; [apply subseq_refl|].
  destruct (Re.search r adv p s) as [[b m']|] eqn:E; [|apply subseq_refl].
  apply search_spec in E. destruct E as [pre [mid [Hs [Hb _]]]].
  replace (b - p) with (length pre) by lia.
  subst s. rewrite firstn_length_app. cbn [app].
  apply subseq_app_keep, subseq_app_skip, IH.
Qed.










(** ** Properties of the commands *)

Lemma bind_ret_l {A B} (a : A) (k : A -> M B) : bind ([], Ok a) k = k a.
Proof. unfold bind. destruct (k a). reflexivity. Qed.

Lemma bind_ret {A B} (a : A) (k : A -> M B) : bind (ret a) k = k a.
Proof. apply bind_ret_l. Qed.

Lemma bind_lift_ok {A B} (a : A) (k : A -> M B) : bind (lift (Ok a)) k = k a.
Proof. apply bind_ret_l. Qed.

Lemma bind_ok {A B} (m : M A) (a : A) (k : A -> M B) :
  snd m = Ok a -> bind m k = prepend (fst m) (k a).
Proof.
  destruct m as [t r]. simpl. intros ->. unfold bind, prepend.
  destruct (k a). reflexivity.
Qed.

Lemma bind_raise {A B} (m : M A) (e : exn) (k : A -> M B) :
  snd m = Raise e -> bind m k = (fst m, Raise e).
Proof. destruct m as [t r]. simpl. intros ->. reflexivity. Qed.

Lemma prepend_nil {A} (m : M A) : prepend [] m = m.
Proof. destruct m. reflexivity. Qed.

Lemma prepend_prepend {A} t1 t2 (m : M A) :
  prepend t1 (prepend t2 m) = prepend (t1 ++ t2) m.
Proof. unfold prepend. simpl. rewrite app_assoc. reflexivity. Qed.

Lemma index_fields_inv v ty id :
  index_fields v = Some (ty, id) ->
  exists idx, getitem v (u "index") = Ok idx
              /\ getitem idx (u "_type") = Ok (VStr ty)
              /\ getitem idx (u "_id") = Ok (VStr id).
Proof.
  unfold index_fields. intros H.
  destruct (getitem v (u "index")) as [idx|]; [|discriminate].
  exists idx. split; [reflexivity|].
  destruct (getitem idx (u "_type")) as [[]|]; try discriminate.
  destruct (getitem idx (u "_id")) as [[]|]; try discriminate.
  inversion H. split; reflexivity.
Qed.

Lemma content_fields_inv v c :
  content_fields_of v = Some c ->
  getitem v (u "namespace") = Ok (VInt (namespace c))
  /\ getitem v (u "title") = Ok (VStr (title c))
  /\ getitem v (u "text") = Ok (VStr (text c))
  /\ getitem v (u "language") = Ok (VStr (language c))
  /\ forallb scalar (text c) = true.
Proof.
  unfold content_fields_of. intros H.
  destruct (getitem v (u "namespace")) as [[]|]; try discriminate.
  destruct (getitem v (u "title")) as [[]|]; try discriminate.
  destruct (getitem v (u "text")) as [[]|]; try discriminate.
  destruct (getitem v (u "language")) as [[]|]; try discriminate.
  destruct (forallb scalar s0) eqn:E; [|discriminate].
  inversion H. simpl. repeat split; try reflexivity. exact E.
Qed.

Lemma encode_char_scalar c : scalar c = true -> exists bs, Utf8.encode_char c = Some bs.
Proof.
  unfold scalar, Utf8.encode_char. intros H.
  apply andb_prop in H. destruct H as [Hs Hm].
  apply negb_true_iff in Hs. rewrite Hs, Hm.
  destruct (c <? 128)%N; [eauto|].
  destruct (c <? 2048)%N; [eauto|].
  destruct (c <? 65536)%N; eauto.
Qed.

Lemma encode_scalar s : forallb scalar s = true -> exists b, Utf8.encode s = Some b.
Proof.
  unfold Utf8.encode. intros H.
  assert (Ho : exists l, Utf8.encode_octets s = Some l).
  { induction s as [|c s IH]; [simpl; eauto|].
    simpl in H. apply andb_prop in H. destruct H as [Hc Hs].
    destruct (encode_char_scalar c Hc) as [bs Hbs].
    destruct (IH Hs) as [l Hl]. simpl. rewrite Hbs, Hl. eauto. }
  destruct Ho as [l Hl]. rewrite Hl. simpl. eauto.
Qed.

Lemma written_text_scalar out_path x :
  forallb scalar x = true -> forallb scalar (written_text out_path x) = true.
Proof.
  intros H. unfold written_text.
  destruct (startswith (basename out_path) (u "fr")); [|exact H].
  apply clean_text_forallb, H.
Qed.

(** Run the binds whose command is known to return. *)
Ltac run_binds :=
  repeat progress (rewrite ?bind_lift_ok, ?bind_ret, ?bind_ret_l;
                   cbn [as_str eq_str eq_zero encode_value andb]).

(** The body of the loop on records of the data model. *)
Lemma process_pair_expected lower open_wb columns out_path args count index content ty id c :
  index_fields index = Some (ty, id) ->
  content_fields_of content = Some c ->
  Extractor.process_pair lower open_wb columns out_path args count index content
  = expected_pair lower open_wb columns out_path args count ty c.
Proof.
  intros Hi Hc.
  destruct (index_fields_inv _ _ _ Hi) as [idx [H1 [H2 H3]]].
  destruct (content_fields_inv _ _ Hc) as [Hn [Ht [Hx [Hl _]]]].
  unfold Extractor.process_pair, expected_pair, qualifying, qualifies.
  unfold emit_stream, Extractor.emit_file, written_text.
  rewrite H1, Hl, Hn, Ht, Hx. run_binds. rewrite H2. run_binds.
  rewrite H3. run_binds.
  destruct (pystr_eqb ty (u "page")); run_binds; [|reflexivity].
  destruct (namespace c =? 0)%Z; [|reflexivity].
  destruct (pystr_eqb out_path (u "-")); [reflexivity|].
  destruct (startswith (basename out_path) (u "fr")); run_binds;
    (destruct (open_wb _) as [[]|e]; [|reflexivity]); cbn [with_open].
  - destruct (Utf8.encode (clean_text (text c))); [|reflexivity].
    unfold prepend. destruct (Extractor.report _ _ _ _). reflexivity.
  - destruct (Utf8.encode (text c)); [|reflexivity].
    unfold prepend. destruct (Extractor.report _ _ _ _). reflexivity.
Qed.


Lemma report_ok columns args count f :
  terminal_ok args columns = true ->
  snd (Extractor.report columns args count f) = Ok tt.
Proof.
  unfold terminal_ok, Extractor.report, Extractor.progress.
  destruct args as [q cf]. cbn [quiet count_flag].
  destruct cf, columns as [w|e], q; cbn; intros H;
    try discriminate; reflexivity.
Qed.

Lemma is_ok_unit (r : res unit) : is_ok r = true -> r = Ok tt.
Proof. destruct r as [[]|e]; [reflexivity|discriminate]. Qed.

(** A record of the data model is processed without an exception when its
    file can be opened and [--count] has a terminal. *)
Lemma expected_pair_ok lower open_wb columns out_path args count ty c :
  terminal_ok args columns = true ->
  forallb scalar (text c) = true ->
  (qualifying ty c = true -> pystr_eqb out_path (u "-") = false ->
   is_ok (open_wb (path_join out_path (title_to_filename lower (title c)))) = true) ->
  snd (expected_pair lower open_wb columns out_path args count ty c) = Ok tt.
Proof.
  intros Hterm Hs Ho. unfold expected_pair.
  destruct (qualifying ty c); [|reflexivity].
  destruct (pystr_eqb out_path (u "-")); [reflexivity|].
  rewrite (is_ok_unit _ (Ho eq_refl eq_refl)).
  destruct (encode_scalar _ (written_text_scalar out_path _ Hs)) as [b Hb].
  rewrite Hb. cbn [prepend snd]. apply report_ok, Hterm.
Qed.


Lemma json_pairs_inv json_loads lines pairs :
  json_pairs json_loads lines = Some pairs ->
  (lines = [] /\ pairs = [])
  \/ exists l1 l2 rest index content ps,
      lines = l1 :: l2 :: rest /\ pairs = (index, content) :: ps
      /\ is_empty l1 = false
      /\ json_loads l1 = Ok index /\ json_loads l2 = Ok content
      /\ json_pairs json_loads rest = Some ps.
Proof.
  destruct lines as [|l1 [|l2 rest]]; cbn [json_pairs]; intros H.
  - left. inversion H. split; reflexivity.
  - discriminate.
  - right.
    destruct (is_empty l1) eqn:E1; [discriminate|].
    destruct (json_loads l1) as [index|] eqn:J1; [|discriminate].
    destruct (json_loads l2) as [content|] eqn:J2; [|discriminate].
    destruct (json_pairs json_loads rest) as [ps|] eqn:Hd; [|discriminate].
    inversion H. exists l1, l2, rest, index, content, ps.
    repeat split; assumption.
Qed.

Lemma json_pairs_length json_loads : forall pairs lines,
    json_pairs json_loads lines = Some pairs ->
    length lines = 2 * length pairs.
Proof.
  induction pairs as [|pc ps IH]; intros lines H;
    apply json_pairs_inv in H;
    destruct H as [[-> Hp]|[l1 [l2 [rest [index [content [ps' H]]]]]]].
  - reflexivity.
  - destruct H as [_ [H _]]. discriminate.
  - discriminate.
  - destruct H as [-> [Hp [_ [_ [_ Hd]]]]]. inversion Hp; subst.
    simpl. rewrite (IH _ Hd). lia.
Qed.

Lemma decode_stream_inv json_loads lines pairs :
  decode_stream json_loads lines = Some pairs ->
  (lines = [] /\ pairs = [])
  \/ exists l1 l2 rest index content ps ty id c,
      lines = l1 :: l2 :: rest /\ pairs = (index, content) :: ps
      /\ is_empty l1 = false
      /\ json_loads l1 = Ok index /\ json_loads l2 = Ok content
      /\ index_fields index = Some (ty, id)
      /\ content_fields_of content = Some c
      /\ decode_stream json_loads rest = Some ps.
Proof.
  destruct lines as [|l1 [|l2 rest]]; cbn [decode_stream]; intros H.
  - left. inversion H. split; reflexivity.
  - discriminate.
  - right.
    destruct (is_empty l1) eqn:E1; [discriminate|].
    destruct (json_loads l1) as [index|] eqn:J1; [|discriminate].
    destruct (json_loads l2) as [content|] eqn:J2; [|discriminate].
    destruct (index_fields index) as [[ty id]|] eqn:Hi; [|discriminate].
    destruct (content_fields_of content) as [c|] eqn:Hc; [|discriminate].
    destruct (decode_stream json_loads rest) as [ps|] eqn:Hd; [|discriminate].
    inversion H. exists l1, l2, rest, index, content, ps, ty, id, c.
    repeat split; assumption.
Qed.

(** A well-formed stream is a stream of pairs of JSON lines. *)
Lemma decode_stream_json_pairs json_loads : forall pairs lines,
    decode_stream json_loads lines = Some pairs ->
    json_pairs json_loads lines = Some pairs.
Proof.
  induction pairs as [|pc ps IH]; intros lines H;
    apply decode_stream_inv in H;
    destruct H as [[-> Hp]|[l1 [l2 [rest [index [content [ps' [ty [id [c H]]]]]]]]]].
  - reflexivity.
  - destruct H as [_ [H _]]. discriminate.
  - discriminate.
  - destruct H as [-> [Hp [E1 [J1 [J2 [_ [_ Hd]]]]]]]. inversion Hp; subst.
    cbn [json_pairs]. rewrite E1, J1, J2, (IH _ Hd). reflexivity.
Qed.

Lemma decode_stream_length json_loads pairs lines :
  decode_stream json_loads lines = Some pairs ->
  length lines = 2 * length pairs.
Proof.
  intros H. apply (json_pairs_length json_loads), decode_stream_json_pairs, H.
Qed.

(** The records of a well-formed stream are processed without an
    exception when their files can be opened and [--count] has a
    terminal. *)
Lemma files_open_cons lower open_wb out_path index content ty id c ps :
  index_fields index = Some (ty, id) ->
  content_fields_of content = Some c ->
  files_open lower open_wb out_path ((index, content) :: ps) = true ->
  (qualifying ty c = true ->
   is_ok (open_wb (path_join out_path (title_to_filename lower (title c)))) = true)
  /\ files_open lower open_wb out_path ps = true.
Proof.
  intros Hi Hc Ho. cbn [files_open forallb] in Ho.
  apply andb_prop in Ho. destruct Ho as [Ho1 Ho2].
  unfold record_fields in Ho1. cbn [fst snd] in Ho1. rewrite Hi, Hc in Ho1.
  split; [|exact Ho2]. intros Hq. rewrite Hq in Ho1. exact Ho1.
Qed.

Lemma decoded_bodies_ok json_loads lower open_wb columns out_path args :
  terminal_ok args columns = true ->
  forall pairs lines count,
    decode_stream json_loads lines = Some pairs ->
    (pystr_eqb out_path (u "-") = false ->
     files_open lower open_wb out_path pairs = true) ->
    bodies_ok lower open_wb columns out_path args count pairs = true.
Proof.
  intros Hterm.
  induction pairs as [|pc ps IH]; intros lines count H Ho;
    apply decode_stream_inv in H;
    destruct H as [[-> Hp]|[l1 [l2 [rest [index [content [ps' [ty [id [c H]]]]]]]]]].
  - reflexivity.
  - destruct H as [_ [H _]]. discriminate.
  - discriminate.
  - destruct H as [-> [Hp [E1 [J1 [J2 [Hi [Hc Hd]]]]]]]. injection Hp as -> ->.
    cbn [bodies_ok].
    rewrite (IH _ _ Hd), andb_true_r
      by (intros Hp; apply (files_open_cons _ _ _ _ _ _ _ _ _ Hi Hc (Ho Hp))).
    rewrite (process_pair_expected _ _ _ _ _ _ _ _ _ _ _ Hi Hc).
    pose proof (proj2 (proj2 (proj2 (proj2 (content_fields_inv _ _ Hc))))) as Hs.
    rewrite (expected_pair_ok lower open_wb columns out_path args (count + 1) ty c
                              Hterm Hs); [reflexivity|].
    intros Hq Hp. apply (files_open_cons _ _ _ _ _ _ _ _ _ Hi Hc (Ho Hp)), Hq.
Qed.


(** The loop on a stream of pairs followed by [todo]: as long as no pair
    raises, the pairs are processed one after the other, with the counter
    one higher each time, and the loop goes on with [todo]. *)
Lemma read_loop_pairs json_loads lower open_wb columns out_path args :
  forall pairs lines todo count,
    json_pairs json_loads lines = Some pairs ->
    bodies_ok lower open_wb columns out_path args count pairs = true ->
    Extractor.read_loop json_loads lower open_wb columns out_path args (lines ++ todo) count
    = prepend (pairs_trace lower open_wb columns out_path args count pairs)
              (Extractor.read_loop json_loads lower open_wb columns out_path args todo
                                   (count + Z.of_nat (length pairs))).
Proof.
  induction pairs as [|pc ps IH]; intros lines todo count H Hb;
    apply json_pairs_inv in H;
    destruct H as [[-> Hp]|[l1 [l2 [rest [index [content [ps' H]]]]]]].
  - cbn [app pairs_trace length Z.of_nat]. rewrite Z.add_0_r, prepend_nil. reflexivity.
  - destruct H as [_ [H _]]. discriminate.
  - discriminate.
  - destruct H as [-> [Hp [E1 [J1 [J2 Hd]]]]]. injection Hp as -> ->.
    cbn [bodies_ok] in Hb. apply andb_prop in Hb. destruct Hb as [Hb1 Hb2].
    cbn [app Extractor.read_loop]. rewrite E1. unfold loads.
    rewrite J1, J2. run_binds.
    rewrite (bind_ok _ tt) by (apply is_ok_unit, Hb1).
    rewrite (IH _ todo _ Hd Hb2), prepend_prepend. cbn [pairs_trace length].
    replace (count + 1 + Z.of_nat (length ps'))%Z
      with (count + Z.of_nat (S (length ps')))%Z by lia.
    reflexivity.
Qed.




(** One turn of the loop: the counter is raised before the lines are read,
    the pair is processed with the raised counter, and the next turn starts
    from it. *)
Lemma read_loop_step json_loads lower open_wb columns out_path args l1 l2 rest n :
  is_empty l1 = false ->
  Extractor.read_loop json_loads lower open_wb columns out_path args
                      (l1 :: l2 :: rest) n
  = (index <- loads json_loads l1 ;;
     content <- loads json_loads l2 ;;
     Extractor.process_pair lower open_wb columns out_path args (n + 1)
                            index content ;;;
     Extractor.read_loop json_loads lower open_wb columns out_path args
                         rest (n + 1)).
Proof. intros E1. cbn [Extractor.read_loop]. rewrite E1. reflexivity. Qed.

Lemma snd_bind_ok {A B} (m : M A) (k : A -> M B) (b : B) :
  snd (bind m k) = Ok b -> exists a, snd m = Ok a /\ snd (k a) = Ok b.
Proof.
  destruct m as [t [a|e]]; simpl; [|discriminate].
  destruct (k a) as [t' r] eqn:E. simpl. intros ->. exists a.
  split; [reflexivity|]. rewrite E. reflexivity.
Qed.

(** When the loop returns on lines none of which is empty, it has read
    them two by two, and the counter is one more than the number of
    pairs. *)
Lemma read_loop_returns json_loads lower open_wb columns out_path args e0 :
  json_loads EmptyString = Raise e0 ->
  forall k lines n c,
    length lines <= k ->
    forallb (fun l => negb (is_empty l)) lines = true ->
    snd (Extractor.read_loop json_loads lower open_wb columns out_path args lines n)
    = Ok c ->
    Nat.even (length lines) = true
    /\ c = (n + Z.of_nat (Nat.div2 (length lines)) + 1)%Z.
Proof.
  intros He. induction k as [|k IH]; intros lines n c Hk Hne Hc.
  - destruct lines; [|simpl in Hk; lia]. cbn in Hc. inversion Hc.
    split; [reflexivity|]. cbn. lia.
  - destruct lines as [|l1 [|l2 rest]].
    + cbn in Hc. inversion Hc. split; [reflexivity|]. cbn. lia.
    + exfalso. cbn [forallb] in Hne. apply andb_prop in Hne. destruct Hne as [E1 _].
      apply negb_true_iff in E1.
      cbn [Extractor.read_loop] in Hc. rewrite E1 in Hc. unfold loads in Hc.
      rewrite He in Hc.
      destruct (json_loads l1); cbn in Hc; discriminate.
    + cbn [forallb] in Hne. apply andb_prop in Hne. destruct Hne as [E1 Hne].
      apply andb_prop in Hne. destruct Hne as [_ Hne].
      apply negb_true_iff in E1.
      rewrite (read_loop_step _ _ _ _ _ _ _ _ _ _ E1) in Hc.
      apply snd_bind_ok in Hc. destruct Hc as [index [_ Hc]].
      apply snd_bind_ok in Hc. destruct Hc as [content [_ Hc]].
      apply snd_bind_ok in Hc. destruct Hc as [[] [_ Hc]].
      destruct (IH rest (n + 1)%Z c ltac:(simpl in Hk; lia) Hne Hc) as [Hev Hcount].
      split; [exact Hev|]. cbn [length Nat.div2]. lia.
Qed.

(** [process_dump] is the opening of the source, then the loop, and when the
    loop ends the release of the source and the return of [None]. *)
Lemma process_dump_unfold json_loads lower open_wb columns input_file out_path args lines :
  Extractor.process_dump json_loads lower open_wb columns input_file out_path args lines
  = (opening input_file
     ++ fst (Extractor.read_loop json_loads lower open_wb columns out_path args lines 0)
     ++ match snd (Extractor.read_loop json_loads lower open_wb columns out_path
                                       args lines 0) with
        | Ok _ => closing input_file
        | Raise _ => []
        end,
     match snd (Extractor.read_loop json_loads lower open_wb columns out_path args lines 0) with
     | Ok _ => Ok VNone
     | Raise e => Raise e
     end).
Proof.
  unfold Extractor.process_dump, opening, closing, release_source.
  destruct (Extractor.read_loop json_loads lower open_wb columns out_path args lines 0)
    as [t [c|e]];
    destruct (pystr_eqb input_file (u "-")); cbn; rewrite ?app_nil_r; reflexivity.
Qed.

Lemma process_dump_legacy_unfold json_loads lower open_wb input_file out_path quiet lines :
  Extract.process_dump json_loads lower open_wb input_file out_path quiet lines
  = (opening input_file
     ++ fst (Extract.read_loop json_loads lower open_wb out_path quiet lines)
     ++ match snd (Extract.read_loop json_loads lower open_wb out_path quiet lines) with
        | Ok _ => closing input_file
        | Raise _ => []
        end,
     match snd (Extract.read_loop json_loads lower open_wb out_path quiet lines) with
     | Ok _ => Ok VNone
     | Raise e => Raise e
     end).
Proof.
  unfold Extract.process_dump, opening, closing, release_source.
  destruct (Extract.read_loop json_loads lower open_wb out_path quiet lines)
    as [t [c|e]];
    destruct (pystr_eqb input_file (u "-")); cbn; rewrite ?app_nil_r; reflexivity.
Qed.

(** *** Properties of traces that every command of the program keeps *)

Section TraceInvariant.

Variable P : list event -> Prop.
Hypothesis P_nil : P [].
Hypothesis P_app : forall t1 t2, P t1 -> P t2 -> P (t1 ++ t2).
Hypothesis P_stdout : forall s, P [Stdout s].
Hypothesis P_write : forall p b, P [FileWrite p b].
Hypothesis P_with_open : forall p t, P t -> P (FileOpen p :: t ++ [FileClose p]).

Lemma keeps_ret {A} (a : A) : keeps P (ret a).
Proof. exact P_nil. Qed.

Lemma keeps_raise {A} e : keeps P (@raise A e).
Proof. exact P_nil. Qed.

Lemma keeps_lift {A} (r : res A) : keeps P (lift r).
Proof. exact P_nil. Qed.

Lemma keeps_stdout s : keeps P (emit (Stdout s)).
Proof. apply P_stdout. Qed.

Lemma keeps_write p b : keeps P (emit (FileWrite p b)).
Proof. apply P_write. Qed.

Lemma keeps_bind {A B} (m : M A) (k : A -> M B) :
  keeps P m -> (forall a, keeps P (k a)) -> keeps P (bind m k).
Proof.
  unfold keeps. destruct m as [t [a|e]]; simpl; intros Hm Hk; [|exact Hm].
  specialize (Hk a). destruct (k a) as [t' r]. simpl in *. apply P_app; assumption.
Qed.

Lemma keeps_with_open {A} opened p (body : M A) :
  keeps P body -> keeps P (with_open opened p body).
Proof.
  unfold keeps, with_open. destruct opened; [|intros _; exact P_nil].
  destruct body as [t r]. simpl. apply P_with_open.
Qed.

Ltac keeps_step :=
  first
    [ apply keeps_ret | apply keeps_raise | apply keeps_lift
    | apply keeps_stdout | apply keeps_write
    | apply keeps_with_open
    | apply keeps_bind; [|intros ?]
    | match goal with |- keeps _ (if ?b then _ else _) => destruct b end
    | match goal with |- keeps _ (match ?x with _ => _ end) => destruct x end ].

Lemma keeps_print a e : keeps P (print a e).
Proof. unfold print. repeat keeps_step. Qed.

Lemma keeps_loads json_loads l : keeps P (loads json_loads l).
Proof. unfold loads. repeat keeps_step. Qed.

Lemma keeps_qualifies doc_type content : keeps P (qualifies doc_type content).
Proof. unfold qualifies. repeat keeps_step. Qed.

Lemma keeps_emit_stream content : keeps P (emit_stream content).
Proof. unfold emit_stream. repeat keeps_step. Qed.

Lemma keeps_report columns args count f :
  keeps P (Extractor.report columns args count f).
Proof.
  unfold Extractor.report, Extractor.progress.
  repeat first [apply keeps_print | keeps_step].
Qed.

Lemma keeps_process_pair lower open_wb columns out_path args count index content :
  keeps P (Extractor.process_pair lower open_wb columns out_path args count index content).
Proof.
  unfold Extractor.process_pair, Extractor.emit_file.
  repeat first [apply keeps_qualifies | apply keeps_emit_stream
               | apply keeps_report | keeps_step].
Qed.

Lemma keeps_process_pair_legacy lower open_wb out_path quiet index content :
  keeps P (Extract.process_pair lower open_wb out_path quiet index content).
Proof.
  unfold Extract.process_pair, Extract.emit_file.
  repeat first [apply keeps_qualifies | apply keeps_emit_stream
               | apply keeps_print | keeps_step].
Qed.

Lemma keeps_read_loop json_loads lower open_wb columns out_path args :
  forall n lines count,
    length lines <= n ->
    keeps P (Extractor.read_loop json_loads lower open_wb columns out_path args lines count).
Proof.
  induction n as [|n IH]; intros lines count Hn.
  - destruct lines; [apply keeps_ret|simpl in Hn; lia].
  - destruct lines as [|l1 [|l2 rest]]; cbn [Extractor.read_loop].
    + apply keeps_ret.
    + repeat first [apply keeps_loads | apply keeps_process_pair | keeps_step].
    + repeat first [apply keeps_loads | apply keeps_process_pair
                   | apply IH; simpl in Hn; lia | keeps_step].
Qed.

Lemma keeps_read_loop_legacy json_loads lower open_wb out_path quiet :
  forall n lines,
    length lines <= n ->
    keeps P (Extract.read_loop json_loads lower open_wb out_path quiet lines).
Proof.
  induction n as [|n IH]; intros lines Hn.
  - destruct lines; [apply keeps_ret|simpl in Hn; lia].
  - destruct lines as [|l1 [|l2 rest]]; cbn [Extract.read_loop].
    + apply keeps_ret.
    + repeat first [apply keeps_loads | apply keeps_process_pair_legacy | keeps_step].
    + repeat first [apply keeps_loads | apply keeps_process_pair_legacy
                   | apply IH; simpl in Hn; lia | keeps_step].
Qed.

End TraceInvariant.

Lemma pystr_eqb_refl s : pystr_eqb s s = true.
Proof. unfold pystr_eqb. destruct (list_eq_dec N.eq_dec s s); congruence. Qed.

Lemma pystr_eqb_eq a b : pystr_eqb a b = true <-> a = b.
Proof.
  unfold pystr_eqb. destruct (list_eq_dec N.eq_dec a b); split; congruence.
Qed.

Lemma source_open_app t1 : forall t2 before,
    source_open before (t1 ++ t2) = source_open (source_open before t1) t2.
Proof.
  induction t1 as [|e t1 IH]; intros t2 before; [reflexivity|].
  destruct e; simpl; apply IH.
Qed.

Lemma open_files_app t1 : forall t2 opened,
    open_files opened (t1 ++ t2) = open_files (open_files opened t1) t2.
Proof.
  induction t1 as [|e t1 IH]; intros t2 opened; [reflexivity|].
  destruct e; simpl; apply IH.
Qed.

Lemma never_closes_app t1 t2 :
  never_closes t1 -> never_closes t2 -> never_closes (t1 ++ t2).
Proof.
  unfold never_closes. intros H1 H2. rewrite forallb_app, H1, H2. reflexivity.
Qed.

Lemma never_closes_with_open p t :
  never_closes t -> never_closes (FileOpen p :: t ++ [FileClose p]).
Proof. intros H. apply (never_closes_app [FileOpen p]); [reflexivity|].
       apply never_closes_app; [exact H|reflexivity]. Qed.

Lemma leaves_source_app t1 t2 :
  leaves_source t1 -> leaves_source t2 -> leaves_source (t1 ++ t2).
Proof.
  unfold leaves_source. intros H1 H2 b. rewrite source_open_app, H1, H2. reflexivity.
Qed.

Lemma leaves_source_with_open p t :
  leaves_source t -> leaves_source (FileOpen p :: t ++ [FileClose p]).
Proof.
  unfold leaves_source. intros H b. simpl. rewrite source_open_app, H. reflexivity.
Qed.

Lemma leaves_files_app t1 t2 :
  leaves_files t1 -> leaves_files t2 -> leaves_files (t1 ++ t2).
Proof.
  unfold leaves_files. intros H1 H2 o. rewrite open_files_app, H1, H2. reflexivity.
Qed.

Lemma leaves_files_with_open p t :
  leaves_files t -> leaves_files (FileOpen p :: t ++ [FileClose p]).
Proof.
  unfold leaves_files. intros H o. simpl. rewrite open_files_app, H. simpl.
  rewrite pystr_eqb_refl. reflexivity.
Qed.

(** The loops never close the source, leave it as open as it was, and
    leave no file open, whatever the lines hold. *)
Lemma read_loop_resources json_loads lower open_wb columns out_path args lines count :
  let t := fst (Extractor.read_loop json_loads lower open_wb columns out_path args lines count) in
  never_closes t /\ leaves_source t /\ leaves_files t.
Proof.
  split; [|split].
  - apply (keeps_read_loop never_closes) with (n := length lines);
      [reflexivity|apply never_closes_app|intros; reflexivity|intros; reflexivity
      |apply never_closes_with_open|lia].
  - apply (keeps_read_loop leaves_source) with (n := length lines);
      [intros b; reflexivity|apply leaves_source_app|intros s b; reflexivity
      |intros p b o; reflexivity|apply leaves_source_with_open|lia].
  - apply (keeps_read_loop leaves_files) with (n := length lines);
      [intros o; reflexivity|apply leaves_files_app|intros s o; reflexivity
      |intros p b o; reflexivity|apply leaves_files_with_open|lia].
Qed.

Lemma read_loop_legacy_resources json_loads lower open_wb out_path quiet lines :
  let t := fst (Extract.read_loop json_loads lower open_wb out_path quiet lines) in
  never_closes t /\ leaves_source t /\ leaves_files t.
Proof.
  split; [|split].
  - apply (keeps_read_loop_legacy never_closes) with (n := length lines);
      [reflexivity|apply never_closes_app|intros; reflexivity|intros; reflexivity
      |apply never_closes_with_open|lia].
  - apply (keeps_read_loop_legacy leaves_source) with (n := length lines);
      [intros b; reflexivity|apply leaves_source_app|intros s b; reflexivity
      |intros p b o; reflexivity|apply leaves_source_with_open|lia].
  - apply (keeps_read_loop_legacy leaves_files) with (n := length lines);
      [intros o; reflexivity|apply leaves_files_app|intros s o; reflexivity
      |intros p b o; reflexivity|apply leaves_files_with_open|lia].
Qed.

(** The source around the loop: a dump that [gzip.open] opened is closed by
    the release that follows a return and by nothing else; standard input
    stays open. *)
Lemma process_dump_source {A} input_file t (r : res A) :
  leaves_source t ->
  source_open (pystr_eqb input_file (u "-"))
              (opening input_file
               ++ t ++ match r with Ok _ => closing input_file | Raise _ => [] end)
  = match r with
    | Ok _ => pystr_eqb input_file (u "-")
    | Raise _ => true
    end.
Proof.
  intros H. unfold opening, closing.
  destruct (pystr_eqb input_file (u "-")), r; simpl;
    rewrite ?app_nil_r, ?source_open_app, ?H; reflexivity.
Qed.

Lemma file_events_report columns args count f :
  file_events (fst (Extractor.report columns args count f)) = [].
Proof.
  unfold Extractor.report, Extractor.progress.
  destruct args as [[] []], columns; reflexivity.
Qed.

Lemma file_events_app t1 t2 : file_events (t1 ++ t2) = file_events t1 ++ file_events t2.
Proof. apply filter_app. Qed.


Lemma expected_pair_files lower open_wb columns out_path args count ty c :
  qualifying ty c = true ->
  pystr_eqb out_path (u "-") = false ->
  forallb scalar (text c) = true ->
  is_ok (open_wb (path_join out_path (title_to_filename lower (title c)))) = true ->
  exists b,
    Utf8.encode (written_text out_path (text c)) = Some b
    /\ file_events (fst (expected_pair lower open_wb columns out_path args count ty c))
       = [FileOpen (path_join out_path (title_to_filename lower (title c)));
          FileWrite (path_join out_path (title_to_filename lower (title c))) b;
          FileClose (path_join out_path (title_to_filename lower (title c)))].
Proof.
  intros Hq Hp Hs Ho. unfold expected_pair. rewrite Hq, Hp, (is_ok_unit _ Ho).
  destruct (encode_scalar _ (written_text_scalar out_path _ Hs)) as [b Hb].
  exists b. split; [exact Hb|]. rewrite Hb.
  cbn [prepend fst]. rewrite file_events_app, file_events_report. reflexivity.
Qed.


(** ** The record pair decoder *)




(** ** The dump processor *)




(** C7, the claim as worded: on a dump of one pair [process_dump] returns
    [None], not the number [1] of pairs examined, and the counter the loop
    leaves behind is [2]. *)
Lemma process_dump_returns_none :
  snd (Extractor.process_dump Json.loads py_lower posix_open (Raise IndexError)
                              frwiki_dump_name (u "out") quiet_args
                              [index_line; foo_line])
  <> Ok (VInt 1)
  /\ snd (Extractor.read_loop Json.loads py_lower posix_open (Raise IndexError) (u "out")
                              quiet_args [index_line; foo_line] 0)
     <> Ok 1%Z.
Proof. split; vm_compute; discriminate. Qed.

(** C7, amended: [process_dump] returns [None] whenever it returns; the
    counter is local to the loop, each turn adds one to it before it
    reads and processes its pair with the raised counter, so that it grows
    strictly; and whenever the loop is left without an exception on [N]
    lines none of which is empty, [N] is even and the counter is at
    [N/2 + 1], the end of the stream included. [json.loads] is any decoder
    that refuses the empty line. *)
Theorem process_dump_count :
  forall json_loads lower open_wb columns input_file out_path args lines,
    (snd (Extractor.process_dump json_loads lower open_wb columns input_file out_path
                                 args lines)
     = match snd (Extractor.read_loop json_loads lower open_wb columns out_path args
                                      lines 0) with
       | Ok _ => Ok VNone
       | Raise e => Raise e
       end)
    /\ (forall l1 l2 rest n,
           is_empty l1 = false ->
           Extractor.read_loop json_loads lower open_wb columns out_path args
                               (l1 :: l2 :: rest) n
           = (index <- loads json_loads l1 ;;
              content <- loads json_loads l2 ;;
              Extractor.process_pair lower open_wb columns out_path args (n + 1)
                                     index content ;;;
              Extractor.read_loop json_loads lower open_wb columns out_path args
                                  rest (n + 1)))
    /\ (forall n c e0,
           forallb (fun l => negb (is_empty l)) lines = true ->
           json_loads EmptyString = Raise e0 ->
           snd (Extractor.read_loop json_loads lower open_wb columns out_path args
                                    lines n)
           = Ok c ->
           Nat.even (length lines) = true
           /\ c = (n + Z.of_nat (Nat.div2 (length lines)) + 1)%Z
           /\ (n < c)%Z).
Proof.
  intros json_loads lower open_wb columns input_file out_path args lines.
  split; [rewrite process_dump_unfold; reflexivity|].
  split; [intros l1 l2 rest n E1; apply read_loop_step, E1|].
  intros n c e0 Hne He Hc.
  destruct (read_loop_returns json_loads lower open_wb columns out_path args e0 He
                              (length lines) lines n c (le_n _) Hne Hc)
    as [Hev Hcount].
  split; [exact Hev|]. split; [exact Hcount|].
  rewrite Hcount. generalize (Nat.div2 (length lines)). intros d. lia.
Qed.

Lemma process_dump_count_witness :
  forallb (fun l => negb (is_empty l)) sample_dump = true
  /\ Json.loads EmptyString = Raise JSONDecodeError
  /\ snd (Extractor.read_loop Json.loads py_lower posix_open (Ok 80%Z) (u "out")
                              count_args sample_dump 0)
     = Ok 3%Z
  /\ (Nat.even (length sample_dump) = true
      /\ 3%Z = (0 + Z.of_nat (Nat.div2 (length sample_dump)) + 1)%Z
      /\ (0 < 3)%Z).
Proof.
  split; [vm_compute; reflexivity|]. split; [vm_compute; reflexivity|].
  split; [vm_compute; reflexivity|].
  apply (proj2 (proj2 (process_dump_count Json.loads py_lower posix_open (Ok 80%Z)
                                          frwiki_dump_name (u "out") count_args
                                          sample_dump))
               0%Z 3%Z JSONDecodeError);
    vm_compute; reflexivity.
Defined.

(** C10, the claim as worded: under the directory [cirrus/enwiki], whose
    last segment does not start with [fr], the text of a qualifying record
    is not always written to its file: when the title holds a null
    character no file is opened, and when the text is [null] the file is
    created and left empty. *)
Lemma qualifying_text_not_written :
  Extractor.process_pair
    py_lower posix_open (Raise IndexError) (u "cirrus/enwiki") quiet_args 1
    (VDict [(u "index", VDict [(u "_type", VStr (u "page"));
                               (u "_id", VStr (u "1"))])])
    (VDict [(u "namespace", VInt 0); (u "title", VStr [97; 0; 98]%N);
            (u "text", VStr (u "Bar")); (u "language", VStr (u "en"))])
  = ([], Raise ValueError)
  /\ Extractor.process_pair
       py_lower posix_open (Raise IndexError) (u "cirrus/enwiki") quiet_args 1
       (VDict [(u "index", VDict [(u "_type", VStr (u "page"));
                                  (u "_id", VStr (u "1"))])])
       (VDict [(u "namespace", VInt 0); (u "title", VStr (u "Foo"));
               (u "text", VNone); (u "language", VStr (u "en"))])
     = ([FileOpen (u "cirrus/enwiki/foo.txt"); FileClose (u "cirrus/enwiki/foo.txt")],
        Raise AttributeError).
Proof. split; vm_compute; reflexivity. Qed.

(** C10, amended: in file mode a qualifying record of the data model, with
    a title and a text that UTF-8 can encode, whose file can be opened
    gives one file whose bytes are the UTF-8 encoding of [clean_text] of the
    text when the last segment of the output directory starts with [fr],
    and of the text itself for every other directory; the directory
    [out/fruit] is one that triggers the cleanup. *)
Theorem emit_file_cleanup_by_leaf_name :
  forall lower open_wb columns out_path args count index content ty id c,
    index_fields index = Some (ty, id) ->
    content_fields_of content = Some c ->
    qualifying ty c = true ->
    pystr_eqb out_path (u "-") = false ->
    is_ok (open_wb (path_join out_path (title_to_filename lower (title c)))) = true ->
    (exists b,
        Utf8.encode (if startswith (basename out_path) (u "fr")
                     then clean_text (text c) else text c) = Some b
        /\ file_events
             (fst (Extractor.process_pair lower open_wb columns out_path args count
                                          index content))
           = [FileOpen (path_join out_path (title_to_filename lower (title c)));
              FileWrite (path_join out_path (title_to_filename lower (title c))) b;
              FileClose (path_join out_path (title_to_filename lower (title c)))])
    /\ startswith (basename (u "out/fruit")) (u "fr") = true
    /\ startswith (basename (u "cirrus/enwiki")) (u "fr") = false.
Proof.
  intros lower open_wb columns out_path args count index content ty id c Hi Hc Hq Hp Ho.
  split; [|split; reflexivity].
  pose proof (proj2 (proj2 (proj2 (proj2 (content_fields_inv _ _ Hc))))) as Hs.
  rewrite (process_pair_expected lower open_wb columns out_path args count _ _ _ _ _ Hi Hc).
  apply (expected_pair_files lower open_wb columns out_path args count ty c Hq Hp Hs Ho).
Qed.

Lemma emit_file_cleanup_by_leaf_name_witness :
  index_fields (VDict [(u "index", VDict [(u "_type", VStr (u "page"));
                                          (u "_id", VStr (u "7"))])])
  = Some (u "page", u "7")
  /\ content_fields_of
       (VDict [(u "namespace", VInt 0); (u "title", VStr (u "Fin"));
               (u "text", VStr (u "La fin | Suivant >"));
               (u "language", VStr (u "en"))])
     = Some (ContentFields 0 (u "Fin") (u "La fin | Suivant >") (u "en"))
  /\ qualifying (u "page") (ContentFields 0 (u "Fin") (u "La fin | Suivant >") (u "en"))
     = true
  /\ pystr_eqb (u "out/fruit") (u "-") = false
  /\ is_ok (posix_open (path_join (u "out/fruit") (title_to_filename py_lower (u "Fin"))))
     = true
  /\ exists b,
      Utf8.encode (if startswith (basename (u "out/fruit")) (u "fr")
                   then clean_text (u "La fin | Suivant >")
                   else u "La fin | Suivant >") = Some b
      /\ file_events
           (fst (Extractor.process_pair
                   py_lower posix_open (Raise IndexError) (u "out/fruit") quiet_args 1
                   (VDict [(u "index", VDict [(u "_type", VStr (u "page"));
                                              (u "_id", VStr (u "7"))])])
                   (VDict [(u "namespace", VInt 0); (u "title", VStr (u "Fin"));
                           (u "text", VStr (u "La fin | Suivant >"));
                           (u "language", VStr (u "en"))])))
         = [FileOpen (path_join (u "out/fruit") (title_to_filename py_lower (u "Fin")));
            FileWrite (path_join (u "out/fruit") (title_to_filename py_lower (u "Fin"))) b;
            FileClose (path_join (u "out/fruit") (title_to_filename py_lower (u "Fin")))].
Proof.
  split; [vm_compute; reflexivity|]. split; [vm_compute; reflexivity|].
  split; [vm_compute; reflexivity|]. split; [vm_compute; reflexivity|].
  split; [vm_compute; reflexivity|].
  apply (emit_file_cleanup_by_leaf_name
           py_lower posix_open (Raise IndexError) (u "out/fruit") quiet_args 1%Z
           (VDict [(u "index", VDict [(u "_type", VStr (u "page"));
                                      (u "_id", VStr (u "7"))])])
           (VDict [(u "namespace", VInt 0); (u "title", VStr (u "Fin"));
                   (u "text", VStr (u "La fin | Suivant >"));
                   (u "language", VStr (u "en"))])
           (u "page") (u "7")
           (ContentFields 0 (u "Fin") (u "La fin | Suivant >") (u "en")));
    vm_compute; reflexivity.
Defined.

(** ** The source as a resource *)

(** C9, the claim as worded: when the second line of a pair is not JSON the
    run ends in [JSONDecodeError] with the source still open, nothing
    having closed it; and with standard input as the source a run that
    returns leaves it open. *)
Lemma decode_failure_leaves_source_open :
  Extractor.process_dump Json.loads py_lower posix_open (Raise IndexError) frwiki_dump_name
                         (u "out") quiet_args [index_line; line "{'namespace':"]
  = ([SrcOpen frwiki_dump_name], Raise JSONDecodeError)
  /\ source_open false [SrcOpen frwiki_dump_name] = true
  /\ ~ In SrcClose [SrcOpen frwiki_dump_name]
  /\ snd (Extractor.process_dump Json.loads py_lower posix_open (Raise IndexError) (u "-")
                                 (u "out") quiet_args [index_line; foo_line])
     = Ok VNone
  /\ source_open true
       (fst (Extractor.process_dump Json.loads py_lower posix_open (Raise IndexError)
                                    (u "-") (u "out") quiet_args
                                    [index_line; foo_line]))
     = true.
Proof.
  split; [vm_compute; reflexivity|]. split; [reflexivity|].
  split; [intros [H|[]]; discriminate|].
  split; vm_compute; reflexivity.
Qed.

(** C9, amended: neither script has a statement that closes the source, and
    the loop never closes it. When the run is left by an exception, a fatal
    decode failure included, the source is still open as the exception
    leaves [process_dump]. When [process_dump] returns at the end of the
    stream, a source that [gzip.open] opened is closed by then, by the
    interpreter that releases the frame; standard input stays open. *)
Theorem process_dump_resources :
  forall json_loads lower open_wb columns input_file out_path args q lines,
    (never_closes
       (fst (Extractor.read_loop json_loads lower open_wb columns out_path args lines 0))
     /\ source_open (pystr_eqb input_file (u "-"))
          (fst (Extractor.process_dump json_loads lower open_wb columns input_file
                                       out_path args lines))
        = match snd (Extractor.process_dump json_loads lower open_wb columns input_file
                                            out_path args lines) with
          | Ok _ => pystr_eqb input_file (u "-")
          | Raise _ => true
          end
     /\ (forall e,
            snd (Extractor.process_dump json_loads lower open_wb columns input_file
                                        out_path args lines)
            = Raise e ->
            never_closes
              (fst (Extractor.process_dump json_loads lower open_wb columns input_file
                                           out_path args lines))))
    /\ (never_closes
          (fst (Extract.read_loop json_loads lower open_wb out_path q lines))
        /\ source_open (pystr_eqb input_file (u "-"))
             (fst (Extract.process_dump json_loads lower open_wb input_file out_path q
                                        lines))
           = match snd (Extract.process_dump json_loads lower open_wb input_file
                                             out_path q lines) with
             | Ok _ => pystr_eqb input_file (u "-")
             | Raise _ => true
             end
        /\ (forall e,
               snd (Extract.process_dump json_loads lower open_wb input_file out_path q
                                         lines)
               = Raise e ->
               never_closes
                 (fst (Extract.process_dump json_loads lower open_wb input_file
                                            out_path q lines)))).
Proof.
  intros json_loads lower open_wb columns input_file out_path args q lines. split.
  - destruct (read_loop_resources json_loads lower open_wb columns out_path args lines 0)
      as [H1 [H2 _]].
    split; [exact H1|]. rewrite process_dump_unfold. cbn [fst snd]. split.
    + rewrite (process_dump_source input_file _ _ H2).
      destruct (snd (Extractor.read_loop json_loads lower open_wb columns out_path
                                         args lines 0)); reflexivity.
    + intros e.
      destruct (snd (Extractor.read_loop json_loads lower open_wb columns out_path
                                         args lines 0)); [discriminate|].
      intros _. rewrite app_nil_r. apply never_closes_app; [|exact H1].
      unfold opening. destruct (pystr_eqb input_file (u "-")); reflexivity.
  - destruct (read_loop_legacy_resources json_loads lower open_wb out_path q lines)
      as [H1 [H2 _]].
    split; [exact H1|]. rewrite process_dump_legacy_unfold. cbn [fst snd]. split.
    + rewrite (process_dump_source input_file _ _ H2).
      destruct (snd (Extract.read_loop json_loads lower open_wb out_path q lines));
        reflexivity.
    + intros e.
      destruct (snd (Extract.read_loop json_loads lower open_wb out_path q lines));
        [discriminate|].
      intros _. rewrite app_nil_r. apply never_closes_app; [|exact H1].
      unfold opening. destruct (pystr_eqb input_file (u "-")); reflexivity.
Qed.

Lemma process_dump_resources_witness :
  snd (Extractor.process_dump Json.loads py_lower posix_open (Raise IndexError)
                              frwiki_dump_name (u "out") quiet_args
                              [index_line; line "{'namespace':"])
  = Raise JSONDecodeError
  /\ never_closes
       (fst (Extractor.process_dump Json.loads py_lower posix_open (Raise IndexError)
                                    frwiki_dump_name (u "out") quiet_args
                                    [index_line; line "{'namespace':"])).
Proof.
  split; [vm_compute; reflexivity|].
  apply (proj2 (proj2 (proj1 (process_dump_resources
                                Json.loads py_lower posix_open (Raise IndexError)
                                frwiki_dump_name (u "out") quiet_args true
                                [index_line; line "{'namespace':"])))
               JSONDecodeError).
  vm_compute; reflexivity.
Defined.

(** ** End to end on a French dump *)

(** C8, the claim as worded: the title is not cleaned before it is
    sanitized, so the file is not [chapitre-1-contenu.txt]. *)
Lemma chapitre_file_name_differs :
  title_to_filename py_lower chapitre <> u "chapitre-1-contenu.txt".
Proof. vm_compute. discriminate. Qed.

(** C8, amended: for the dump [frwiki-20150101-cirrussearch-content.json.gz]
    the directory is [cirrus/frwiki]; the record of that title is written
    to the file named by the whole sanitized title,
    [chapitre-1-début-de-la-boite-de-navigation-du-chapitre-fin-de-la-boite-de-navigation-du-chapitre-contenu.txt],
    and it is its text that loses the boilerplate phrase. Where the file
    system refuses to open that file, no file is touched. *)
Theorem frwiki_end_to_end :
  dir_name_from_input frwiki_dump_name = Some (u "frwiki")
  /\ out_path_of frwiki_options = Ok (u "cirrus/frwiki")
  /\ path_join (u "cirrus/frwiki") (title_to_filename py_lower chapitre)
     = chapitre_file
  /\ clean_text chapitre = u "Chapitre 1: Contenu"
  /\ posix_open chapitre_file = Ok tt
  /\ forall open_wb columns isdir makedirs_ok,
      file_events (fst (main Json.loads py_lower open_wb columns isdir makedirs_ok
                             frwiki_options [index_line; chapitre_line]))
      = if negb isdir && negb makedirs_ok then []
        else match open_wb chapitre_file with
             | Ok _ => [FileOpen chapitre_file;
                        FileWrite chapitre_file "Il était une fois";
                        FileClose chapitre_file]
             | Raise _ => []
             end.
Proof.
  repeat split; try (vm_compute; reflexivity).
  intros open_wb columns isdir makedirs_ok.
  destruct (open_wb chapitre_file) as [[]|e] eqn:E; vm_compute in E;
    destruct isdir, makedirs_ok, columns; vm_compute; rewrite ?E; reflexivity.
Qed.

(** ** Further properties: how a record can end the run *)

Lemma bind_ext {A B} (m : M A) (k1 k2 : A -> M B) :
  (forall a, k1 a = k2 a) -> bind m k1 = bind m k2.
Proof. intros H. destruct m as [t [a|e]]; simpl; [rewrite H|]; reflexivity. Qed.

Lemma bind_lift_raise {A B} (e : exn) (k : A -> M B) :
  bind (lift (Raise e)) k = ([], Raise e).
Proof. reflexivity. Qed.

Lemma bind_ret_r (m : M unit) : bind m (fun _ => ret tt) = m.
Proof. destruct m as [t [[]|e]]; simpl; rewrite ?app_nil_r; reflexivity. Qed.

(** X1: an index record whose [index] object has no [_type] key, as newer
    dumps have it, ends the run of either script in [KeyError] before
    anything is emitted, whatever the content record is. *)
Theorem index_without_type_raises :
  forall lower open_wb columns out_path args q count index content d,
    getitem index (u "index") = Ok (VDict d) ->
    dict_get d (u "_type") = None ->
    Extractor.process_pair lower open_wb columns out_path args count index content
    = ([], Raise (KeyError (u "_type")))
    /\ Extract.process_pair lower open_wb out_path q index content
       = ([], Raise (KeyError (u "_type"))).
Proof.
  intros lower open_wb columns out_path args q count index content d Hi Hd.
  unfold Extractor.process_pair, Extract.process_pair.
  rewrite Hi. run_binds. cbn [getitem]. rewrite Hd. split; reflexivity.
Qed.

Lemma index_without_type_raises_witness :
  getitem (VDict [(u "index", VDict [(u "_id", VStr (u "1"))])]) (u "index")
  = Ok (VDict [(u "_id", VStr (u "1"))])
  /\ dict_get [(u "_id", VStr (u "1"))] (u "_type") = None
  /\ Extractor.process_pair py_lower posix_open (Raise IndexError) (u "out") quiet_args 1
       (VDict [(u "index", VDict [(u "_id", VStr (u "1"))])]) VNone
     = ([], Raise (KeyError (u "_type"))).
Proof.
  split; [vm_compute; reflexivity|]. split; [vm_compute; reflexivity|].
  apply (index_without_type_raises
           py_lower posix_open (Raise IndexError) (u "out") quiet_args true 1%Z
           (VDict [(u "index", VDict [(u "_id", VStr (u "1"))])]) VNone
           [(u "_id", VStr (u "1"))]);
    vm_compute; reflexivity.
Defined.

(** X2: the language of the content record is read before the filter is
    applied: a content object without a [language] key ends the run in
    [KeyError] with nothing emitted, also when the record is one the filter
    would have skipped. *)
Theorem content_without_language_raises :
  forall lower open_wb columns out_path args q count index content ty id d,
    index_fields index = Some (ty, id) ->
    content = VDict d ->
    dict_get d (u "language") = None ->
    Extractor.process_pair lower open_wb columns out_path args count index content
    = ([], Raise (KeyError (u "language")))
    /\ Extract.process_pair lower open_wb out_path q index content
       = ([], Raise (KeyError (u "language"))).
Proof.
  intros lower open_wb columns out_path args q count index content ty id d Hi -> Hd.
  destruct (index_fields_inv _ _ _ Hi) as [idx [H1 [H2 H3]]].
  unfold Extractor.process_pair, Extract.process_pair.
  rewrite H1. run_binds. rewrite H2. run_binds. rewrite H3. run_binds.
  cbn [getitem]. rewrite Hd. split; reflexivity.
Qed.

Lemma content_without_language_raises_witness :
  index_fields (VDict [(u "index", VDict [(u "_type", VStr (u "file"));
                                          (u "_id", VStr (u "1"))])])
  = Some (u "file", u "1")
  /\ dict_get [(u "namespace", VInt 6)] (u "language") = None
  /\ Extractor.process_pair py_lower posix_open (Raise IndexError) (u "out") quiet_args 1
       (VDict [(u "index", VDict [(u "_type", VStr (u "file"));
                                  (u "_id", VStr (u "1"))])])
       (VDict [(u "namespace", VInt 6)])
     = ([], Raise (KeyError (u "language"))).
Proof.
  split; [vm_compute; reflexivity|]. split; [vm_compute; reflexivity|].
  apply (content_without_language_raises
           py_lower posix_open (Raise IndexError) (u "out") quiet_args true 1%Z
           (VDict [(u "index", VDict [(u "_type", VStr (u "file"));
                                      (u "_id", VStr (u "1"))])])
           (VDict [(u "namespace", VInt 6)])
           (u "file") (u "1") [(u "namespace", VInt 6)]);
    vm_compute; reflexivity.
Defined.

(** X3: the namespace is looked at for pages only: a record whose type is
    not [page] is skipped without error and without output even when its
    content has no namespace, title or text, as long as it has a
    language. *)
Theorem non_page_needs_no_namespace :
  forall lower open_wb columns out_path args q count index content ty id l,
    index_fields index = Some (ty, id) ->
    pystr_eqb ty (u "page") = false ->
    getitem content (u "language") = Ok l ->
    Extractor.process_pair lower open_wb columns out_path args count index content
    = ([], Ok tt)
    /\ Extract.process_pair lower open_wb out_path q index content = ([], Ok tt).
Proof.
  intros lower open_wb columns out_path args q count index content ty id l Hi Hty Hl.
  destruct (index_fields_inv _ _ _ Hi) as [idx [H1 [H2 H3]]].
  unfold Extractor.process_pair, Extract.process_pair, qualifies.
  rewrite H1, Hl. run_binds. rewrite H2. run_binds. rewrite H3. run_binds.
  rewrite Hty. run_binds. split; reflexivity.
Qed.

Lemma non_page_needs_no_namespace_witness :
  index_fields (VDict [(u "index", VDict [(u "_type", VStr (u "file"));
                                          (u "_id", VStr (u "1"))])])
  = Some (u "file", u "1")
  /\ pystr_eqb (u "file") (u "page") = false
  /\ getitem (VDict [(u "language", VStr (u "en"))]) (u "language")
     = Ok (VStr (u "en"))
  /\ Extractor.process_pair py_lower posix_open (Raise IndexError) (u "out") quiet_args 1
       (VDict [(u "index", VDict [(u "_type", VStr (u "file"));
                                  (u "_id", VStr (u "1"))])])
       (VDict [(u "language", VStr (u "en"))])
     = ([], Ok tt).
Proof.
  split; [vm_compute; reflexivity|]. split; [vm_compute; reflexivity|].
  split; [vm_compute; reflexivity|].
  apply (non_page_needs_no_namespace
           py_lower posix_open (Raise IndexError) (u "out") quiet_args true 1%Z
           (VDict [(u "index", VDict [(u "_type", VStr (u "file"));
                                      (u "_id", VStr (u "1"))])])
           (VDict [(u "language", VStr (u "en"))])
           (u "file") (u "1") (VStr (u "en")));
    vm_compute; reflexivity.
Defined.

Lemma page_fields_inv index content t v :
  page_fields index content = Some (t, v) ->
  exists idx ty id l ns,
    getitem index (u "index") = Ok idx
    /\ getitem idx (u "_type") = Ok (VStr ty)
    /\ getitem idx (u "_id") = Ok (VStr id)
    /\ getitem content (u "language") = Ok l
    /\ getitem content (u "namespace") = Ok ns
    /\ getitem content (u "title") = Ok (VStr t)
    /\ getitem content (u "text") = Ok v
    /\ pystr_eqb ty (u "page") = true /\ eq_zero ns = true.
Proof.
  unfold page_fields. intros H.
  destruct (index_fields index) as [[ty id]|] eqn:Hi; [|discriminate].
  destruct (index_fields_inv _ _ _ Hi) as [idx [H1 [H2 H3]]].
  destruct (getitem content (u "language")) as [l|]; [|discriminate].
  destruct (getitem content (u "namespace")) as [ns|]; [|discriminate].
  destruct (getitem content (u "title")) as [[]|]; try discriminate.
  destruct (getitem content (u "text")) as [x|]; [|discriminate].
  destruct (pystr_eqb ty (u "page") && eq_zero ns) eqn:E; [|discriminate].
  apply andb_prop in E. destruct E as [E1 E2]. inversion H; subst.
  exists idx, ty, id, l, ns. repeat split; assumption || reflexivity.
Qed.

(** The body of the loop of [cirrusextractor.py] in file mode on a pair
    that passes the filter. *)
Lemma process_pair_page lower open_wb columns out_path args count index content t v :
  page_fields index content = Some (t, v) ->
  pystr_eqb out_path (u "-") = false ->
  Extractor.process_pair lower open_wb columns out_path args count index content
  = let f := path_join out_path (title_to_filename lower t) in
    if startswith (basename out_path) (u "fr") then
      match v with
      | VStr x =>
        match open_wb f with
        | Raise e => ([], Raise e)
        | Ok _ =>
          match Utf8.encode (clean_text x) with
          | Some b => prepend [FileOpen f; FileWrite f b; FileClose f]
                              (Extractor.report columns args count f)
          | None => ([FileOpen f; FileClose f], Raise UnicodeEncodeError)
          end
        end
      | _ => ([], Raise TypeError)
      end
    else
      match open_wb f with
      | Raise e => ([], Raise e)
      | Ok _ =>
        match encode_value v with
        | Ok b => prepend [FileOpen f; FileWrite f b; FileClose f]
                          (Extractor.report columns args count f)
        | Raise e => ([FileOpen f; FileClose f], Raise e)
        end
      end.
Proof.
  intros H Hp.
  destruct (page_fields_inv _ _ _ _ H)
    as [idx [ty [id [l [ns [H1 [H2 [H3 [Hl [Hn [Ht [Hx [Hty Hz]]]]]]]]]]]]].
  unfold Extractor.process_pair, qualifies, Extractor.emit_file.
  rewrite H1, Hl, Hn, Ht, Hx, Hp. run_binds. rewrite H2. run_binds.
  rewrite H3. run_binds. rewrite Hty. run_binds. rewrite Hz.
  cbv zeta.
  destruct (startswith (basename out_path) (u "fr")); run_binds.
  - destruct v; try reflexivity. run_binds.
    destruct (open_wb _) as [[]|e]; [|reflexivity]. cbn [with_open].
    destruct (Utf8.encode (clean_text s)); [|reflexivity].
    unfold prepend. destruct (Extractor.report _ _ _ _). reflexivity.
  - destruct (open_wb _) as [[]|e]; [|reflexivity]. cbn [with_open].
    destruct (encode_value v); [|reflexivity].
    unfold prepend. destruct (Extractor.report _ _ _ _). reflexivity.
Qed.

Lemma process_pair_legacy_page lower open_wb out_path q index content t v :
  page_fields index content = Some (t, v) ->
  pystr_eqb out_path (u "-") = false ->
  Extract.process_pair lower open_wb out_path q index content
  = let f := path_join out_path (title_to_filename lower t) in
    match open_wb f with
    | Raise e => ([], Raise e)
    | Ok _ =>
      match encode_value v with
      | Ok b => prepend [FileOpen f; FileWrite f b; FileClose f]
                        (if negb q then print f [newline] else ret tt)
      | Raise e => ([FileOpen f; FileClose f], Raise e)
      end
    end.
Proof.
  intros H Hp.
  destruct (page_fields_inv _ _ _ _ H)
    as [idx [ty [id [l [ns [H1 [H2 [H3 [Hl [Hn [Ht [Hx [Hty Hz]]]]]]]]]]]]].
  unfold Extract.process_pair, qualifies, Extract.emit_file.
  rewrite H1, Hl, Hn, Ht, Hx, Hp. run_binds. rewrite H2. run_binds.
  rewrite H3. run_binds. rewrite Hty. run_binds. rewrite Hz.
  cbv zeta. run_binds.
  destruct (open_wb _) as [[]|e]; [|reflexivity]. cbn [with_open].
  destruct (encode_value v); [|reflexivity].
  destruct q; reflexivity.
Qed.

(** X4: the file is opened before the text is encoded: a page whose text
    holds a lone surrogate, which UTF-8 cannot encode, and whose file can
    be opened ends the run in [UnicodeEncodeError] and leaves the file of
    its title created and empty, whatever it held before. *)
Theorem unencodable_text_leaves_empty_file :
  forall lower open_wb columns out_path args count index content t x before,
    page_fields index content = Some (t, VStr x) ->
    pystr_eqb out_path (u "-") = false ->
    Utf8.encode (written_text out_path x) = None ->
    is_ok (open_wb (path_join out_path (title_to_filename lower t))) = true ->
    Extractor.process_pair lower open_wb columns out_path args count index content
    = ([FileOpen (path_join out_path (title_to_filename lower t));
        FileClose (path_join out_path (title_to_filename lower t))],
       Raise UnicodeEncodeError)
    /\ file_content
         (fst (Extractor.process_pair lower open_wb columns out_path args count
                                      index content))
         (path_join out_path (title_to_filename lower t)) before
       = Some EmptyString.
Proof.
  intros lower open_wb columns out_path args count index content t x before H Hp He Ho.
  rewrite (process_pair_page lower open_wb columns out_path args count _ _ _ _ H Hp).
  unfold written_text in He. cbv zeta. rewrite (is_ok_unit _ Ho).
  destruct (startswith (basename out_path) (u "fr")).
  - rewrite He. split; [reflexivity|]. cbn. rewrite pystr_eqb_refl. reflexivity.
  - cbn [encode_value]. rewrite He. split; [reflexivity|].
    cbn. rewrite pystr_eqb_refl. reflexivity.
Qed.

Lemma unencodable_text_leaves_empty_file_witness :
  page_fields
    (VDict [(u "index", VDict [(u "_type", VStr (u "page"));
                               (u "_id", VStr (u "1"))])])
    (VDict [(u "namespace", VInt 0); (u "title", VStr (u "Foo"));
            (u "text", VStr [55296%N]); (u "language", VStr (u "en"))])
  = Some (u "Foo", VStr [55296%N])
  /\ pystr_eqb (u "out") (u "-") = false
  /\ Utf8.encode (written_text (u "out") [55296%N]) = None
  /\ is_ok (posix_open (path_join (u "out") (title_to_filename py_lower (u "Foo")))) = true
  /\ Extractor.process_pair py_lower posix_open (Raise IndexError) (u "out") quiet_args 1
       (VDict [(u "index", VDict [(u "_type", VStr (u "page"));
                                  (u "_id", VStr (u "1"))])])
       (VDict [(u "namespace", VInt 0); (u "title", VStr (u "Foo"));
               (u "text", VStr [55296%N]); (u "language", VStr (u "en"))])
     = ([FileOpen (path_join (u "out") (title_to_filename py_lower (u "Foo")));
         FileClose (path_join (u "out") (title_to_filename py_lower (u "Foo")))],
        Raise UnicodeEncodeError).
Proof.
  split; [vm_compute; reflexivity|]. split; [vm_compute; reflexivity|].
  split; [vm_compute; reflexivity|]. split; [vm_compute; reflexivity|].
  apply (unencodable_text_leaves_empty_file
           py_lower posix_open (Raise IndexError) (u "out") quiet_args 1%Z
           (VDict [(u "index", VDict [(u "_type", VStr (u "page"));
                                      (u "_id", VStr (u "1"))])])
           (VDict [(u "namespace", VInt 0); (u "title", VStr (u "Foo"));
                   (u "text", VStr [55296%N]); (u "language", VStr (u "en"))])
           (u "Foo") [55296%N] None);
    vm_compute; reflexivity.
Defined.

(** X5: a page whose [text] is not a string ends the run, and how depends
    on the directory: under a directory in [fr] the cleanup raises
    [TypeError] before any file is touched; under any other directory, and
    always in the older script, the file is opened first: if [open] raises,
    its exception ends the run and no file is touched, otherwise the file
    is created empty and [encode] raises [AttributeError]. *)
Theorem non_string_text_raises :
  forall lower open_wb columns out_path args q count index content t v,
    page_fields index content = Some (t, v) ->
    is_str v = false ->
    pystr_eqb out_path (u "-") = false ->
    Extractor.process_pair lower open_wb columns out_path args count index content
    = (if startswith (basename out_path) (u "fr")
       then ([], Raise TypeError)
       else match open_wb (path_join out_path (title_to_filename lower t)) with
            | Ok _ =>
              ([FileOpen (path_join out_path (title_to_filename lower t));
                FileClose (path_join out_path (title_to_filename lower t))],
               Raise AttributeError)
            | Raise e => ([], Raise e)
            end)
    /\ Extract.process_pair lower open_wb out_path q index content
       = match open_wb (path_join out_path (title_to_filename lower t)) with
         | Ok _ =>
           ([FileOpen (path_join out_path (title_to_filename lower t));
             FileClose (path_join out_path (title_to_filename lower t))],
            Raise AttributeError)
         | Raise e => ([], Raise e)
         end.
Proof.
  intros lower open_wb columns out_path args q count index content t v H Hv Hp.
  rewrite (process_pair_page lower open_wb columns out_path args count _ _ _ _ H Hp).
  rewrite (process_pair_legacy_page lower open_wb out_path q _ _ _ _ H Hp).
  cbv zeta.
  destruct v; try discriminate;
    destruct (startswith (basename out_path) (u "fr"));
    destruct (open_wb _); split; reflexivity.
Qed.

Lemma non_string_text_raises_witness :
  page_fields
    (VDict [(u "index", VDict [(u "_type", VStr (u "page"));
                               (u "_id", VStr (u "1"))])])
    (VDict [(u "namespace", VInt 0); (u "title", VStr (u "Foo"));
            (u "text", VNone); (u "language", VStr (u "fr"))])
  = Some (u "Foo", VNone)
  /\ is_str VNone = false
  /\ pystr_eqb (u "cirrus/frwiki") (u "-") = false
  /\ Extractor.process_pair py_lower posix_open (Raise IndexError) (u "cirrus/frwiki")
       quiet_args 1
       (VDict [(u "index", VDict [(u "_type", VStr (u "page"));
                                  (u "_id", VStr (u "1"))])])
       (VDict [(u "namespace", VInt 0); (u "title", VStr (u "Foo"));
               (u "text", VNone); (u "language", VStr (u "fr"))])
     = (if startswith (basename (u "cirrus/frwiki")) (u "fr")
        then ([], Raise TypeError)
        else match posix_open (path_join (u "cirrus/frwiki")
                                      (title_to_filename py_lower (u "Foo"))) with
             | Ok _ =>
               ([FileOpen (path_join (u "cirrus/frwiki")
                                     (title_to_filename py_lower (u "Foo")));
                 FileClose (path_join (u "cirrus/frwiki")
                                      (title_to_filename py_lower (u "Foo")))],
                Raise AttributeError)
             | Raise e => ([], Raise e)
             end).
Proof.
  split; [vm_compute; reflexivity|]. split; [reflexivity|].
  split; [vm_compute; reflexivity|].
  apply (non_string_text_raises
           py_lower posix_open (Raise IndexError) (u "cirrus/frwiki") quiet_args true 1%Z
           (VDict [(u "index", VDict [(u "_type", VStr (u "page"));
                                      (u "_id", VStr (u "1"))])])
           (VDict [(u "namespace", VInt 0); (u "title", VStr (u "Foo"));
                   (u "text", VNone); (u "language", VStr (u "fr"))])
           (u "Foo") VNone);
    vm_compute; reflexivity.
Defined.

(** ** Further properties: the files and the combined stream *)

Lemma file_content_app t1 : forall t2 p before,
    file_content (t1 ++ t2) p before
    = file_content t2 p (file_content t1 p before).
Proof.
  induction t1 as [|e t1 IH]; intros t2 p before; [reflexivity|].
  destruct e; simpl; apply IH.
Qed.

Lemma file_content_only_stdout t : forall p before,
    only_stdout t -> file_content t p before = before.
Proof.
  unfold only_stdout. induction t as [|e t IH]; intros p before H; [reflexivity|].
  simpl in H. apply andb_prop in H. destruct H as [He Ht].
  destruct e; try discriminate. simpl. apply IH, Ht.
Qed.

Lemma report_only_stdout columns args count f :
  only_stdout (fst (Extractor.report columns args count f)).
Proof.
  unfold only_stdout, Extractor.report, Extractor.progress.
  destruct args as [[] []], columns; reflexivity.
Qed.

(** X6: writing a record truncates: after a qualifying record whose file
    can be opened is processed in file mode, the file named by its
    sanitized title holds exactly the bytes of that record, whatever it
    held before, so that of two records with the same file name the later
    one wins; every other file is left as it was. *)
Theorem record_overwrites_its_file :
  forall lower open_wb columns out_path args count index content ty id c,
    index_fields index = Some (ty, id) ->
    content_fields_of content = Some c ->
    qualifying ty c = true ->
    pystr_eqb out_path (u "-") = false ->
    is_ok (open_wb (path_join out_path (title_to_filename lower (title c)))) = true ->
    exists b,
      Utf8.encode (written_text out_path (text c)) = Some b
      /\ forall p before,
          file_content
            (fst (Extractor.process_pair lower open_wb columns out_path args count
                                         index content))
            p before
          = if pystr_eqb (path_join out_path (title_to_filename lower (title c))) p
            then Some b else before.
Proof.
  intros lower open_wb columns out_path args count index content ty id c Hi Hc Hq Hp Ho.
  pose proof (proj2 (proj2 (proj2 (proj2 (content_fields_inv _ _ Hc))))) as Hs.
  destruct (encode_scalar _ (written_text_scalar out_path _ Hs)) as [b Hb].
  exists b. split; [exact Hb|]. intros p before.
  rewrite (process_pair_expected lower open_wb columns out_path args count _ _ _ _ _ Hi Hc).
  unfold expected_pair. rewrite Hq, Hp, (is_ok_unit _ Ho), Hb. cbn [prepend fst].
  rewrite file_content_app.
  rewrite (file_content_only_stdout _ _ _ (report_only_stdout columns args count _)).
  cbn [file_content].
  destruct (pystr_eqb (path_join out_path (title_to_filename lower (title c))) p);
    reflexivity.
Qed.

Lemma record_overwrites_its_file_witness :
  index_fields (VDict [(u "index", VDict [(u "_type", VStr (u "page"));
                                          (u "_id", VStr (u "1"))])])
  = Some (u "page", u "1")
  /\ content_fields_of
       (VDict [(u "namespace", VInt 0); (u "title", VStr (u "Foo"));
               (u "text", VStr (u "Bar")); (u "language", VStr (u "en"))])
     = Some (ContentFields 0 (u "Foo") (u "Bar") (u "en"))
  /\ qualifying (u "page") (ContentFields 0 (u "Foo") (u "Bar") (u "en")) = true
  /\ pystr_eqb (u "out") (u "-") = false
  /\ is_ok (posix_open (path_join (u "out") (title_to_filename py_lower (u "Foo")))) = true
  /\ exists b,
      Utf8.encode (written_text (u "out") (u "Bar")) = Some b
      /\ forall p before,
          file_content
            (fst (Extractor.process_pair
                    py_lower posix_open (Raise IndexError) (u "out") quiet_args 1
                    (VDict [(u "index", VDict [(u "_type", VStr (u "page"));
                                               (u "_id", VStr (u "1"))])])
                    (VDict [(u "namespace", VInt 0); (u "title", VStr (u "Foo"));
                            (u "text", VStr (u "Bar"));
                            (u "language", VStr (u "en"))])))
            p before
          = if pystr_eqb (path_join (u "out") (title_to_filename py_lower (u "Foo"))) p
            then Some b else before.
Proof.
  split; [vm_compute; reflexivity|]. split; [vm_compute; reflexivity|].
  split; [vm_compute; reflexivity|]. split; [vm_compute; reflexivity|].
  split; [vm_compute; reflexivity|].
  apply (record_overwrites_its_file
           py_lower posix_open (Raise IndexError) (u "out") quiet_args 1%Z
           (VDict [(u "index", VDict [(u "_type", VStr (u "page"));
                                      (u "_id", VStr (u "1"))])])
           (VDict [(u "namespace", VInt 0); (u "title", VStr (u "Foo"));
                   (u "text", VStr (u "Bar")); (u "language", VStr (u "en"))])
           (u "page") (u "1") (ContentFields 0 (u "Foo") (u "Bar") (u "en")));
    vm_compute; reflexivity.
Defined.





Lemma pairs_trace_files json_loads lower open_wb columns out_path args :
  pystr_eqb out_path (u "-") = false ->
  forall pairs lines count,
    decode_stream json_loads lines = Some pairs ->
    files_open lower open_wb out_path pairs = true ->
    file_events (pairs_trace lower open_wb columns out_path args count pairs)
    = flat_map (file_unit lower out_path) pairs.
Proof.
  intros Hp.
  induction pairs as [|pc ps IH]; intros lines count H Ho;
    apply decode_stream_inv in H;
    destruct H as [[-> Hq]|[l1 [l2 [rest [index [content [ps' [ty [id [c H]]]]]]]]]].
  - reflexivity.
  - destruct H as [_ [H _]]. discriminate.
  - discriminate.
  - destruct H as [-> [Hq [E1 [J1 [J2 [Hi [Hc Hd]]]]]]]. injection Hq as -> ->.
    destruct (files_open_cons _ _ _ _ _ _ _ _ _ Hi Hc Ho) as [Ho1 Ho2].
    cbn [pairs_trace flat_map]. rewrite file_events_app, (IH _ _ Hd Ho2).
    f_equal.
    rewrite (process_pair_expected _ _ _ _ _ _ _ _ _ _ _ Hi Hc).
    unfold file_unit, record_fields, expected_pair. cbn [fst snd].
    rewrite Hi, Hc, Hp.
    destruct (qualifying ty c); [|reflexivity].
    rewrite (is_ok_unit _ (Ho1 eq_refl)).
    destruct (Utf8.encode (written_text out_path (text c))); [|reflexivity].
    cbn [prepend fst]. rewrite file_events_app, file_events_report. reflexivity.
Qed.

(** X8: file mode on a well-formed stream whose files can all be opened:
    the files are opened, written and closed one at a time, one per record
    that passes the filter, in the order of the dump, each under the
    directory and named by the sanitized title; records that do not pass
    touch no file. *)
Theorem file_mode_output :
  forall json_loads lower open_wb columns input_file out_path args lines pairs,
    terminal_ok args columns = true ->
    pystr_eqb out_path (u "-") = false ->
    decode_stream json_loads lines = Some pairs ->
    files_open lower open_wb out_path pairs = true ->
    file_events
      (fst (Extractor.process_dump json_loads lower open_wb columns input_file out_path
                                   args lines))
    = flat_map (file_unit lower out_path) pairs.
Proof.
  intros json_loads lower open_wb columns input_file out_path args lines pairs
         Hterm Hp Hdec Ho.
  rewrite process_dump_unfold. cbn [fst].
  rewrite <- (app_nil_r lines).
  rewrite (read_loop_pairs json_loads lower open_wb columns out_path args
                           pairs lines [] 0 (decode_stream_json_pairs _ _ _ Hdec)
                           (decoded_bodies_ok json_loads lower open_wb columns out_path
                                              args Hterm pairs lines 0 Hdec
                                              (fun _ => Ho))).
  cbn [prepend fst snd Extractor.read_loop ret]. rewrite app_nil_r.
  rewrite !file_events_app.
  rewrite (pairs_trace_files json_loads lower open_wb columns out_path args Hp _ _ _
                             Hdec Ho).
  unfold opening, closing. destruct (pystr_eqb input_file (u "-")); cbn;
    rewrite app_nil_r; reflexivity.
Qed.

Lemma file_mode_output_witness :
  terminal_ok count_args (Ok 80%Z) = true
  /\ pystr_eqb (u "out") (u "-") = false
  /\ decode_stream Json.loads sample_dump = Some sample_pairs
  /\ files_open py_lower posix_open (u "out") sample_pairs = true
  /\ file_events
       (fst (Extractor.process_dump Json.loads py_lower posix_open (Ok 80%Z) frwiki_dump_name
                                    (u "out") count_args sample_dump))
     = flat_map (file_unit py_lower (u "out")) sample_pairs.
Proof.
  split; [reflexivity|]. split; [vm_compute; reflexivity|].
  split; [vm_compute; reflexivity|]. split; [vm_compute; reflexivity|].
  apply (file_mode_output Json.loads py_lower posix_open (Ok 80%Z) frwiki_dump_name
                          (u "out") count_args sample_dump sample_pairs);
    vm_compute; reflexivity.
Defined.

Lemma only_stdout_nil : only_stdout [].
Proof. reflexivity. Qed.

Lemma only_stdout_app t1 t2 : only_stdout t1 -> only_stdout t2 -> only_stdout (t1 ++ t2).
Proof. unfold only_stdout. intros H1 H2. rewrite forallb_app, H1, H2. reflexivity. Qed.

Lemma only_stdout_one s : only_stdout [Stdout s].
Proof. reflexivity. Qed.

Lemma only_stdout_no_files t : only_stdout t -> file_events t = [].
Proof.
  unfold only_stdout. induction t as [|e t IH]; intros H; [reflexivity|].
  simpl in H. apply andb_prop in H. destruct H as [He Ht].
  destruct e; try discriminate. simpl. apply IH, Ht.
Qed.

Ltac stdout_step :=
  first
    [ apply (keeps_ret only_stdout only_stdout_nil)
    | apply (keeps_raise only_stdout only_stdout_nil)
    | apply (keeps_lift only_stdout only_stdout_nil)
    | apply (keeps_loads only_stdout only_stdout_nil)
    | apply (keeps_qualifies only_stdout only_stdout_nil only_stdout_app)
    | apply (keeps_emit_stream only_stdout only_stdout_nil only_stdout_app
                               only_stdout_one)
    | apply (keeps_bind only_stdout only_stdout_app); [|intros ?]
    | match goal with |- keeps _ (if ?b then _ else _) => destruct b end ].

Lemma stream_pair_only_stdout lower open_wb columns args count index content :
  keeps only_stdout
        (Extractor.process_pair lower open_wb columns (u "-") args count index content).
Proof.
  unfold Extractor.process_pair.
  change (pystr_eqb (u "-") (u "-")) with true. cbv iota.
  repeat stdout_step.
Qed.

Lemma stream_pair_legacy_only_stdout lower open_wb q index content :
  keeps only_stdout (Extract.process_pair lower open_wb (u "-") q index content).
Proof.
  unfold Extract.process_pair.
  change (pystr_eqb (u "-") (u "-")) with true. cbv iota.
  repeat stdout_step.
Qed.

Lemma stream_loop_only_stdout json_loads lower open_wb columns args :
  forall n lines count,
    length lines <= n ->
    keeps only_stdout
          (Extractor.read_loop json_loads lower open_wb columns (u "-") args lines count).
Proof.
  induction n as [|n IH]; intros lines count Hn.
  - destruct lines; [apply only_stdout_nil|simpl in Hn; lia].
  - destruct lines as [|l1 [|l2 rest]]; cbn [Extractor.read_loop].
    + apply only_stdout_nil.
    + repeat first [apply stream_pair_only_stdout | stdout_step].
    + repeat first [apply stream_pair_only_stdout
                   | apply IH; simpl in Hn; lia | stdout_step].
Qed.

Lemma stream_loop_legacy_only_stdout json_loads lower open_wb q :
  forall n lines,
    length lines <= n ->
    keeps only_stdout (Extract.read_loop json_loads lower open_wb (u "-") q lines).
Proof.
  induction n as [|n IH]; intros lines Hn.
  - destruct lines; [apply only_stdout_nil|simpl in Hn; lia].
  - destruct lines as [|l1 [|l2 rest]]; cbn [Extract.read_loop].
    + apply only_stdout_nil.
    + repeat first [apply stream_pair_legacy_only_stdout | stdout_step].
    + repeat first [apply stream_pair_legacy_only_stdout
                   | apply IH; simpl in Hn; lia | stdout_step].
Qed.

(** X9: with [-] as the output, neither script ever creates, writes or
    closes a file, whatever the lines of the dump hold and however the run
    ends: apart from the opening of the source and its release all it does
    is write on standard output. *)
Theorem stream_mode_touches_no_file :
  forall json_loads lower open_wb columns input_file args q lines,
    (file_events
       (fst (Extractor.process_dump json_loads lower open_wb columns input_file (u "-")
                                    args lines)) = []
     /\ only_stdout
          (fst (Extractor.read_loop json_loads lower open_wb columns (u "-") args lines 0)))
    /\ (file_events
          (fst (Extract.process_dump json_loads lower open_wb input_file (u "-") q lines))
        = []
        /\ only_stdout
             (fst (Extract.read_loop json_loads lower open_wb (u "-") q lines))).
Proof.
  intros json_loads lower open_wb columns input_file args q lines.
  pose proof (stream_loop_only_stdout json_loads lower open_wb columns args
                                      (length lines) lines 0 (le_n _)) as H1.
  pose proof (stream_loop_legacy_only_stdout json_loads lower open_wb q
                                             (length lines) lines (le_n _)) as H2.
  unfold keeps in H1, H2.
  split; (split; [|assumption]).
  - rewrite process_dump_unfold. cbn [fst]. rewrite !file_events_app.
    rewrite (only_stdout_no_files _ H1). unfold opening, closing.
    destruct (pystr_eqb input_file (u "-")), (snd (Extractor.read_loop _ _ _ _ _ _ _ _));
      reflexivity.
  - rewrite process_dump_legacy_unfold. cbn [fst]. rewrite !file_events_app.
    rewrite (only_stdout_no_files _ H2). unfold opening, closing.
    destruct (pystr_eqb input_file (u "-")), (snd (Extract.read_loop _ _ _ _ _ _));
      reflexivity.
Qed.

(** ** Further properties: the two scripts *)

Lemma forget_bind {A} (m : M A) (k : A -> M Z) :
  forget (bind m k) = bind m (fun a => forget (k a)).
Proof.
  unfold forget. destruct m as [t [a|e]]; simpl; [|reflexivity].
  destruct (k a) as [t' r]. reflexivity.
Qed.

Lemma emit_file_legacy lower open_wb columns out_path q count content :
  startswith (basename out_path) (u "fr") = false ->
  Extractor.emit_file lower open_wb columns out_path
                      {| quiet := q; count_flag := false |} count content
  = Extract.emit_file lower open_wb out_path q content.
Proof.
  intros H. unfold Extractor.emit_file, Extract.emit_file. rewrite H.
  apply bind_ext. intros v. apply bind_ext. intros t. cbv zeta.
  apply bind_ext. intros x. apply bind_ext. intros _.
  unfold Extractor.report. cbn [quiet count_flag]. apply bind_ret_r.
Qed.

Lemma process_pair_legacy lower open_wb columns out_path q count index content :
  startswith (basename out_path) (u "fr") = false ->
  Extractor.process_pair lower open_wb columns out_path
                         {| quiet := q; count_flag := false |} count index content
  = Extract.process_pair lower open_wb out_path q index content.
Proof.
  intros H. unfold Extractor.process_pair, Extract.process_pair.
  repeat (apply bind_ext; intros ?).
  destruct a4; [|reflexivity].
  destruct (pystr_eqb out_path (u "-")); [reflexivity|].
  apply emit_file_legacy, H.
Qed.

Lemma read_loop_legacy json_loads lower open_wb columns out_path q :
  startswith (basename out_path) (u "fr") = false ->
  forall n lines count,
    length lines <= n ->
    Extract.read_loop json_loads lower open_wb out_path q lines
    = forget (Extractor.read_loop json_loads lower open_wb columns out_path
                                  {| quiet := q; count_flag := false |} lines count).
Proof.
  intros H. induction n as [|n IH]; intros lines count Hn.
  - destruct lines; [reflexivity|simpl in Hn; lia].
  - destruct lines as [|l1 [|l2 rest]];
      cbn [Extract.read_loop Extractor.read_loop].
    + reflexivity.
    + destruct (is_empty l1); [reflexivity|].
      rewrite forget_bind. apply bind_ext. intros index.
      rewrite forget_bind. apply bind_ext. intros content.
      rewrite forget_bind, (process_pair_legacy _ _ _ _ _ _ _ _ H).
      apply bind_ext. intros _. reflexivity.
    + destruct (is_empty l1); [reflexivity|].
      rewrite forget_bind. apply bind_ext. intros index.
      rewrite forget_bind. apply bind_ext. intros content.
      rewrite forget_bind, (process_pair_legacy _ _ _ _ _ _ _ _ H).
      apply bind_ext. intros _. apply IH. simpl in Hn. lia.
Qed.

(** X10: the two scripts agree wherever the newer one neither cleans nor
    counts: for an output directory whose last segment does not start with
    [fr] (and for [-]), [cirrus-extract.py] and [cirrusextractor.py] without
    [--count] perform the same events and end the same way on every dump,
    well-formed or not. *)
Theorem scripts_agree_outside_fr :
  forall json_loads lower open_wb columns input_file out_path q lines,
    startswith (basename out_path) (u "fr") = false ->
    Extract.process_dump json_loads lower open_wb input_file out_path q lines
    = Extractor.process_dump json_loads lower open_wb columns input_file out_path
                             {| quiet := q; count_flag := false |} lines.
Proof.
  intros json_loads lower open_wb columns input_file out_path q lines H.
  rewrite process_dump_unfold, process_dump_legacy_unfold.
  rewrite (read_loop_legacy json_loads lower open_wb columns out_path q H
                            (length lines) lines 0 (le_n _)).
  unfold forget. cbn [fst snd].
  destruct (snd (Extractor.read_loop json_loads lower open_wb columns out_path
                                     {| quiet := q; count_flag := false |} lines 0));
    reflexivity.
Qed.

Lemma scripts_agree_outside_fr_witness :
  startswith (basename (u "cirrus/enwiki")) (u "fr") = false
  /\ Extract.process_dump Json.loads py_lower posix_open frwiki_dump_name (u "cirrus/enwiki")
                          false sample_dump
     = Extractor.process_dump Json.loads py_lower posix_open (Raise IndexError)
                              frwiki_dump_name (u "cirrus/enwiki")
                              {| quiet := false; count_flag := false |} sample_dump.
Proof.
  split; [vm_compute; reflexivity|].
  apply (scripts_agree_outside_fr Json.loads py_lower posix_open (Raise IndexError)
                                  frwiki_dump_name (u "cirrus/enwiki") false
                                  sample_dump).
  vm_compute; reflexivity.
Defined.

(** ** Further properties: the names of the files *)

Lemma title_to_filename_stem lower title :
  title_to_filename lower title = lower (stem title) ++ u ".txt".
Proof.
  unfold title_to_filename, stem, set, chr.
  change (u "-") with [hyphen].
  rewrite !sub_plus.
  change (Cat (One (N.eqb hyphen)) Eol) with hyphen_eol.
  rewrite sub_hyphen_eol.
  rewrite (replace_runs_ext _ _ [hyphen] title_class_spec).
  rewrite (replace_runs_ext _ _ [hyphen] chr_hyphen_spec).
  reflexivity.
Qed.

Lemma replace_runs_in p rep x : forall s b,
    In x (replace_runs p rep b s) -> (In x s /\ p x = false) \/ In x rep.
Proof.
  induction s as [|c s IH]; intros b H; [destruct H|].
  cbn [replace_runs] in H. destruct (p c) eqn:Hp.
  - destruct b.
    + apply IH in H. destruct H as [[H Hx]|H]; [left; split; [right|]|right]; assumption.
    + apply in_app_or in H. destruct H as [H|H]; [right; exact H|].
      apply IH in H. destruct H as [[H Hx]|H]; [left; split; [right|]|right]; assumption.
  - destruct H as [<-|H]; [left; split; [left; reflexivity|exact Hp]|].
    apply IH in H. destruct H as [[H Hx]|H]; [left; split; [right|]|right]; assumption.
Qed.

Lemma strip_scan_in x : forall s, In x (strip_scan s) -> In x s.
Proof.
  induction s as [|c s IH]; intros H; [destruct H|].
  cbn [strip_scan] in H.
  destruct (is_hyphen c && _); [right; exact H|].
  destruct H as [<-|H]; [left; reflexivity|right; apply IH, H].
Qed.

Lemma stem_in x title :
  In x (stem title) ->
  is_blank_or_punctuation x = false /\ (In x title \/ x = hyphen).
Proof.
  unfold stem. rewrite <- strip_scan_final. intros H. apply strip_scan_in in H.
  apply replace_runs_in in H. destruct H as [[H _]|[<-|[]]].
  - apply replace_runs_in in H. destruct H as [[H Hx]|[<-|[]]].
    + split; [exact Hx|left; exact H].
    + split; [reflexivity|right; reflexivity].
  - split; [reflexivity|right; reflexivity].
Qed.

Lemma no_double_hyphen_cons a s :
  is_hyphen a = false \/ starts_without_hyphen s ->
  no_double_hyphen s = true -> no_double_hyphen (a :: s) = true.
Proof.
  intros H Hs. destruct s as [|b s]; [reflexivity|].
  change (no_double_hyphen (a :: b :: s))
    with (negb (is_hyphen a && is_hyphen b) && no_double_hyphen (b :: s)).
  rewrite Hs, andb_true_r.
  destruct H as [H|H]; [rewrite H; reflexivity|].
  simpl in H. rewrite H, andb_false_r. reflexivity.
Qed.

Lemma no_double_hyphen_tail a s :
  no_double_hyphen (a :: s) = true -> no_double_hyphen s = true.
Proof.
  destruct s as [|b s]; [reflexivity|]. cbn [no_double_hyphen].
  intros H. apply andb_prop in H. apply H.
Qed.

Lemma collapse_no_double : forall s,
    no_double_hyphen (replace_runs is_hyphen [hyphen] false s) = true
    /\ no_double_hyphen (replace_runs is_hyphen [hyphen] true s) = true
    /\ starts_without_hyphen (replace_runs is_hyphen [hyphen] true s).
Proof.
  induction s as [|c s [IH1 [IH2 IH3]]]; [repeat split|].
  cbn [replace_runs]. destruct (is_hyphen c) eqn:Hc.
  - split; [|split; assumption].
    cbn [app]. apply no_double_hyphen_cons; [right; exact IH3|exact IH2].
  - assert (H : no_double_hyphen (c :: replace_runs is_hyphen [hyphen] false s) = true)
      by (apply no_double_hyphen_cons; [left; exact Hc|exact IH1]).
    split; [exact H|]. split; [exact H|exact Hc].
Qed.

Lemma strip_scan_no_double : forall s,
    no_double_hyphen s = true ->
    no_double_hyphen (strip_scan s) = true
    /\ (starts_without_hyphen s -> starts_without_hyphen (strip_scan s)).
Proof.
  induction s as [|c s IH]; intros H; [split; [reflexivity|trivial]|].
  pose proof (no_double_hyphen_tail _ _ H) as Hs.
  destruct (IH Hs) as [IH1 IH2].
  cbn [strip_scan].
  destruct (is_hyphen c && _) eqn:Hc.
  - split; [exact Hs|].
    intros Hstart. simpl in Hstart. rewrite Hstart in Hc. discriminate.
  - split; [|intros Hstart; exact Hstart].
    apply no_double_hyphen_cons; [|exact IH1].
    destruct (is_hyphen c) eqn:Hh; [right|left; reflexivity].
    apply IH2. destruct s as [|d s]; [exact I|].
    cbn [no_double_hyphen] in H. rewrite Hh in H. simpl in H.
    apply andb_prop in H. destruct H as [H _].
    apply negb_true_iff in H. exact H.
Qed.

Lemma no_double_hyphen_end : forall s,
    no_double_hyphen (s ++ [hyphen; hyphen]) = false.
Proof.
  induction s as [|c s IH]; [reflexivity|].
  change ((c :: s) ++ [hyphen; hyphen]) with (c :: (s ++ [hyphen; hyphen])).
  destruct (no_double_hyphen (c :: s ++ [hyphen; hyphen])) eqn:E; [|reflexivity].
  apply no_double_hyphen_tail in E. congruence.
Qed.

(** X11: the name before lowercasing holds no space, no-break space or
    punctuation of the class, no two hyphens in a row, and does not end
    with a hyphen; its characters are those of the title and hyphens. *)
Theorem stem_is_clean :
  forall lower title,
    title_to_filename lower title = lower (stem title) ++ u ".txt"
    /\ forallb (fun c => negb (is_blank_or_punctuation c)) (stem title) = true
    /\ (forall x, In x (stem title) -> In x title \/ x = hyphen)
    /\ no_double_hyphen (stem title) = true
    /\ (forall s, stem title <> s ++ [hyphen]).
Proof.
  intros lower title. split; [apply title_to_filename_stem|].
  split; [|split; [|split]].
  - apply forallb_forall. intros x Hx. apply stem_in in Hx.
    destruct Hx as [Hx _]. rewrite Hx. reflexivity.
  - intros x Hx. apply stem_in in Hx. apply Hx.
  - unfold stem. rewrite <- strip_scan_final.
    apply strip_scan_no_double, collapse_no_double.
  - intros s Hs.
    pose proof (proj1 (collapse_no_double
                         (replace_runs is_blank_or_punctuation [hyphen] false title)))
      as Hnd.
    unfold stem, strip_final_hyphen in Hs.
    remember (replace_runs is_hyphen [hyphen] false
                (replace_runs is_blank_or_punctuation [hyphen] false title)) as t.
    destruct (rev t) as [|a r] eqn:Er.
    + apply (f_equal (@rev char)) in Hs. rewrite Er, rev_app_distr in Hs. discriminate.
    + assert (Ht : t = rev r ++ [a])
        by (rewrite <- (rev_involutive t), Er; reflexivity).
      destruct (is_hyphen a) eqn:Ha.
      * apply N.eqb_eq in Ha. subst a. rewrite Hs in Ht.
        rewrite Ht, <- app_assoc in Hnd. cbn [app] in Hnd.
        rewrite no_double_hyphen_end in Hnd. discriminate.
      * destruct r as [|b r'].
        -- rewrite Ht in Hs. apply app_inj_tail in Hs. destruct Hs as [_ ->].
           discriminate.
        -- destruct ((a =? newline)%N && is_hyphen b).
           ++ apply app_inj_tail in Hs. destruct Hs as [_ Hs]. discriminate.
           ++ rewrite Ht in Hs. apply app_inj_tail in Hs. destruct Hs as [_ ->].
              discriminate.
Qed.

Lemma has_slash_app a b :
  existsb (N.eqb slash) (a ++ b)
  = existsb (N.eqb slash) a || existsb (N.eqb slash) b.
Proof. apply existsb_app. Qed.

Lemma basename_no_slash p : existsb (N.eqb slash) p = false -> basename p = p.
Proof.
  destruct p as [|c p]; [reflexivity|]. cbn [existsb basename]. intros H.
  apply orb_false_elim in H. destruct H as [Hc Hp]. rewrite Hp.
  rewrite N.eqb_sym, Hc. reflexivity.
Qed.

Lemma basename_after_slash b : forall a,
    existsb (N.eqb slash) b = false -> basename (a ++ slash :: b) = b.
Proof.
  intros a Hb. induction a as [|c a IH].
  - cbn [app basename]. rewrite Hb, N.eqb_refl. reflexivity.
  - cbn [app basename]. rewrite has_slash_app. cbn [existsb].
    rewrite N.eqb_refl, orb_true_r. exact IH.
Qed.

(** [os.path.join] then [os.path.basename] gives back a name without
    slash. *)
Lemma basename_path_join a b :
  existsb (N.eqb slash) b = false -> basename (path_join a b) = b.
Proof.
  intros Hb. unfold path_join.
  assert (Hs : startswith b [slash] = false).
  { destruct b as [|d b]; [reflexivity|]. cbn [existsb] in Hb.
    apply orb_false_elim in Hb. destruct Hb as [Hd _].
    cbn [startswith]. rewrite Hd. reflexivity. }
  rewrite Hs. destruct (rev a) as [|d r] eqn:Er.
  - apply basename_no_slash, Hb.
  - assert (Ha : a = rev r ++ [d])
      by (rewrite <- (rev_involutive a), Er; reflexivity).
    destruct (d =? slash)%N eqn:Hd.
    + apply N.eqb_eq in Hd. subst d a. rewrite <- app_assoc.
      apply basename_after_slash, Hb.
    + apply basename_after_slash, Hb.
Qed.

Lemma lower_char_slash c : (slash =? lower_char c)%N = (slash =? c)%N.
Proof.
  unfold lower_char, in_range, slash.
  destruct ((65 <=? c)%N && (c <=? 90)%N) eqn:E1.
  - apply andb_prop in E1. destruct E1 as [H1 H2].
    apply N.leb_le in H1, H2.
    replace (47 =? c + 32)%N with false by (symmetry; apply N.eqb_neq; lia).
    symmetry. apply N.eqb_neq. lia.
  - destruct ((192 <=? c)%N && (c <=? 222)%N && negb (c =? 215)%N) eqn:E2;
      [|reflexivity].
    apply andb_prop in E2. destruct E2 as [E2 _].
    apply andb_prop in E2. destruct E2 as [H1 H2].
    apply N.leb_le in H1, H2.
    replace (47 =? c + 32)%N with false by (symmetry; apply N.eqb_neq; lia).
    symmetry. apply N.eqb_neq. lia.
Qed.

Lemma py_lower_slash s :
  existsb (N.eqb slash) (py_lower s) = existsb (N.eqb slash) s.
Proof.
  unfold py_lower. induction s as [|c s IH]; [reflexivity|].
  cbn [map existsb]. rewrite lower_char_slash, IH. reflexivity.
Qed.

Lemma stem_no_slash title : existsb (N.eqb slash) (stem title) = false.
Proof.
  destruct (existsb (N.eqb slash) (stem title)) eqn:E; [|reflexivity].
  apply existsb_exists in E. destruct E as [x [Hx Hs]].
  apply N.eqb_eq in Hs. subst x. apply stem_in in Hx.
  destruct Hx as [Hx _]. discriminate.
Qed.

(** X12: the file of a record lies directly in the output directory: with
    the lowercasing of the Latin-1 table the sanitized name holds no slash,
    whatever the title, so that the last segment of the path of the file is
    the sanitized name itself. *)
Theorem file_lies_in_out_path :
  forall out_path title,
    existsb (N.eqb slash) (title_to_filename py_lower title) = false
    /\ basename (path_join out_path (title_to_filename py_lower title))
       = title_to_filename py_lower title.
Proof.
  intros out_path title.
  assert (H : existsb (N.eqb slash) (title_to_filename py_lower title) = false).
  { rewrite title_to_filename_stem, has_slash_app, py_lower_slash, stem_no_slash.
    reflexivity. }
  split; [exact H|]. apply basename_path_join, H.
Qed.

Lemma replace_runs_separators rep : forall t1 t2,
    same_but_separators t1 t2 = true ->
    forall b,
      replace_runs is_blank_or_punctuation rep b t1
      = replace_runs is_blank_or_punctuation rep b t2.
Proof.
  induction t1 as [|a t1 IH]; intros [|c t2] H b; try discriminate; [reflexivity|].
  cbn [same_but_separators] in H. apply andb_prop in H. destruct H as [Hac Ht].
  cbn [replace_runs]. rewrite !(IH t2 Ht).
  apply orb_prop in Hac. destruct Hac as [Hac|Hac].
  - apply N.eqb_eq in Hac. subst c. reflexivity.
  - apply andb_prop in Hac. destruct Hac as [Ha Hc]. rewrite Ha, Hc. reflexivity.
Qed.

(** X13: the name of the file does not tell which separators the title
    had: two titles of the same length that differ only in which character
    of the class (space, no-break space, punctuation) stands at a position
    get the same file name, and so the same file. *)
Theorem separators_collide :
  forall lower t1 t2,
    same_but_separators t1 t2 = true ->
    title_to_filename lower t1 = title_to_filename lower t2.
Proof.
  intros lower t1 t2 H. rewrite !title_to_filename_stem. unfold stem.
  rewrite (replace_runs_separators [hyphen] t1 t2 H false). reflexivity.
Qed.

Lemma separators_collide_witness :
  same_but_separators (u "A/B, C") (u "A:B?!C") = true
  /\ title_to_filename py_lower (u "A/B, C") = title_to_filename py_lower (u "A:B?!C").
Proof.
  split; [vm_compute; reflexivity|].
  apply (separators_collide py_lower (u "A/B, C") (u "A:B?!C")).
  vm_compute; reflexivity.
Defined.

Lemma all_hyphens_collapse rep : forall s,
    forallb is_hyphen s = true ->
    replace_runs is_hyphen rep true s = []
    /\ replace_runs is_hyphen rep false s = match s with [] => [] | _ => rep end.
Proof.
  induction s as [|c s IH]; intros H; [split; reflexivity|].
  cbn [forallb] in H. apply andb_prop in H. destruct H as [Hc Hs].
  destruct (IH Hs) as [IH1 _]. cbn [replace_runs]. rewrite Hc, IH1, app_nil_r.
  split; reflexivity.
Qed.

(** X14: a title made of separators and hyphens only, the empty title
    among them, leaves nothing to name the file by: every such title is
    written to the same file, named by the extension alone. *)
Theorem separator_titles_share_one_file :
  forall lower title,
    forallb (fun c => is_blank_or_punctuation c || is_hyphen c) title = true ->
    title_to_filename lower title = lower [] ++ u ".txt".
Proof.
  intros lower title H. rewrite title_to_filename_stem. do 2 f_equal.
  unfold stem.
  assert (H1 : forallb is_hyphen
                 (replace_runs is_blank_or_punctuation [hyphen] false title) = true).
  { apply forallb_forall. intros x Hx. apply replace_runs_in in Hx.
    destruct Hx as [[Hx Hp]|[<-|[]]]; [|reflexivity].
    rewrite forallb_forall in H. specialize (H x Hx). rewrite Hp in H. exact H. }
  destruct (all_hyphens_collapse [hyphen] _ H1) as [_ H2]. rewrite H2.
  destruct (replace_runs is_blank_or_punctuation [hyphen] false title); reflexivity.
Qed.

Lemma separator_titles_share_one_file_witness :
  forallb (fun c => is_blank_or_punctuation c || is_hyphen c) (u "?! (-)") = true
  /\ title_to_filename py_lower (u "?! (-)") = py_lower [] ++ u ".txt".
Proof.
  split; [vm_compute; reflexivity|].
  apply (separator_titles_share_one_file py_lower (u "?! (-)")).
  vm_compute; reflexivity.
Defined.

(** ** Further properties: the directory of the output *)

Lemma star_run_rel (R : mstate -> mstate -> Prop) step g :
  (forall m, R m m) ->
  (forall m1 m2 m3, R m1 m2 -> R m2 m3 -> R m1 m3) ->
  (forall m m', In m' (step m) -> R m m') ->
  forall f m m', In m' (star_run step g f m) -> R m m'.
Proof.
  intros Hrefl Htrans Hstep. induction f as [|f IH]; intros m m' Hin.
  - simpl in Hin. destruct Hin as [<-|[]]. apply Hrefl.
  - cbn [star_run] in Hin.
    assert (Hmore : forall x,
               In x (flat_map
                       (fun m1 => if length (rest m1) <? length (rest m)
                                  then star_run step g f m1 else [])
                       (step m)) -> R m x).
    { intros x Hx. apply in_flat_map in Hx. destruct Hx as [m1 [H1 Hx]].
      destruct (length (rest m1) <? length (rest m)); [|destruct Hx].
      eapply Htrans; [apply Hstep; exact H1|apply IH; exact Hx]. }
    destruct g.
    + apply in_app_or in Hin. destruct Hin as [Hin|[<-|[]]];
        [apply Hmore, Hin|apply Hrefl].
    + destruct Hin as [<-|Hin]; [apply Hrefl|apply Hmore, Hin].
Qed.

Lemma consumes_refl q m : consumes q m m.
Proof. exists []. simpl. repeat split; lia. Qed.

Lemma consumes_trans q m1 m2 m3 :
  consumes q m1 m2 -> consumes q m2 m3 -> consumes q m1 m3.
Proof.
  intros [p1 [H1 [P1 Q1]]] [p2 [H2 [P2 Q2]]]. exists (p1 ++ p2).
  rewrite H1, H2, <- app_assoc, length_app, forallb_app, Q1, Q2.
  repeat split; lia.
Qed.

(** A pattern made of the class [q] consumes characters of [q] only. *)
Lemma run_consumes q r : only q r -> forall m m', In m' (run r m) -> consumes q m m'.
Proof.
  induction r as [|p| | |r1 IH1 r2 IH2|r1 IH1 r2 IH2|g r1 IH1|n r1 IH1];
    intros Ho m m' Hin; cbn [run] in Hin; cbn [only] in Ho.
  - destruct Hin as [<-|[]]. apply consumes_refl.
  - destruct (rest m) as [|c s'] eqn:E; [destruct Hin|].
    destruct (p c) eqn:Hp; [|destruct Hin]. destruct Hin as [<-|[]].
    exists [c]. simpl. rewrite E, (Ho c Hp). repeat split; lia.
  - destruct (pos m =? 0); [|destruct Hin].
    destruct Hin as [<-|[]]. apply consumes_refl.
  - destruct (rest m) as [|c [|d s']].
    + destruct Hin as [<-|[]]. apply consumes_refl.
    + destruct (c =? 10)%N; [|destruct Hin].
      destruct Hin as [<-|[]]. apply consumes_refl.
    + destruct Hin.
  - destruct Ho as [Ho1 Ho2].
    apply in_flat_map in Hin. destruct Hin as [m1 [H1 H2]].
    eapply consumes_trans; [apply IH1; eassumption|apply IH2; eassumption].
  - destruct Ho as [Ho1 Ho2].
    apply in_app_or in Hin. destruct Hin as [Hin|Hin];
      [apply IH1|apply IH2]; assumption.
  - apply (star_run_rel (consumes q) (run r1) g (consumes_refl q)
                        (consumes_trans q) (IH1 Ho) _ _ _ Hin).
  - apply in_map_iff in Hin. destruct Hin as [m1 [<- H1]].
    destruct (IH1 Ho _ _ H1) as [pre [Hr [Hp Hq]]].
    exists pre. simpl. repeat split; assumption.
Qed.

(** A match consumes at least [min_len] characters. *)
Lemma run_min_len r : forall m m', In m' (run r m) -> pos m + min_len r <= pos m'.
Proof.
  induction r as [|p| | |r1 IH1 r2 IH2|r1 IH1 r2 IH2|g r1 IH1|n r1 IH1];
    intros m m' Hin; cbn [run] in Hin; cbn [min_len].
  - destruct Hin as [<-|[]]. lia.
  - destruct (rest m) as [|c s'] eqn:E; [destruct Hin|].
    destruct (p c); [|destruct Hin]. destruct Hin as [<-|[]]. simpl. lia.
  - destruct (pos m =? 0); [|destruct Hin]. destruct Hin as [<-|[]]. lia.
  - destruct (rest m) as [|c [|d s']].
    + destruct Hin as [<-|[]]. lia.
    + destruct (c =? 10)%N; [|destruct Hin]. destruct Hin as [<-|[]]. lia.
    + destruct Hin.
  - apply in_flat_map in Hin. destruct Hin as [m1 [H1 H2]].
    apply IH1 in H1. apply IH2 in H2. lia.
  - apply in_app_or in Hin. destruct Hin as [Hin|Hin];
      [apply IH1 in Hin|apply IH2 in Hin]; lia.
  - rewrite Nat.add_0_r.
    refine (star_run_rel (fun a b => pos a <= pos b) (run r1) g _ _ _ _ _ _ Hin).
    + intros; lia.
    + intros; lia.
    + intros a b Hab. apply IH1 in Hab. lia.
  - apply in_map_iff in Hin. destruct Hin as [m1 [<- H1]].
    apply IH1 in H1. simpl. exact H1.
Qed.

Lemma dir_name_shape :
  forall inp w,
    dir_name_from_input inp = Some w ->
    (exists rest, basename inp = w ++ hyphen :: rest)
    /\ forallb is_word w = true
    /\ 5 <= length w.
Proof.
  intros inp w. unfold dir_name_from_input, Re.match_, first_match.
  cbv zeta. set (fname := basename inp).
  destruct (find _ (run dir_name_pattern (MState 0 fname []))) as [m|] eqn:E;
    [|discriminate].
  apply find_some in E. destruct E as [Hin _].
  unfold dir_name_pattern in Hin.
  set (g := (plus false word · lit (u "wik") · plus true word)%re) in Hin.
  assert (Hg : only is_word g).
  { unfold g, plus, word.
    change (u "wik") with [119; 105; 107]%N.
    unfold chr. cbn [only lit].
    repeat split; intros c Hc; try exact Hc;
      apply N.eqb_eq in Hc; subst c; reflexivity. }
  assert (Hlen : min_len g = 5) by reflexivity.
  clearbody g.
  change (run (Cat (Cat Bol (Group 1 g)) (chr hyphen)) (MState 0 fname []))
    with (flat_map (run (chr hyphen))
                   (map (close_group 1 (MState 0 fname []))
                        (run g (MState 0 fname [])) ++ [])) in Hin.
  rewrite app_nil_r in Hin.
  apply in_flat_map in Hin. destruct Hin as [m1 [H1 H2]].
  apply in_map_iff in H1. destruct H1 as [m0 [<- H0]].
  pose proof (run_min_len g _ _ H0) as Hmin. rewrite Hlen in Hmin.
  apply (run_consumes is_word g Hg) in H0.
  destruct H0 as [pre [Hr [Hp Hq]]]. cbn [rest pos] in Hr, Hp, Hmin.
  unfold chr in H2. cbn [run close_group rest] in H2.
  destruct (rest m0) as [|c s'] eqn:Erest; [destruct H2|].
  destruct (N.eqb hyphen c) eqn:Hc; [|destruct H2].
  destruct H2 as [<-|[]]. apply N.eqb_eq in Hc. subst c.
  unfold Re.group, advance. cbn [caps close_group find fst Nat.eqb pos].
  rewrite Nat.sub_0_r. cbn [skipn]. intros Hw. inversion Hw as [Hw'].
  rewrite Hr, Hp. cbn [Nat.add]. rewrite firstn_length_app.
  split; [exists s'; reflexivity|]. split; [exact Hq|lia].
Qed.

(** X15: when [dir_name_from_input] returns a name, the base name of the
    path is that name followed by a hyphen; the name is made of word
    characters only and has at least five of them. *)
Theorem dir_name_is_prefix_before_hyphen :
  forall inp w,
    dir_name_from_input inp = Some w ->
    (exists rest, basename inp = w ++ hyphen :: rest)
    /\ forallb is_word w = true
    /\ 5 <= length w.
Proof. exact dir_name_shape. Qed.

Lemma dir_name_is_prefix_before_hyphen_witness :
  dir_name_from_input (u "dumps/frwikivoyage-20200101-cirrussearch-content.json.gz")
  = Some (u "frwikivoyage")
  /\ forallb is_word (u "frwikivoyage") = true.
Proof.
  split; [vm_compute; reflexivity|].
  apply (dir_name_is_prefix_before_hyphen
           (u "dumps/frwikivoyage-20200101-cirrussearch-content.json.gz")
           (u "frwikivoyage")).
  vm_compute; reflexivity.
Defined.

Lemma is_word_no_slash w :
  forallb is_word w = true -> existsb (N.eqb slash) w = false.
Proof.
  induction w as [|c w IH]; intros H; [reflexivity|].
  cbn [forallb] in H. apply andb_prop in H. destruct H as [Hc Hw].
  cbn [existsb]. rewrite (IH Hw), orb_false_r.
  destruct (N.eqb_spec slash c) as [<-|]; [discriminate|reflexivity].
Qed.

Lemma startswith_app prefix : forall s x,
    length prefix <= length s ->
    startswith (s ++ x) prefix = startswith s prefix.
Proof.
  induction prefix as [|c prefix IH]; intros s x H.
  - destruct (s ++ x); destruct s; reflexivity.
  - destruct s as [|d s]; [simpl in H; lia|].
    cbn [app startswith]. rewrite IH by (simpl in H; lia). reflexivity.
Qed.

Lemma path_join_length a b : length b <= length (path_join a b).
Proof.
  unfold path_join. destruct (startswith b [slash]); [lia|].
  destruct (rev a) as [|d r]; [lia|].
  destruct (d =? slash)%N; rewrite length_app; simpl; lia.
Qed.

(** X16: a dump whose base name holds no hyphen has no directory name:
    with a file as input and a directory as output, [main] ends in the
    [AttributeError] of [m.group] before it creates a directory, opens the
    source or prints anything. *)
Theorem main_needs_hyphen_in_dump_name :
  forall json_loads lower open_wb columns isdir makedirs_ok o lines,
    pystr_eqb (input o) (u "-") = false ->
    pystr_eqb (output_dir o) (u "-") = false ->
    existsb (N.eqb hyphen) (basename (input o)) = false ->
    dir_name_from_input (input o) = None
    /\ main json_loads lower open_wb columns isdir makedirs_ok o lines
       = ([], Raise AttributeError).
Proof.
  intros json_loads lower open_wb columns isdir makedirs_ok o lines Hi Ho Hh.
  assert (Hd : dir_name_from_input (input o) = None).
  { destruct (dir_name_from_input (input o)) as [w|] eqn:E; [|reflexivity].
    apply dir_name_shape in E. destruct E as [[rest E] _].
    rewrite E, existsb_app in Hh. cbn [existsb] in Hh.
    rewrite N.eqb_refl, orb_true_r in Hh. discriminate. }
  split; [exact Hd|].
  unfold main, out_path_of. rewrite Hi, Ho, Hd. reflexivity.
Qed.

Lemma main_needs_hyphen_in_dump_name_witness :
  pystr_eqb (u "dumps/frwiki.json.gz") (u "-") = false
  /\ pystr_eqb (u "cirrus") (u "-") = false
  /\ existsb (N.eqb hyphen) (basename (u "dumps/frwiki.json.gz")) = false
  /\ dir_name_from_input (u "dumps/frwiki.json.gz") = None.
Proof.
  split; [vm_compute; reflexivity|]. split; [vm_compute; reflexivity|].
  split; [vm_compute; reflexivity|].
  apply (main_needs_hyphen_in_dump_name
           Json.loads py_lower posix_open (Raise IndexError) false true
           {| input := u "dumps/frwiki.json.gz"; output_dir := u "cirrus";
              opt_quiet := false; opt_count := false |} []);
    vm_compute; reflexivity.
Defined.

(** X17: what decides the cleanup in [main]: with a file as input and a
    directory as output, the path handed to [process_dump] is never [-],
    its last segment is the name taken from the dump, and that segment
    starts with [fr] exactly when the base name of the dump does; so the
    text is cleaned exactly for the dumps whose file name starts with [fr],
    whatever the output directory is called. *)
Theorem main_cleans_by_dump_name :
  forall o out_path,
    pystr_eqb (input o) (u "-") = false ->
    pystr_eqb (output_dir o) (u "-") = false ->
    out_path_of o = Ok out_path ->
    pystr_eqb out_path (u "-") = false
    /\ dir_name_from_input (input o) = Some (basename out_path)
    /\ startswith (basename out_path) (u "fr")
       = startswith (basename (input o)) (u "fr")
    /\ forall x,
        written_text out_path x
        = if startswith (basename (input o)) (u "fr") then clean_text x else x.
Proof.
  intros o out_path Hi Ho H. unfold out_path_of in H. rewrite Hi, Ho in H.
  cbn [negb andb] in H.
  destruct (dir_name_from_input (input o)) as [w|] eqn:E; [|discriminate].
  injection H as <-.
  destruct (dir_name_shape _ _ E) as [[rest Hb] [Hw Hlen]].
  pose proof (basename_path_join (output_dir o) w (is_word_no_slash w Hw)) as Hbase.
  assert (Hfr : startswith (basename (path_join (output_dir o) w)) (u "fr")
                = startswith (basename (input o)) (u "fr")).
  { rewrite Hbase, Hb. symmetry. apply startswith_app.
    change (length (u "fr")) with 2. lia. }
  split; [|split; [|split]].
  - destruct (pystr_eqb (path_join (output_dir o) w) (u "-")) eqn:Hp; [|reflexivity].
    apply pystr_eqb_eq in Hp.
    pose proof (path_join_length (output_dir o) w) as Hl. rewrite Hp in Hl.
    change (length (u "-")) with 1 in Hl. lia.
  - rewrite Hbase. reflexivity.
  - exact Hfr.
  - intros x. unfold written_text. rewrite Hfr. reflexivity.
Qed.

Lemma main_cleans_by_dump_name_witness :
  pystr_eqb (input frwiki_options) (u "-") = false
  /\ pystr_eqb (output_dir frwiki_options) (u "-") = false
  /\ out_path_of frwiki_options = Ok (u "cirrus/frwiki")
  /\ pystr_eqb (u "cirrus/frwiki") (u "-") = false.
Proof.
  split; [vm_compute; reflexivity|]. split; [vm_compute; reflexivity|].
  split; [vm_compute; reflexivity|].
  apply (main_cleans_by_dump_name frwiki_options (u "cirrus/frwiki"));
    vm_compute; reflexivity.
Defined.

(** ** Further properties: the cleanup only deletes *)

(** X18: the cleanup only deletes: the cleaned text is the text with some
    characters removed, in the same order, and so never longer; nothing is
    inserted, replaced or moved. *)
Theorem clean_text_only_deletes :
  forall text,
    subseq (clean_text text) text /\ length (clean_text text) <= length text.
Proof.
  intros text.
  assert (H : subseq (clean_text text) text).
  { unfold clean_text, Re.sub. cbv zeta.
    eapply subseq_trans; [apply sub_loop_subseq|].
    eapply subseq_trans; [apply sub_loop_subseq|].
    eapply subseq_trans; [apply sub_loop_subseq|].
    apply sub_loop_subseq. }
  split; [exact H|apply subseq_length, H].
Qed.

(** ** Further properties: the progress line *)

(** X19: the value that [--count] reads is the first number that
    [stty size] prints, the number of rows of the terminal, whatever the
    source calls it. When that value [v] is at least five, the progress
    line is blanked by [v] spaces, and what is printed over it is the
    counter and the path cut to [v - 5] characters, then three dots: at
    most [v - 2] characters. The width of the terminal does not enter. *)
Theorem progress_line_cut_by_rows :
  forall v count out_fname,
    (5 <= v)%Z ->
    exists shown,
      Extractor.progress (Ok v) count out_fname
      = ([Stdout (spaces v); Stdout [cr]; Stdout (shown ++ u "..."); Stdout [cr]],
         Ok tt)
      /\ shown = firstn (Z.to_nat (v - 5))
                        (str_of_int count ++ u " | " ++ out_fname)
      /\ Z.of_nat (length (spaces v)) = v
      /\ (Z.of_nat (length (shown ++ u "...")) <= v - 2)%Z.
Proof.
  intros v count out_fname Hv.
  exists (firstn (Z.to_nat (v - 5)) (str_of_int count ++ u " | " ++ out_fname)).
  split; [|split; [reflexivity|split]].
  - unfold Extractor.progress, slice_to. rewrite bind_lift_ok.
    replace (v - 5 <? 0)%Z with false by (symmetry; apply Z.ltb_ge; lia).
    reflexivity.
  - unfold spaces. rewrite repeat_length. lia.
  - rewrite length_app.
    pose proof (firstn_le_length (Z.to_nat (v - 5))
                                 (str_of_int count ++ u " | " ++ out_fname)) as H.
    change (length (u "...")) with 3. lia.
Qed.

Lemma progress_line_cut_by_rows_witness :
  (5 <= 24)%Z
  /\ exists shown,
      Extractor.progress (Ok 24%Z) 12 (u "out/a-rather-long-title.txt")
      = ([Stdout (spaces 24); Stdout [cr]; Stdout (shown ++ u "..."); Stdout [cr]],
         Ok tt)
      /\ shown = firstn (Z.to_nat (24 - 5))
                        (str_of_int 12 ++ u " | " ++ u "out/a-rather-long-title.txt")
      /\ Z.of_nat (length (spaces 24)) = 24%Z
      /\ (Z.of_nat (length (shown ++ u "...")) <= 24 - 2)%Z.
Proof.
  split; [lia|].
  apply (progress_line_cut_by_rows 24%Z 12%Z (u "out/a-rather-long-title.txt")). lia.
Defined.

(** X20: [--count] without a terminal: the [stty] expression is evaluated
    after the file is written, so the first record that passes the filter
    and whose file can be opened is written and closed, and then the
    exception of the expression ends the run; if the file cannot be opened
    the exception of [open] ends the run before that; records the filter
    rejects pass without harm. *)
Theorem count_without_terminal :
  forall lower open_wb out_path q count index content ty id c e,
    index_fields index = Some (ty, id) ->
    content_fields_of content = Some c ->
    pystr_eqb out_path (u "-") = false ->
    Extractor.process_pair lower open_wb (Raise e) out_path
                           {| quiet := q; count_flag := true |} count index content
    = if qualifying ty c then
        match open_wb (path_join out_path (title_to_filename lower (title c))) with
        | Raise e' => ([], Raise e')
        | Ok _ =>
          match Utf8.encode (written_text out_path (text c)) with
          | Some b =>
            ([FileOpen (path_join out_path (title_to_filename lower (title c)));
              FileWrite (path_join out_path (title_to_filename lower (title c))) b;
              FileClose (path_join out_path (title_to_filename lower (title c)))]
             ++ (if q then []
                 else [Stdout (path_join out_path (title_to_filename lower (title c)));
                       Stdout [newline]]),
             Raise e)
          | None =>
            ([FileOpen (path_join out_path (title_to_filename lower (title c)));
              FileClose (path_join out_path (title_to_filename lower (title c)))],
             Raise UnicodeEncodeError)
          end
        end
      else ([], Ok tt).
Proof.
  intros lower open_wb out_path q count index content ty id c e Hi Hc Hp.
  rewrite (process_pair_expected lower open_wb (Raise e) out_path _ count _ _ _ _ _ Hi Hc).
  unfold expected_pair. rewrite Hp.
  destruct (qualifying ty c); [|reflexivity].
  destruct (open_wb _); [|reflexivity].
  destruct (Utf8.encode (written_text out_path (text c))); [|reflexivity].
  destruct q; reflexivity.
Qed.

Lemma count_without_terminal_witness :
  index_fields (VDict [(u "index", VDict [(u "_type", VStr (u "page"));
                                          (u "_id", VStr (u "1"))])])
  = Some (u "page", u "1")
  /\ content_fields_of
       (VDict [(u "namespace", VInt 0); (u "title", VStr (u "Foo"));
               (u "text", VStr (u "Bar")); (u "language", VStr (u "en"))])
     = Some (ContentFields 0 (u "Foo") (u "Bar") (u "en"))
  /\ pystr_eqb (u "out") (u "-") = false
  /\ Extractor.process_pair
       py_lower posix_open (Raise IndexError) (u "out") count_args 1
       (VDict [(u "index", VDict [(u "_type", VStr (u "page"));
                                  (u "_id", VStr (u "1"))])])
       (VDict [(u "namespace", VInt 0); (u "title", VStr (u "Foo"));
               (u "text", VStr (u "Bar")); (u "language", VStr (u "en"))])
     = ([FileOpen (u "out/foo.txt"); FileWrite (u "out/foo.txt") "Bar";
         FileClose (u "out/foo.txt")], Raise IndexError).
Proof.
  split; [vm_compute; reflexivity|]. split; [vm_compute; reflexivity|].
  split; [vm_compute; reflexivity|].
  unfold count_args.
  rewrite (count_without_terminal
             py_lower posix_open (u "out") true 1%Z
             (VDict [(u "index", VDict [(u "_type", VStr (u "page"));
                                        (u "_id", VStr (u "1"))])])
             (VDict [(u "namespace", VInt 0); (u "title", VStr (u "Foo"));
                     (u "text", VStr (u "Bar")); (u "language", VStr (u "en"))])
             (u "page") (u "1") (ContentFields 0 (u "Foo") (u "Bar") (u "en"))
             IndexError);
    vm_compute; reflexivity.
Defined.

(** ** Further properties: exceptions in the loop *)

(** X21: an exception raised while a pair is processed, whatever it is,
    ends the run of [cirrusextractor.py] at that pair: the pairs before
    it, which raised none, have been processed, what the pair did before
    it raised has been done, the lines after it are never read, and the
    source is not released. *)
Theorem exception_ends_run_at_pair :
  forall json_loads lower open_wb columns input_file out_path args
         done_lines pairs l1 l2 rest index content e,
    json_pairs json_loads done_lines = Some pairs ->
    bodies_ok lower open_wb columns out_path args 0 pairs = true ->
    is_empty l1 = false ->
    json_loads l1 = Ok index ->
    json_loads l2 = Ok content ->
    snd (Extractor.process_pair lower open_wb columns out_path args
                                (Z.of_nat (length pairs) + 1) index content)
    = Raise e ->
    Extractor.process_dump json_loads lower open_wb columns input_file out_path args
                           (done_lines ++ l1 :: l2 :: rest)
    = (opening input_file
       ++ pairs_trace lower open_wb columns out_path args 0 pairs
       ++ fst (Extractor.process_pair lower open_wb columns out_path args
                                      (Z.of_nat (length pairs) + 1) index content),
       Raise e).
Proof.
  intros json_loads lower open_wb columns input_file out_path args
         done_lines pairs l1 l2 rest index content e Hdec Hb E1 J1 J2 He.
  rewrite process_dump_unfold.
  rewrite (read_loop_pairs json_loads lower open_wb columns out_path args
                           pairs done_lines (l1 :: l2 :: rest) 0 Hdec Hb).
  cbn [Extractor.read_loop]. rewrite E1. unfold loads. rewrite J1, J2.
  run_binds. cbn [Z.add] in *.
  rewrite (bind_raise _ e) by exact He.
  cbn [prepend fst snd]. rewrite app_nil_r. reflexivity.
Qed.

Lemma exception_ends_run_at_pair_witness :
  json_pairs Json.loads sample_dump = Some sample_pairs
  /\ bodies_ok py_lower posix_open (Raise IndexError) (u "out") quiet_args 0 sample_pairs
     = true
  /\ is_empty index_line = false
  /\ Json.loads index_line
     = Ok (VDict [(u "index", VDict [(u "_type", VStr (u "page"));
                                     (u "_id", VStr (u "1"))])])
  /\ Json.loads (line "{'namespace':0}") = Ok (VDict [(u "namespace", VInt 0)])
  /\ snd (Extractor.process_dump Json.loads py_lower posix_open (Raise IndexError)
                                 frwiki_dump_name (u "out") quiet_args
                                 (sample_dump ++ index_line
                                    :: line "{'namespace':0}" :: [foo_line]))
     = Raise (KeyError (u "language")).
Proof.
  split; [vm_compute; reflexivity|]. split; [vm_compute; reflexivity|].
  split; [reflexivity|]. split; [vm_compute; reflexivity|].
  split; [vm_compute; reflexivity|].
  rewrite (exception_ends_run_at_pair
             Json.loads py_lower posix_open (Raise IndexError) frwiki_dump_name (u "out")
             quiet_args sample_dump sample_pairs index_line
             (line "{'namespace':0}") [foo_line]
             (VDict [(u "index", VDict [(u "_type", VStr (u "page"));
                                        (u "_id", VStr (u "1"))])])
             (VDict [(u "namespace", VInt 0)])
             (KeyError (u "language")));
    vm_compute; reflexivity.
Defined.

(** ** Further properties: the rules at the end of the text *)

Lemma run_before_eol r m m' :
  In m' (run (Cat r Eol) m) -> rest m' = [] \/ rest m' = [newline].
Proof.
  cbn [run]. intros H. apply in_flat_map in H. destruct H as [m1 [_ H]].
  destruct (rest m1) as [|c [|d s']] eqn:E.
  - destruct H as [<-|[]]. left. exact E.
  - destruct (c =? 10)%N eqn:Hc; [|destruct H].
    destruct H as [<-|[]]. right. apply N.eqb_eq in Hc. subst c. exact E.
  - destruct H.
Qed.

(** A text shorter than the least match holds no match. *)
Lemma search_short r : forall s adv p,
    length s < min_len r -> Re.search r adv p s = None.
Proof.
  assert (Hnone : forall s adv p,
             length s < min_len r -> first_match adv r (MState p s []) = None).
  { intros s adv p Hl. unfold first_match.
    destruct (find _ (run r (MState p s []))) as [m'|] eqn:E; [|reflexivity].
    apply find_some in E. destruct E as [Hin _].
    pose proof (run_min_len r _ _ Hin) as Hmin.
    apply run_extends in Hin. destruct Hin as [pre [Hr Hp]].
    cbn [rest pos] in Hr, Hp, Hmin.
    apply (f_equal (@length char)) in Hr. rewrite length_app in Hr. lia. }
  induction s as [|c s IH]; intros adv p Hl; cbn [Re.search];
    rewrite (Hnone _ adv p Hl); [reflexivity|].
  apply IH. simpl in Hl. lia.
Qed.

(** X22: the rule for [Suivant >] touches the end of the text only: what
    it returns is a prefix of the text, followed at most by the newline
    that ended the text; a marker that is not at the end stays. *)
Theorem suivant_rule_cuts_the_end :
  forall text,
    exists n,
      Re.sub (suivant REGICES_FR) [] text = firstn n text
      \/ Re.sub (suivant REGICES_FR) [] text = firstn n text ++ [newline].
Proof.
  intros text.
  assert (Hmin : min_len (suivant REGICES_FR) = 10) by (vm_compute; reflexivity).
  assert (Hshape : exists body, suivant REGICES_FR = Cat body Eol)
    by (eexists; reflexivity).
  destruct Hshape as [body Hbody].
  unfold Re.sub.
  replace (2 * length text + 2) with (S (S (2 * length text))) by lia.
  cbn [sub_loop].
  destruct (Re.search (suivant REGICES_FR) false 0 text) as [[b m']|] eqn:E.
  - pose proof E as Espec. apply search_spec in Espec.
    destruct Espec as [pre [mid [Hs [Hb _]]]].
    assert (Hend : rest m' = [] \/ rest m' = [newline]).
    { clear Hs. revert E. generalize 0 at 1. generalize false.
      induction text as [|c t IH]; intros adv p E; cbn [Re.search] in E.
      - destruct (first_match adv (suivant REGICES_FR) (MState p [] []))
          as [m1|] eqn:F; [|discriminate].
        injection E as _ <-. unfold first_match in F. apply find_some in F.
        destruct F as [F _]. rewrite Hbody in F. apply run_before_eol in F. exact F.
      - destruct (first_match adv (suivant REGICES_FR) (MState p (c :: t) []))
          as [m1|] eqn:F.
        + injection E as _ <-. unfold first_match in F. apply find_some in F.
          destruct F as [F _]. rewrite Hbody in F. apply run_before_eol in F. exact F.
        + apply IH in E. exact E. }
    rewrite (search_short (suivant REGICES_FR) (rest m') (pos m' =? b) (pos m'))
      by (rewrite Hmin; destruct Hend as [->| ->]; simpl; lia).
    exists (b - 0). destruct Hend as [->| ->]; [left|right].
    + rewrite app_nil_r. reflexivity.
    + reflexivity.
  - exists (length text). left. symmetry. apply firstn_all.
Qed.

(** X23: the directory of the dump plays no part in the name: the name
    taken from a path is the one taken from its last segment. *)
Theorem dir_name_ignores_directory :
  forall dir fname,
    existsb (N.eqb slash) fname = false ->
    dir_name_from_input (dir ++ slash :: fname) = dir_name_from_input fname.
Proof.
  intros dir fname H. unfold dir_name_from_input.
  rewrite (basename_after_slash fname dir H), (basename_no_slash fname H).
  reflexivity.
Qed.

Lemma dir_name_ignores_directory_witness :
  existsb (N.eqb slash) frwiki_dump_name = false
  /\ dir_name_from_input (u "/data/dumps" ++ slash :: frwiki_dump_name)
     = dir_name_from_input frwiki_dump_name.
Proof.
  split; [vm_compute; reflexivity|].
  apply (dir_name_ignores_directory (u "/data/dumps") frwiki_dump_name).
  vm_compute; reflexivity.
Defined.
